(** * boltdye: the two-stage agent pipeline (prompt enhancer, code generator)

    A shallow embedding of the agent layer of the repository:
    - [app/lib/.server/agents]           the "standard" agents (streamText),
    - [app/lib/.server/langchain-agents] the LangChain agents, their helpers
      ([types.ts], [utils.ts]) and their orchestrator.

    JavaScript strings are modelled as [string], read as the UTF-8 encoding
    of the text: the regular-expression dot and [trim] know the line
    terminators and the white space beyond ASCII by their encodings. Case
    mapping is that of the ASCII letters, so a statement that rests on
    [toUpperCase] is made for ASCII names ([Js.isAscii]); lengths count
    code units. A plain object is a [gmap] of its own properties; where the
    code reads it under a computed name, the members it inherits from
    [Object.prototype] are part of the model ([Js.property]).
    JavaScript numbers that count things (tokens, progress orders)
    are [Z]; [Math.ceil(n / 4)] is the ceiling of the rational [n / 4].
    The output sink ([dataStream]) and the calls to the collaborators are
    recorded in a trace that a small state-and-error monad threads through
    the code, in the order the code issues them. *)

From Stdlib Require Import ZArith QArith Qround Ascii String Lia.
From stdpp Require Import base option list strings gmap pretty.

Local Open Scope Z_scope.

(** ** JavaScript string primitives used by the agents *)

Module Js.

Definition LF : string := String "010"%char EmptyString.

(** [String.prototype.toLowerCase] / [toUpperCase], on ASCII letters. *)
Definition lowerChar (c : ascii) : ascii :=
  let n := nat_of_ascii c in
  if ((65 <=? n)%nat && (n <=? 90)%nat)%bool then ascii_of_nat (n + 32) else c.

Definition upperChar (c : ascii) : ascii :=
  let n := nat_of_ascii c in
  if ((97 <=? n)%nat && (n <=? 122)%nat)%bool then ascii_of_nat (n - 32) else c.

Fixpoint toLowerCase (s : string) : string :=
  match s with
  | EmptyString => EmptyString
  | String c r => String (lowerChar c) (toLowerCase r)
  end.

Fixpoint toUpperCase (s : string) : string :=
  match s with
  | EmptyString => EmptyString
  | String c r => String (upperChar c) (toUpperCase r)
  end.

(** A text of ASCII characters only. *)
Fixpoint isAscii (s : string) : bool :=
  match s with
  | EmptyString => true
  | String c r => (nat_of_ascii c <? 128)%nat && isAscii r
  end.

(** White space removed by [String.prototype.trim]: the ASCII white space
    and line terminators, one code unit each, *)
Definition isWhiteSpace (c : ascii) : bool :=
  match c with
  | "009" | "010" | "011" | "012" | "013" | " " => true
  | _ => false
  end%char.

(** U+00A0, encoded in two code units, *)
Definition isWhiteSpace2 (a b : ascii) : bool :=
  ((nat_of_ascii a =? 194) && (nat_of_ascii b =? 160))%nat.

(** and, in three code units, U+1680, U+2000 to U+200A, U+2028, U+2029,
    U+202F, U+205F, U+3000 and U+FEFF. *)
Definition isWhiteSpace3 (a b c : ascii) : bool :=
  let a := nat_of_ascii a in
  let b := nat_of_ascii b in
  let c := nat_of_ascii c in
  ((a =? 225) && (b =? 154) && (c =? 128)
   || (a =? 226) && (b =? 128)
      && ((128 <=? c) && (c <=? 138) || (c =? 168) || (c =? 169) || (c =? 175))
   || (a =? 226) && (b =? 129) && (c =? 159)
   || (a =? 227) && (b =? 128) && (c =? 128)
   || (a =? 239) && (b =? 187) && (c =? 191))%nat.

Fixpoint trimStart (s : string) : string :=
  match s with
  | String a r =>
      if isWhiteSpace a then trimStart r
      else
        match r with
        | String b r1 =>
            if isWhiteSpace2 a b then trimStart r1
            else
              match r1 with
              | String c r2 => if isWhiteSpace3 a b c then trimStart r2 else s
              | EmptyString => s
              end
        | EmptyString => s
        end
  | EmptyString => EmptyString
  end.

(** [trimEnd] keeps a character when something other than white space
    follows it, or when it is not white space itself. *)
Fixpoint trimEnd (s : string) : string :=
  match s with
  | EmptyString => EmptyString
  | String a r =>
      let oneUnit :=
        match trimEnd r with
        | EmptyString => if isWhiteSpace a then EmptyString else String a EmptyString
        | r' => String a r'
        end in
      match r with
      | String b r1 =>
          if isWhiteSpace2 a b then
            match trimEnd r1 with
            | EmptyString => EmptyString
            | r' => String a (String b r')
            end
          else
            match r1 with
            | String c r2 =>
                if isWhiteSpace3 a b c then
                  match trimEnd r2 with
                  | EmptyString => EmptyString
                  | r' => String a (String b (String c r'))
                  end
                else oneUnit
            | EmptyString => oneUnit
            end
      | EmptyString => oneUnit
      end
  end.

Definition trim (s : string) : string := trimEnd (trimStart s).

(** [!s] for a string: only the empty string is falsy. *)
Definition truthy (s : string) : bool :=
  match s with EmptyString => false | _ => true end.

(** [a || b] for strings. *)
Definition or (a b : string) : string := if truthy a then a else b.

(** The characters the regular-expression dot refuses: LF and CR, one code
    unit each, *)
Definition isLineTerminator (c : ascii) : bool :=
  match c with
  | "010" | "013" => true
  | _ => false
  end%char.

(** and U+2028 and U+2029, three code units each. *)
Definition isLineTerminator3 (a b c : ascii) : bool :=
  ((nat_of_ascii a =? 226) && (nat_of_ascii b =? 128)
   && ((nat_of_ascii c =? 168) || (nat_of_ascii c =? 169)))%nat.

(** A line terminator starts at the code unit [a] followed by [r]. *)
Definition lineTerminatorAt (a : ascii) (r : string) : bool :=
  isLineTerminator a ||
  match r with
  | String b (String c _) => isLineTerminator3 a b c
  | _ => false
  end.

Definition isCloseBracket (c : ascii) : bool :=
  match c with "]"%char => true | _ => false end.

(** [(.*?)\]] anchored at the head of [s]: the shortest run of
    non-terminator characters that is followed by a closing bracket. *)
Fixpoint lazyGroup (s : string) : option string :=
  match s with
  | EmptyString => None
  | String c r =>
      if isCloseBracket c then Some EmptyString
      else if lineTerminatorAt c r then None
      else String c <$> lazyGroup r
  end.

(** [stripPrefix p s] is the rest of [s] after the literal [p]. *)
Fixpoint stripPrefix (p s : string) : option string :=
  match p, s with
  | EmptyString, _ => Some s
  | String a p', String b s' => if Ascii.eqb a b then stripPrefix p' s' else None
  | String _ _, EmptyString => None
  end.

(** One attempt of [/<open>(.*?)\]/] at the head of [s]. *)
Definition matchHere (open s : string) : option string :=
  stripPrefix open s ≫= lazyGroup.

(** [s.match(/<open>(.*?)\]/)]: the leftmost position where the attempt
    succeeds; the result is capture group 1. *)
Fixpoint matchGroup (open s : string) : option string :=
  match matchHere open s with
  | Some g => Some g
  | None =>
      match s with
      | EmptyString => None
      | String _ r => matchGroup open r
      end
  end.

(** [content.match(/\[Model: (.*?)\]/)] and [/\[Provider: (.*?)\]/]. *)
Definition matchModel (content : string) : option string :=
  matchGroup "[Model: " content.

Definition matchProvider (content : string) : option string :=
  matchGroup "[Provider: " content.

(** The names of the members every plain object inherits from
    [Object.prototype]. *)
Definition inheritedMembers : list string :=
  ["constructor"; "__defineGetter__"; "__defineSetter__"; "hasOwnProperty";
   "__lookupGetter__"; "__lookupSetter__"; "isPrototypeOf"; "propertyIsEnumerable";
   "toString"; "valueOf"; "__proto__"; "toLocaleString"].

(** What reading a property of a plain object of strings gives: a string,
    or one of the inherited members, which are functions (and, under
    [__proto__], the prototype itself): truthy, and not strings. *)
Inductive Value :=
| Text (s : string)
| InheritedMember (name : string).

(** [!!v] *)
Definition truthyValue (v : Value) : bool :=
  match v with
  | Text s => truthy s
  | InheritedMember _ => true
  end.

(** [object[name]] on a plain object whose own properties are [object]:
    the own property, else the inherited member, else [undefined]. *)
Definition property (object : gmap string string) (name : string) : option Value :=
  match object !! name with
  | Some s => Some (Text s)
  | None =>
      if bool_decide (name ∈ inheritedMembers) then Some (InheritedMember name)
      else None
  end.

(** [a || rest] where [a] is what a property read gave. *)
Definition orValue (a : option Value) (rest : Value) : Value :=
  match a with
  | Some v => if truthyValue v then v else rest
  | None => rest
  end.

End Js.

Coercion Js.Text : string >-> Js.Value.

(** ** Messages *)

Inductive Role := system | user | assistant | data.

Global Instance Role_eq_dec : EqDecision Role.
Proof. solve_decision. Defined.

(** One part of a structured content: [{ type: string; text?: string }]. *)
Record ContentItem := { item_type : string; item_text : option string }.

(** [content] is a string or an array of parts. *)
Inductive Content :=
| Plain (text : string)
| Parts (items : list ContentItem).

Record Message := { role : Role; content : Content; id : string }.

(** [contentArray.find(c => c.type === 'text')] followed by
    [textItem?.text || '']. *)
Definition firstText (items : list ContentItem) : string :=
  match List.find (fun c => String.eqb (item_type c) "text") items with
  | Some textItem => default EmptyString (item_text textItem)
  | None => EmptyString
  end.

(** The text the agents read out of a message ([messageContent]). *)
Definition contentText (c : Content) : string :=
  match c with
  | Plain text => text
  | Parts items => firstText items
  end.

(** [[...messages].reverse().find(msg => msg.role === 'user')]. *)
Definition findLastUser (messages : list Message) : option Message :=
  List.find (fun msg => bool_decide (role msg = user)) (reverse messages).

Record ModelInfo := { model : string; providerName : string }.

(** ** Progress annotations and the output sink *)

Inductive Status := InProgress | Complete | Error.

Global Instance Status_eq_dec : EqDecision Status.
Proof. solve_decision. Defined.

(** [ProgressAnnotation]; its [type] field is the constant ['progress']. *)
Record ProgressAnnotation := {
  label : string;
  status : Status;
  order : Z;
  message : string
}.

(** What the agents and the orchestrator hand to [dataStream.writeData]. *)
Inductive DataEvent :=
| Progress (annotation : ProgressAnnotation)
| PromptComparison (original enhanced : string).

(** ** Usage *)

Record Usage := {
  completionTokens : Z;
  promptTokens : Z;
  totalTokens : Z
}.

(** The usage object of [streamText]: any field may be missing. *)
Record RawUsage := {
  rawCompletionTokens : option Z;
  rawPromptTokens : option Z;
  rawTotalTokens : option Z
}.

(** [x || 0] for a number. *)
Definition orZero (x : Z) : Z := if x =? 0 then 0 else x.

(** [usage?.field || 0]. *)
Definition fieldOrZero (field : Usage -> Z) (usage : option Usage) : Z :=
  match usage with
  | Some u => orZero (field u)
  | None => 0
  end.

(** [resolvedUsage.field || 0] on the raw object. *)
Definition rawOrZero (x : option Z) : Z :=
  match x with
  | Some n => orZero n
  | None => 0
  end.

(** [Math.ceil(n / 4)] for a length [n]. *)
Definition ceilQuarter (n : nat) : Z := Qceiling (Z.of_nat n # 4).

(** ** Model clients *)

Inductive ChatClass := ChatAnthropic | ChatOpenAI.

(** The constructor arguments of [new ChatAnthropic({...})] and
    [new ChatOpenAI({...})]. *)
Record ChatModel := {
  chatClass : ChatClass;
  apiKey : Js.Value;
  modelName : string;
  temperature : Q;
  baseURL : option string
}.

(** LangChain messages built by the agents. *)
Inductive BaseMessage :=
| SystemMessage (text : string)
| HumanMessage (text : string).

Inductive AgentRole := PROMPT_ENHANCER | CODE_GENERATOR.

(** ** Files *)

Inductive Dirent :=
| File (fileContent : string)
| Folder.

Abbreviation FileMap := (gmap string Dirent).

(** ** Errors, effects and the monad *)

(** What a stage can throw. [External] is the error of a rejected request
    to a collaborator (the model call, the context selection). *)
Inductive Failure :=
| NoUserMessageToEnhance
| NoUserMessageForCodeGeneration
| NoApiKey (provider : string)
| External (reason : string).

(** [error.message]. *)
Definition failureMessage (e : Failure) : string :=
  match e with
  | NoUserMessageToEnhance => "No user message found to enhance"
  | NoUserMessageForCodeGeneration => "No user message found for code generation"
  | NoApiKey provider => "No API key available for provider: " +:+ provider
  | External reason => reason
  end.

Inductive Result (A : Type) :=
| Ok (value : A)
| Thrown (error : Failure).
Arguments Ok {A} value.
Arguments Thrown {A} error.

(** The arguments of a [streamText] call that the agents choose:
    [messages] and [options.system] ([None] is [undefined]). *)
Record StreamTextCall := {
  st_messages : list Message;
  st_system : option string
}.

(** Everything observable a run does, in order. *)
Inductive Effect :=
| WriteData (event : DataEvent)
| Invoke (llm : ChatModel) (messagesToSend : list BaseMessage)
| StreamText (call : StreamTextCall)
| SelectContext (messages : list Message).

Abbreviation Trace := (list Effect).

Definition M (A : Type) : Type := Trace -> Result A * Trace.

Definition ret {A} (a : A) : M A := fun t => (Ok a, t).

Definition throw {A} (e : Failure) : M A := fun t => (Thrown e, t).

Definition bind {A B} (m : M A) (k : A -> M B) : M B :=
  fun t =>
    match m t with
    | (Ok a, t') => k a t'
    | (Thrown e, t') => (Thrown e, t')
    end.

(** [try { body } catch (error) { handler }]. *)
Definition tryCatch {A} (body : M A) (handler : Failure -> M A) : M A :=
  fun t =>
    match body t with
    | (Ok a, t') => (Ok a, t')
    | (Thrown e, t') => handler e t'
    end.

(** [dataStream.writeData(event)]. *)
Definition writeData (event : DataEvent) : M unit :=
  fun t => (Ok tt, t ++ [WriteData event]).

(** What a request to a collaborator settles to. *)
Inductive Outcome (A : Type) :=
| Fulfilled (value : A)
| Rejected (reason : string).
Arguments Fulfilled {A} value.
Arguments Rejected {A} reason.

Definition settle {A} (o : Outcome A) : Result A :=
  match o with
  | Fulfilled a => Ok a
  | Rejected reason => Thrown (External reason)
  end.

(** An awaited call to a collaborator: it is recorded, and the collaborator
    answers from what has happened so far. *)
Definition call {A} (effect : Effect) (answer : Trace -> Outcome A) : M A :=
  fun t => (settle (answer t), t ++ [effect]).

(** A value read from a collaborator that leaves no mark on the sink. *)
Definition ask {A} (answer : Trace -> A) : M A :=
  fun t => (Ok (answer t), t).

Declare Scope pipeline_scope.
Delimit Scope pipeline_scope with pipeline.
Notation "x <- m ;; k" := (bind m (fun x => k))
  (at level 100, m at next level, right associativity) : pipeline_scope.
Notation "m ;; k" := (bind m (fun _ => k))
  (at level 100, right associativity) : pipeline_scope.

(** The sink's view of a trace. *)
Definition written (t : Trace) : list DataEvent :=
  omap (fun e => match e with WriteData d => Some d | _ => None end) t.

Definition progressEvents (t : Trace) : list ProgressAnnotation :=
  omap (fun d => match d with Progress a => Some a | _ => None end) (written t).

(** The model and context-selection calls of a trace. *)
Definition isModelCall (e : Effect) : bool :=
  match e with
  | WriteData _ => false
  | _ => true
  end.

Definition modelCalls (t : Trace) : list Effect := List.filter isModelCall t.

(** ** Collaborators

    Code the agents call but do not define: the provider SDKs, the prompt
    templates, the file-context helpers, the id generators and the process
    environment. A collaborator that performs a request answers from the
    trace so far, so two calls with equal arguments may answer differently. *)

(** What [streamText] resolves to, once [text] and [usage] are awaited. *)
Record StreamTextResult := {
  st_text : option string;
  st_usage : option RawUsage
}.

Class Collaborators := {
  IProviderSetting : Type;
  StreamingOptions : Type;
  (** the own property [system] of streaming options: [None] when they
      have none, [Some None] when it is [undefined] *)
  systemOf : StreamingOptions -> option (option string);
  (** [process.env] *)
  processEnv : gmap string string;
  (** [generateId()] of the ai package, [crypto.randomUUID()] *)
  generateId : Trace -> string;
  randomUUID : Trace -> string;
  (** [JSON.stringify] of a structured content *)
  jsonStringify : list ContentItem -> string;
  (** [createPromptForAgent(role).format({ input })] *)
  formatPrompt : AgentRole -> string -> string;
  (** the [stripIndents] instruction template of the standard enhancer *)
  enhanceInstruction : string -> string;
  (** [llm.invoke(messages)], read through [response.content.toString()] *)
  invokeModel : Trace -> ChatModel -> list BaseMessage -> Outcome string;
  (** [streamText({ messages, env, apiKeys, providerSettings, options })] *)
  streamText :
    Trace -> list Message -> option (gmap string string) -> gmap string string ->
    gmap string IProviderSetting -> string -> option StreamingOptions ->
    Outcome StreamTextResult;
  (** [createFilesContext(files, useRelativePath)] *)
  createFilesContext : FileMap -> bool -> string;
  (** [selectContext({ messages, files, ..., summary })] *)
  selectContext :
    Trace -> list Message -> FileMap -> option (gmap string string) ->
    gmap string string -> gmap string IProviderSetting -> option string ->
    string -> Outcome string
}.

(** ** The agent contract (types.ts of both implementations) *)

(** [AgentContext]. The [dataStream] field is the sink of the trace. *)
Record AgentContext `{Collaborators} := {
  env : option (gmap string string);
  apiKeys : gmap string string;
  providerSettings : gmap string IProviderSetting;
  files : option FileMap;
  promptId : option string;
  contextOptimization : option bool;
  progressCounter : Z
}.

Record AgentResult := {
  output : string;
  usage : option Usage;
  resultProgressCounter : Z
}.

(** [ensureString(value)] on a value whose [typeof] is ['string'], which is
    what [AgentResult.output] holds: the value itself. *)
Definition ensureString (value : string) : string := value.

(** [files && Object.keys(files).length > 0]. *)
Definition hasFiles (files : option FileMap) : option FileMap :=
  match files with
  | Some fs => if decide (fs = ∅) then None else Some fs
  | None => None
  end.

(** [a || rest] where [a] is a string or [undefined]. *)
Definition orElse (a : option string) (rest : string) : string :=
  match a with
  | Some s => Js.or s rest
  | None => rest
  end.

(** [env?.[name]]. *)
Definition envLookup (env : option (gmap string string)) (name : string) : option string :=
  env ≫= (.!! name).

(** ** The standard implementation (app/lib/.server/agents) *)

Module Standard.

(** types.ts *)
Definition createProgressAnnotation
    (label message : string) (status : Status) (order : Z) : ProgressAnnotation :=
  let safeStatus := if decide (status = Error) then Complete else status in
  {| label := label; status := safeStatus; order := order; message := message |}.

(** prompt-enhancer.ts, the file's own helper *)
Definition extractModelInfo (message : Message) : ModelInfo :=
  let content := contentText (content message) in
  let modelMatch := Js.matchModel content in
  let providerMatch := Js.matchProvider content in
  {| model := default "gpt-4" modelMatch;
     providerName := default "openai" providerMatch |}.

Section Agents.
Context `{Collaborators}.

Record AgentOptions := {
  messages : list Message;
  context : AgentContext;
  streamingOptions : option StreamingOptions
}.

(** [String(result.text || '')] once awaited. *)
Definition resolvedText (r : StreamTextResult) : string :=
  orElse (st_text r) EmptyString.

(** The [usage] field of the returned [AgentResult]. *)
Definition resolvedUsage (r : StreamTextResult) : option Usage :=
  match st_usage r with
  | Some u =>
      Some {| completionTokens := rawOrZero (rawCompletionTokens u);
              promptTokens := rawOrZero (rawPromptTokens u);
              totalTokens := rawOrZero (rawTotalTokens u) |}
  | None => None
  end.

Definition enhancerSystem : string :=
  "You are a senior software principal architect, you should help the user analyse the user query and enrich it with the necessary context and constraints to make it more specific, actionable, and effective. You should also ensure that the prompt is self-contained and uses professional language. Your response should ONLY contain the enhanced prompt text. Do not include any explanations, metadata, or wrapper tags.".

Definition generatorSystem : string :=
  "You are a senior software principal architect. Generate high-quality, accurate, and optimized code based on the user's enhanced prompt. Consider the context provided from project files when available. Your primary goal is to produce code that is functional, maintainable, and follows best practices.".

(** The [system] of [{ system: sys, ...streamingOptions }]: the spread
    comes last, so a [system] of the streaming options replaces [sys]. *)
Definition effectiveSystem (sys : string) (so : option StreamingOptions) : option string :=
  match so ≫= systemOf with
  | Some replacement => replacement
  | None => Some sys
  end.

(** [streamText({...})] as a step of the monad. *)
Definition callStreamText
    (msgs : list Message) (ctx : AgentContext) (sys : string)
    (so : option StreamingOptions) : M StreamTextResult :=
  call (StreamText {| st_messages := msgs; st_system := effectiveSystem sys so |})
       (fun t => streamText t msgs (env ctx) (apiKeys ctx) (providerSettings ctx) sys so).

End Agents.

Module PromptEnhancerAgent.
Section Execute.
Context `{Collaborators}.

Definition execute (options : AgentOptions) : M AgentResult :=
  let messages := messages options in
  let context := context options in
  match findLastUser messages with
  | None => throw NoUserMessageToEnhance
  | Some lastUserMessage =>
      let newProgressCounter := progressCounter context + 1 in
      (writeData (Progress (createProgressAnnotation
         "enhance" "Enhancing prompt..." InProgress newProgressCounter)) ;;
       let messageContent := contentText (content lastUserMessage) in
       let modelInfo :=
         match last messages with
         | Some lastMessage => extractModelInfo lastMessage
         | None => {| model := "gpt-4"; providerName := "openai" |}
         end in
       tryCatch
         (result <- callStreamText
            [ {| role := user;
                 content := Plain
                   ("[Model: " +:+ model modelInfo +:+ "]" +:+ Js.LF +:+ Js.LF +:+
                    "[Provider: " +:+ providerName modelInfo +:+ "]" +:+ Js.LF +:+ Js.LF +:+
                    enhanceInstruction messageContent);
                 id := EmptyString |} ]
            context enhancerSystem (streamingOptions options) ;;
          let finalEnhancedText := resolvedText result in
          writeData (Progress (createProgressAnnotation
            "enhance" "Prompt enhanced successfully" Complete newProgressCounter)) ;;
          ret {| output := finalEnhancedText;
                 usage := resolvedUsage result;
                 resultProgressCounter := newProgressCounter |})
         (fun error =>
            writeData (Progress (createProgressAnnotation
              "enhance" "Failed to enhance prompt" Error newProgressCounter)) ;;
            throw error))%pipeline
  end.

End Execute.
End PromptEnhancerAgent.

Module CodeGeneratorAgent.
Section Execute.
Context `{Collaborators}.

(** The [selectedContext] of the run: empty without files, the
    selection when optimisation is on, the full context otherwise. *)
Definition prepareContext (messages : list Message) (context : AgentContext) : M string :=
  match hasFiles (files context) with
  | Some fs =>
      let filesContext := createFilesContext fs true in
      match contextOptimization context with
      | Some true =>
          call (SelectContext messages)
               (fun t => selectContext t messages fs (env context) (apiKeys context)
                           (providerSettings context) (promptId context)
                           "Context for code generation")
      | _ => ret filesContext
      end
  | None => ret EmptyString
  end.

Definition execute (options : AgentOptions) : M AgentResult :=
  let messages := messages options in
  let context := context options in
  let newProgressCounter := progressCounter context + 1 in
  (writeData (Progress (createProgressAnnotation
     "code-gen" "Generating code..." InProgress newProgressCounter)) ;;
   tryCatch
     (selectedContext <- prepareContext messages context ;;
      messagesWithContext <-
        (if Js.truthy selectedContext
         then uuid <- ask randomUUID ;;
              ret (messages ++
                   [ {| role := system;
                        content := Plain ("Context from the project files:" +:+ Js.LF +:+
                                          selectedContext);
                        id := uuid |} ])
         else ret messages) ;;
      result <- callStreamText messagesWithContext context generatorSystem
                  (streamingOptions options) ;;
      let generatedCode := resolvedText result in
      writeData (Progress (createProgressAnnotation
        "code-gen" "Code generated successfully" Complete newProgressCounter)) ;;
      ret {| output := generatedCode;
             usage := resolvedUsage result;
             resultProgressCounter := newProgressCounter |})
     (fun error =>
        writeData (Progress (createProgressAnnotation
          "code-gen" "Failed to generate code" Error newProgressCounter)) ;;
        throw error))%pipeline.

End Execute.
End CodeGeneratorAgent.

End Standard.

(** ** The LangChain implementation (app/lib/.server/langchain-agents) *)

Module LangChain.

(** types.ts *)
Definition extractModelInfo (message : Message) : ModelInfo :=
  let content := contentText (content message) in
  let modelMatch := Js.matchModel content in
  let providerMatch := Js.matchProvider content in
  {| model := default "gpt-4o" modelMatch;
     providerName := default "OpenAI" providerMatch |}.

(** utils.ts *)
Definition createProgressAnnotation
    (label message : string) (status : Status) (order : Z) : ProgressAnnotation :=
  let safeStatus := if decide (status = Error) then Complete else status in
  {| label := label; status := safeStatus; order := order; message := message |}.

Section Utils.
Context `{Collaborators}.

Record AgentOptions := {
  messages : list Message;
  context : AgentContext
}.

(** The interface [LangChainAgent]. *)
Record LangChainAgent := { execute : AgentOptions -> M AgentResult }.

(** [createLangChainModel({ provider, model, apiKey, temperature })]: the
    [switch (provider.toLowerCase())], its default branch last. *)
Definition createLangChainModel
    (provider model : string) (apiKey : Js.Value) (temperature : Q) : ChatModel :=
  let p := Js.toLowerCase provider in
  if String.eqb p "anthropic" then
    {| chatClass := ChatAnthropic; apiKey := apiKey; modelName := model;
       temperature := temperature; baseURL := None |}
  else if String.eqb p "openai" then
    {| chatClass := ChatOpenAI; apiKey := apiKey; modelName := model;
       temperature := temperature; baseURL := None |}
  else if String.eqb p "groq" then
    {| chatClass := ChatOpenAI; apiKey := apiKey; modelName := model;
       temperature := temperature;
       baseURL := Some "https://api.groq.com/openai/v1" |}
  else
    if Js.truthy (orElse (processEnv !! "ANTHROPIC_API_KEY") EmptyString) then
      {| chatClass := ChatAnthropic;
         apiKey := orElse (processEnv !! "ANTHROPIC_API_KEY") EmptyString;
         modelName := "claude-3-sonnet-20240229";
         temperature := temperature; baseURL := None |}
    else
      {| chatClass := ChatOpenAI; apiKey := apiKey;
         modelName := Js.or model "gpt-4o";
         temperature := temperature; baseURL := None |}.

(** [getApiKey(context, provider)]: one [a || b || c || ''] chain per case
    of the [switch (provider.toLowerCase())]. The names read are constants
    that no object inherits, or end in [_API_KEY], except in the default
    case, where [apiKeys?.[provider]] reads [apiKeys] under the provider's
    name and so also finds what [apiKeys] inherits. The declared result is
    a string; the value returned is whatever the chain gives. *)
Definition getApiKey (context : AgentContext) (provider : string) : Js.Value :=
  let apiKeys := apiKeys context in
  let env := env context in
  let p := Js.toLowerCase provider in
  if String.eqb p "anthropic" then
    orElse (apiKeys !! "Anthropic")
      (orElse (envLookup env "ANTHROPIC_API_KEY")
         (orElse (processEnv !! "ANTHROPIC_API_KEY") EmptyString))
  else if String.eqb p "openai" then
    orElse (apiKeys !! "OpenAI")
      (orElse (envLookup env "OPENAI_API_KEY")
         (orElse (processEnv !! "OPENAI_API_KEY") EmptyString))
  else if String.eqb p "groq" then
    orElse (apiKeys !! "Groq")
      (orElse (envLookup env "GROQ_API_KEY")
         (orElse (processEnv !! "GROQ_API_KEY") EmptyString))
  else
    let envKeyName := Js.toUpperCase provider +:+ "_API_KEY" in
    Js.orValue (Js.property apiKeys provider)
      (orElse (envLookup env envKeyName)
         (orElse (processEnv !! envKeyName) EmptyString)).

(** [llm.invoke(messagesToSend)] as a step of the monad. *)
Definition invoke (llm : ChatModel) (messagesToSend : list BaseMessage) : M string :=
  call (Invoke llm messagesToSend) (fun t => invokeModel t llm messagesToSend).

(** [estimatedUsage] of both agents, from the number of characters sent
    and the number received. *)
Definition estimatedUsage (promptLength completionLength : nat) : Usage :=
  {| promptTokens := ceilQuarter promptLength;
     completionTokens := ceilQuarter completionLength;
     totalTokens := ceilQuarter (promptLength + completionLength) |}.

End Utils.

Module PromptEnhancerAgent.
Section Execute.
Context `{Collaborators}.

Definition execute (options : AgentOptions) : M AgentResult :=
  let messages := messages options in
  let context := context options in
  match findLastUser messages with
  | None => throw NoUserMessageToEnhance
  | Some lastUserMessage =>
      let newProgressCounter := progressCounter context + 1 in
      (writeData (Progress (createProgressAnnotation
         "enhance" "Enhancing prompt..." InProgress newProgressCounter)) ;;
       let messageContent := contentText (content lastUserMessage) in
       let modelInfo :=
         match last messages with
         | Some lastMessage => extractModelInfo lastMessage
         | None => {| model := "gpt-4o"; providerName := "OpenAI" |}
         end in
       tryCatch
         (let apiKey := getApiKey context (providerName modelInfo) in
          if negb (Js.truthyValue apiKey) then throw (NoApiKey (providerName modelInfo))
          else
            let llm := createLangChainModel
                         (providerName modelInfo) (model modelInfo) apiKey (2 # 10) in
            let prompt := formatPrompt PROMPT_ENHANCER messageContent in
            response <- invoke llm [HumanMessage prompt] ;;
            let enhancedText := Js.trim response in
            let estimatedUsage :=
              estimatedUsage (String.length prompt) (String.length enhancedText) in
            writeData (Progress (createProgressAnnotation
              "enhance" "Prompt enhanced successfully" Complete newProgressCounter)) ;;
            ret {| output := enhancedText;
                   usage := Some estimatedUsage;
                   resultProgressCounter := newProgressCounter |})
         (fun error =>
            writeData (Progress (createProgressAnnotation
              "enhance" "Failed to enhance prompt" Error newProgressCounter)) ;;
            throw error))%pipeline
  end.

End Execute.
End PromptEnhancerAgent.

Module CodeGeneratorAgent.
Section Execute.
Context `{Collaborators}.

Definition baseSystemMessage : string :=
  "You are a senior software principal architect. Generate high-quality code based on the user's requirements.".

Definition execute (options : AgentOptions) : M AgentResult :=
  let messages := messages options in
  let context := context options in
  let newProgressCounter := progressCounter context + 1 in
  (writeData (Progress (createProgressAnnotation
     "code-gen" "Generating code..." InProgress newProgressCounter)) ;;
   tryCatch
     (match findLastUser messages with
      | None => throw NoUserMessageForCodeGeneration
      | Some lastUserMessage =>
          let messageContent := contentText (content lastUserMessage) in
          let filesContext :=
            match hasFiles (files context) with
            | Some fs => createFilesContext fs true
            | None => EmptyString
            end in
          let modelInfo := extractModelInfo lastUserMessage in
          let apiKey := getApiKey context (providerName modelInfo) in
          if negb (Js.truthyValue apiKey) then throw (NoApiKey (providerName modelInfo))
          else
            let llm := createLangChainModel
                         (providerName modelInfo) (model modelInfo) apiKey 0 in
            let systemMessage :=
              if Js.truthy filesContext
              then baseSystemMessage +:+ Js.LF +:+ Js.LF +:+
                   "Here is the context from the existing files:" +:+ Js.LF +:+ filesContext
              else baseSystemMessage in
            let prompt := formatPrompt CODE_GENERATOR messageContent in
            let messagesToSend := [SystemMessage systemMessage; HumanMessage prompt] in
            response <- invoke llm messagesToSend ;;
            let generatedCode := Js.trim response in
            let estimatedUsage :=
              estimatedUsage (String.length systemMessage + String.length prompt)
                             (String.length generatedCode) in
            writeData (Progress (createProgressAnnotation
              "code-gen" "Code generated successfully" Complete newProgressCounter)) ;;
            ret {| output := generatedCode;
                   usage := Some estimatedUsage;
                   resultProgressCounter := newProgressCounter |}
      end)
     (fun error =>
        writeData (Progress (createProgressAnnotation
          "code-gen" "Failed to generate code" Error newProgressCounter)) ;;
        throw error))%pipeline.

End Execute.
End CodeGeneratorAgent.

(** *** orchestrator.ts *)

Module OrchestratorResult.
Record t := { text : string; usage : Usage }.
End OrchestratorResult.

Module OrchestratorOptions.
Section Options.
Context `{Collaborators}.
Record t := {
    messages : list Message;
    files : option FileMap;
    env : option (gmap string string);
    apiKeys : gmap string string;
    providerSettings : gmap string IProviderSetting;
    promptId : option string;
    contextOptimization : option bool
  }.
End Options.
End OrchestratorOptions.

Section Orchestrator.
Context `{Collaborators}.

(** The [original] field of the prompt-comparison event:
    [lastUserMessage?.content || ''], stringified when it is not a string. *)
Definition originalPromptText (lastUserMessage : option Message) : string :=
  match lastUserMessage with
  | Some msg =>
      match content msg with
      | Plain text => text
      | Parts items => jsonStringify items
      end
  | None => EmptyString
  end.

Definition enhancedUserMessage
    (modelInfo : ModelInfo) (enhancedPrompt newId : string) : Message :=
  {| role := user;
     content := Plain ("[Model: " +:+ model modelInfo +:+ "]" +:+ Js.LF +:+ Js.LF +:+
                       "[Provider: " +:+ providerName modelInfo +:+ "]" +:+ Js.LF +:+ Js.LF +:+
                       enhancedPrompt);
     id := newId |}.

(** [.map((msg, idx) => ({ role: msg.role, idx })).filter(item => item.role === 'user').pop()?.idx] *)
Definition lastUserIndex (messages : list Message) : option nat :=
  snd <$> last (filter (fun item : Role * nat => item.1 = user)
                       (imap (fun idx msg => (role msg, idx)) messages)).

(** [messagesWithEnhancedPrompt] after the replace-or-append step. *)
Definition messagesWithEnhancedPrompt
    (messages : list Message) (enhancedUserMessage : Message) : list Message :=
  match lastUserIndex messages with
  | Some idx => <[idx := enhancedUserMessage]> messages
  | None => messages ++ [enhancedUserMessage]
  end.

Definition combinedUsage (enhancerUsage codeGenUsage : option Usage) : Usage :=
  {| completionTokens :=
       fieldOrZero completionTokens enhancerUsage + fieldOrZero completionTokens codeGenUsage;
     promptTokens :=
       fieldOrZero promptTokens enhancerUsage + fieldOrZero promptTokens codeGenUsage;
     totalTokens :=
       fieldOrZero totalTokens enhancerUsage + fieldOrZero totalTokens codeGenUsage |}.

(** The body of [orchestrateLangChainAgents], over the table [agents]
    it looks its two stages up in. *)
Definition orchestrateWith
    (agents : AgentRole -> LangChainAgent) (options : OrchestratorOptions.t)
    : M OrchestratorResult.t :=
  let messages := OrchestratorOptions.messages options in
  let progressCounter := 0 in
  let agentContext :=
    {| env := OrchestratorOptions.env options;
       apiKeys := OrchestratorOptions.apiKeys options;
       providerSettings := OrchestratorOptions.providerSettings options;
       files := OrchestratorOptions.files options;
       promptId := OrchestratorOptions.promptId options;
       contextOptimization := OrchestratorOptions.contextOptimization options;
       progressCounter := progressCounter |} in
  tryCatch
    (let lastUserMessage := findLastUser messages in
     let originalPrompt := originalPromptText lastUserMessage in
     let modelInfo :=
       match last messages with
       | Some lastMessage => extractModelInfo lastMessage
       | None => {| model := "gpt-4o"; providerName := "OpenAI" |}
       end in
     enhancerResult <- execute (agents PROMPT_ENHANCER)
                         {| messages := messages; context := agentContext |} ;;
     let enhancedPrompt := ensureString (output enhancerResult) in
     writeData (PromptComparison originalPrompt enhancedPrompt) ;;
     let progressCounter := resultProgressCounter enhancerResult in
     newId <- ask generateId ;;
     let enhancedUserMessage := enhancedUserMessage modelInfo enhancedPrompt newId in
     let messagesWithEnhancedPrompt :=
       messagesWithEnhancedPrompt messages enhancedUserMessage in
     let updatedContext :=
       {| env := env agentContext;
          apiKeys := apiKeys agentContext;
          providerSettings := providerSettings agentContext;
          files := files agentContext;
          promptId := promptId agentContext;
          contextOptimization := contextOptimization agentContext;
          progressCounter := progressCounter |} in
     codeGenResult <- execute (agents CODE_GENERATOR)
                        {| messages := messagesWithEnhancedPrompt;
                           context := updatedContext |} ;;
     let generatedCode := ensureString (output codeGenResult) in
     let combinedUsage := combinedUsage (usage enhancerResult) (usage codeGenResult) in
     ret {| OrchestratorResult.text := generatedCode;
            OrchestratorResult.usage := combinedUsage |})%pipeline
    (fun error => throw error).

(** The table [agents] of the module. *)
Definition agents (role : AgentRole) : LangChainAgent :=
  match role with
  | PROMPT_ENHANCER => {| execute := PromptEnhancerAgent.execute |}
  | CODE_GENERATOR => {| execute := CodeGeneratorAgent.execute |}
  end.

Definition orchestrateLangChainAgents (options : OrchestratorOptions.t)
    : M OrchestratorResult.t :=
  orchestrateWith agents options.

End Orchestrator.

End LangChain.

(** ** Sample collaborators and inputs

    Concrete collaborators on which the definitions above are evaluated. *)

Module Samples.

(** Every request to a model succeeds and answers [answer]. *)
Definition answering (answer : string) (env : gmap string string) : Collaborators :=
  {| IProviderSetting := unit;
     StreamingOptions := unit;
     systemOf := fun _ => None;
     processEnv := env;
     generateId := fun _ => "msg-1";
     randomUUID := fun _ => "uuid-1";
     jsonStringify := fun _ => "[]";
     formatPrompt := fun _ input => "Prompt: " +:+ input;
     enhanceInstruction := fun input => "Enhance: " +:+ input;
     invokeModel := fun _ _ _ => Fulfilled answer;
     streamText := fun _ _ _ _ _ _ _ =>
       Fulfilled {| st_text := Some answer; st_usage := None |};
     createFilesContext := fun _ _ => EmptyString;
     selectContext := fun _ _ _ _ _ _ _ _ => Fulfilled EmptyString |}.

(** Every request to a model fails. *)
Definition failing (env : gmap string string) : Collaborators :=
  {| IProviderSetting := unit;
     StreamingOptions := unit;
     systemOf := fun _ => None;
     processEnv := env;
     generateId := fun _ => "msg-1";
     randomUUID := fun _ => "uuid-1";
     jsonStringify := fun _ => "[]";
     formatPrompt := fun _ input => "Prompt: " +:+ input;
     enhanceInstruction := fun input => "Enhance: " +:+ input;
     invokeModel := fun _ _ _ => Rejected "network down";
     streamText := fun _ _ _ _ _ _ _ => Rejected "network down";
     createFilesContext := fun _ _ => EmptyString;
     selectContext := fun _ _ _ _ _ _ _ _ => Rejected "network down" |}.

Definition systemMsg : Message :=
  {| role := system; content := Plain "You are helpful"; id := "m0" |}.

Definition userMsg : Message :=
  {| role := user;
     content := Plain "[Model: gpt-4][Provider: openai] write a fibonacci function";
     id := "m1" |}.

Definition history : list Message := [systemMsg; userMsg].

Definition openAiKeys : gmap string string := {[ "OpenAI" := "sk-test" ]}.

Definition contextWith `{Collaborators}
    (keys : gmap string string) (counter : Z) : AgentContext :=
  {| env := None; apiKeys := keys; providerSettings := ∅; files := None;
     promptId := None; contextOptimization := None; progressCounter := counter |}.

Definition optionsWith `{Collaborators}
    (msgs : list Message) (keys : gmap string string) : LangChain.OrchestratorOptions.t :=
  {| LangChain.OrchestratorOptions.messages := msgs;
     LangChain.OrchestratorOptions.files := None;
     LangChain.OrchestratorOptions.env := None;
     LangChain.OrchestratorOptions.apiKeys := keys;
     LangChain.OrchestratorOptions.providerSettings := ∅;
     LangChain.OrchestratorOptions.promptId := None;
     LangChain.OrchestratorOptions.contextOptimization := None |}.

(** A request that goes through: the model answers, the key is there. *)
Definition world : Collaborators := answering "  def fib(n): pass  " ∅.

Definition options : @LangChain.OrchestratorOptions.t world :=
  @optionsWith world history openAiKeys.

Definition noResult : AgentResult :=
  {| output := EmptyString; usage := None; resultProgressCounter := 0 |}.

Definition enhancerOptions : @LangChain.AgentOptions world :=
  {| LangChain.messages := history;
     LangChain.context := @contextWith world openAiKeys 0 |}.

(** The enhancer stage of that request, evaluated. *)
Definition enhancerResult : AgentResult :=
  Eval vm_compute in
    match (@LangChain.PromptEnhancerAgent.execute world enhancerOptions []).1 with
    | Ok r => r
    | Thrown _ => noResult
    end.

Definition enhancerTrace : Trace :=
  Eval vm_compute in
    (@LangChain.PromptEnhancerAgent.execute world enhancerOptions []).2.



(** The whole request, evaluated. *)
Definition orchestratorResult : LangChain.OrchestratorResult.t :=
  Eval vm_compute in
    match (@LangChain.orchestrateLangChainAgents world options []).1 with
    | Ok r => r
    | Thrown _ =>
        {| LangChain.OrchestratorResult.text := EmptyString;
           LangChain.OrchestratorResult.usage :=
             {| completionTokens := 0; promptTokens := 0; totalTokens := 0 |} |}
    end.

Definition orchestratorTrace : Trace :=
  Eval vm_compute in (@LangChain.orchestrateLangChainAgents world options []).2.

(** A request whose model calls are rejected. *)
Definition broken : Collaborators := failing ∅.

Definition brokenOptions : @LangChain.AgentOptions broken :=
  {| LangChain.messages := history;
     LangChain.context := @contextWith broken openAiKeys 0 |}.

(** A history without a user message, and a context without keys. *)
Definition silentOptions : @LangChain.AgentOptions world :=
  {| LangChain.messages := [systemMsg];
     LangChain.context := @contextWith world openAiKeys 0 |}.

Definition brokenTrace : Trace :=
  Eval vm_compute in
    (@LangChain.PromptEnhancerAgent.execute broken brokenOptions []).2.

(** A process environment with an Anthropic key. *)
Definition anthropicWorld : Collaborators :=
  answering "ok" {[ "ANTHROPIC_API_KEY" := "sk-ant" ]}.

Definition keylessOptions : @LangChain.AgentOptions world :=
  {| LangChain.messages := history;
     LangChain.context := @contextWith world ∅ 0 |}.

Definition standardOptions : @Standard.AgentOptions world :=
  {| Standard.messages := history;
     Standard.context := @contextWith world openAiKeys 0;
     Standard.streamingOptions := None |}.

Definition standardSilentOptions : @Standard.AgentOptions world :=
  {| Standard.messages := [systemMsg];
     Standard.context := @contextWith world openAiKeys 0;
     Standard.streamingOptions := None |}.

End Samples.

(** ** The specification's vocabulary

    Definitions that follow the words of the specification; the theorems
    below compare them with the code. *)

Module Spec.

(** "the provider's display name" *)
Definition displayName (provider : string) : string :=
  let p := Js.toLowerCase provider in
  if String.eqb p "anthropic" then "Anthropic"
  else if String.eqb p "openai" then "OpenAI"
  else if String.eqb p "groq" then "Groq"
  else provider.

(** "<PROVIDER>_API_KEY" *)
Definition envKeyName (provider : string) : string :=
  Js.toUpperCase provider +:+ "_API_KEY".

(** "the first non-empty value found by checking, in order"; the empty
    string when there is none. *)
Fixpoint firstNonEmpty (candidates : list (option string)) : string :=
  match candidates with
  | [] => EmptyString
  | Some (String c s) :: _ => String c s
  | _ :: rest => firstNonEmpty rest
  end.

(** The three sources of a key, in the order of the specification. *)
Definition keySources `{Collaborators} (context : AgentContext) (provider : string)
    : list (option string) :=
  [ apiKeys context !! displayName provider;
    env context ≫= (.!! envKeyName provider);
    processEnv !! envKeyName provider ].

(** "recognized providers (anthropic, openai, groq, case-insensitive)" *)
Definition recognized (provider : string) : Prop :=
  Js.toLowerCase provider = "anthropic" ∨
  Js.toLowerCase provider = "openai" ∨
  Js.toLowerCase provider = "groq".

(** "an absent stage usage treated as all-zero" *)
Definition usageOrZero (u : option Usage) : Usage :=
  default {| completionTokens := 0; promptTokens := 0; totalTokens := 0 |} u.

(** "the field-wise sum" *)
Definition addUsage (a b : Usage) : Usage :=
  {| completionTokens := completionTokens a + completionTokens b;
     promptTokens := promptTokens a + promptTokens b;
     totalTokens := totalTokens a + totalTokens b |}.

(** "at least one message with role 'user'" *)
Definition hasUserMessage (messages : list Message) : Prop :=
  ∃ m, m ∈ messages ∧ role m = user.

(** "the position of the last user message" *)
Definition lastUserAt (messages : list Message) (i : nat) : Prop :=
  (∃ m, messages !! i = Some m ∧ role m = user) ∧
  ∀ j m, (i < j)%nat → messages !! j = Some m → role m ≠ user.

(** "the original sequence with exactly one change": [newMessage] stands
    at the position of the last user message of [messages], the length
    and every other position are those of [messages]; without a user
    message it is appended. *)
Definition replacesLastUser
    (messages messages' : list Message) (newMessage : Message) : Prop :=
  (hasUserMessage messages →
     ∃ i, lastUserAt messages i ∧
          length messages' = length messages ∧
          messages' !! i = Some newMessage ∧
          ∀ j, j ≠ i → messages' !! j = messages !! j) ∧
  (¬ hasUserMessage messages → messages' = messages ++ [newMessage]).

(** "strictly increasing" and "contiguous (each successive event's order
    is the previous order plus one)" *)
Definition strictlyIncreasing (orders : list Z) : Prop :=
  ∀ i a b, orders !! i = Some a → orders !! S i = Some b → a < b.

Definition contiguous (orders : list Z) : Prop :=
  ∀ i a b, orders !! i = Some a → orders !! S i = Some b → b = a + 1.

Definition nonDecreasing (orders : list Z) : Prop :=
  ∀ i a b, orders !! i = Some a → orders !! S i = Some b → a <= b.

(** What one stage labelled [lbl], started with progress counter [c],
    leaves on the sink between trace [t] and trace [t']: a first
    annotation with status 'in-progress' and a last one with the status
    [final], both with label [lbl] and order [c + 1], and no other write
    in between; a result, if there is one, carries [c + 1]. *)
Definition stageRun (lbl : string) (final : Status) (c : Z)
    (t : Trace) (res : Result AgentResult) (t' : Trace) : Prop :=
  ∃ startMessage endMessage mid,
    t' = t ++
         [WriteData (Progress {| label := lbl; status := InProgress;
                                 order := c + 1; message := startMessage |})] ++
         mid ++
         [WriteData (Progress {| label := lbl; status := final;
                                 order := c + 1; message := endMessage |})] ∧
    written mid = [] ∧
    (∀ r, res = Ok r → resultProgressCounter r = c + 1).

(** "Resolves ModelInfo from the last message in the whole history" *)
Definition newestModelInfo (messages : list Message) : ModelInfo :=
  match last messages with
  | Some lastMessage => LangChain.extractModelInfo lastMessage
  | None => {| model := "gpt-4o"; providerName := "OpenAI" |}
  end.

(** The final status the agent contract announces for a result:
    "complete" (success) or "error" (failure). *)
Definition announcedStatus (res : Result AgentResult) : Status :=
  match res with
  | Ok _ => Complete
  | Thrown _ => Error
  end.

(** The shared context of a request, at progress counter [counter]. *)
Definition stageContext `{Collaborators}
    (options : LangChain.OrchestratorOptions.t) (counter : Z) : AgentContext :=
  {| env := LangChain.OrchestratorOptions.env options;
     apiKeys := LangChain.OrchestratorOptions.apiKeys options;
     providerSettings := LangChain.OrchestratorOptions.providerSettings options;
     files := LangChain.OrchestratorOptions.files options;
     promptId := LangChain.OrchestratorOptions.promptId options;
     contextOptimization := LangChain.OrchestratorOptions.contextOptimization options;
     progressCounter := counter |}.

(** How the orchestration ends, given how its generator stage ended:
    the stage's error, or the stage's output with the summed usage. *)
Definition afterGenerator (enhancerResult : AgentResult)
    (outcome : Result AgentResult * Trace)
    : Result LangChain.OrchestratorResult.t * Trace :=
  match outcome with
  | (Ok codeGenResult, t) =>
      (Ok {| LangChain.OrchestratorResult.text := output codeGenResult;
             LangChain.OrchestratorResult.usage :=
               LangChain.combinedUsage (usage enhancerResult) (usage codeGenResult) |},
       t)
  | (Thrown e, t) => (Thrown e, t)
  end.

(** "[Model: M]" and "[Provider: P]" embedded in front of a text, the
    way the orchestrator lays them out. *)
Definition tagged (M P text : string) : string :=
  "[Model: " +:+ M +:+ "]" +:+ Js.LF +:+ Js.LF +:+
  "[Provider: " +:+ P +:+ "]" +:+ Js.LF +:+ Js.LF +:+ text.

(** "[c] is the ceiling of [n / 4]" *)
Definition isCeilingOfQuarter (n : nat) (c : Z) : Prop :=
  4 * (c - 1) < Z.of_nat n <= 4 * c.

(** A text free of the characters a tag cannot carry: the closing
    bracket and the line terminators (LF, CR, U+2028, U+2029). *)
Fixpoint tagSafe (s : string) : bool :=
  match s with
  | EmptyString => true
  | String c r => negb (Js.isCloseBracket c) && negb (Js.lineTerminatorAt c r) && tagSafe r
  end.

(** [occursIn p s]: the literal [p] occurs somewhere in [s]. *)
Fixpoint occursIn (p s : string) : bool :=
  match Js.stripPrefix p s with
  | Some _ => true
  | None =>
      match s with
      | EmptyString => false
      | String _ r => occursIn p r
      end
  end.

End Spec.

(** ** The stages, piece by piece

    Names for the annotations, the model client and the prompt of each
    LangChain stage, as the code builds them; the run lemmas below prove
    that an execution consists of exactly these pieces. *)

Module Anatomy.
Section Pieces.
Context `{Collaborators}.

Definition enhancerStart (c : Z) : Effect :=
  WriteData (Progress (LangChain.createProgressAnnotation
    "enhance" "Enhancing prompt..." InProgress (c + 1))).

Definition enhancerDone (c : Z) : Effect :=
  WriteData (Progress (LangChain.createProgressAnnotation
    "enhance" "Prompt enhanced successfully" Complete (c + 1))).

Definition enhancerFailed (c : Z) : Effect :=
  WriteData (Progress (LangChain.createProgressAnnotation
    "enhance" "Failed to enhance prompt" Error (c + 1))).

Definition generatorStart (c : Z) : Effect :=
  WriteData (Progress (LangChain.createProgressAnnotation
    "code-gen" "Generating code..." InProgress (c + 1))).

Definition generatorDone (c : Z) : Effect :=
  WriteData (Progress (LangChain.createProgressAnnotation
    "code-gen" "Code generated successfully" Complete (c + 1))).

Definition generatorFailed (c : Z) : Effect :=
  WriteData (Progress (LangChain.createProgressAnnotation
    "code-gen" "Failed to generate code" Error (c + 1))).

(** The client of a stage that resolved [modelInfo], at [temperature]. *)
Definition stageModel (context : AgentContext) (modelInfo : ModelInfo)
    (temperature : Q) : ChatModel :=
  LangChain.createLangChainModel (providerName modelInfo) (model modelInfo)
    (LangChain.getApiKey context (providerName modelInfo)) temperature.

(** What the enhancer sends for the user message [m]. *)
Definition enhancerCall (messages : list Message) (context : AgentContext)
    (m : Message) : Effect :=
  Invoke (stageModel context (Spec.newestModelInfo messages) (2 # 10))
         [HumanMessage (formatPrompt PROMPT_ENHANCER (contentText (content m)))].

(** The generator's system message, with the files context when there is one. *)
Definition generatorSystemMessage (context : AgentContext) : string :=
  let filesContext :=
    match hasFiles (files context) with
    | Some fs => createFilesContext fs true
    | None => EmptyString
    end in
  if Js.truthy filesContext
  then LangChain.CodeGeneratorAgent.baseSystemMessage +:+ Js.LF +:+ Js.LF +:+
       "Here is the context from the existing files:" +:+ Js.LF +:+ filesContext
  else LangChain.CodeGeneratorAgent.baseSystemMessage.

(** What the generator sends for the user message [m]. *)
Definition generatorCall (context : AgentContext) (m : Message) : Effect :=
  Invoke (stageModel context (LangChain.extractModelInfo m) 0)
         [SystemMessage (generatorSystemMessage context);
          HumanMessage (formatPrompt CODE_GENERATOR (contentText (content m)))].

(** The [type] of a data event, or the label of a progress annotation. *)
Definition eventKind (d : DataEvent) : string :=
  match d with
  | Progress a => label a
  | PromptComparison _ _ => "prompt-comparison"
  end.

(** The ways the generator stage of a request can go, after trace [t2]. *)
Inductive GeneratorRun (options : LangChain.OrchestratorOptions.t)
    (newMessage : Message) (enhancerUsage : Usage) (t2 : Trace)
    : Result LangChain.OrchestratorResult.t * Trace → Prop :=
| GeneratorWithoutKey :
    LangChain.getApiKey (Spec.stageContext options 1)
      (providerName (LangChain.extractModelInfo newMessage)) = EmptyString →
    GeneratorRun options newMessage enhancerUsage t2
      (Thrown (NoApiKey (providerName (LangChain.extractModelInfo newMessage))),
       t2 ++ [generatorStart 1; generatorFailed 1])
| GeneratorRejected reason :
    LangChain.getApiKey (Spec.stageContext options 1)
      (providerName (LangChain.extractModelInfo newMessage)) ≠ EmptyString →
    GeneratorRun options newMessage enhancerUsage t2
      (Thrown (External reason),
       t2 ++ [generatorStart 1; generatorCall (Spec.stageContext options 1) newMessage;
              generatorFailed 1])
| GeneratorAnswered answer :
    let generatorUsage :=
      LangChain.estimatedUsage
        (String.length (generatorSystemMessage (Spec.stageContext options 1))
         + String.length (formatPrompt CODE_GENERATOR (contentText (content newMessage))))
        (String.length (Js.trim answer)) in
    LangChain.getApiKey (Spec.stageContext options 1)
      (providerName (LangChain.extractModelInfo newMessage)) ≠ EmptyString →
    GeneratorRun options newMessage enhancerUsage t2
      (Ok {| LangChain.OrchestratorResult.text := Js.trim answer;
             LangChain.OrchestratorResult.usage :=
               Spec.addUsage enhancerUsage generatorUsage |},
       t2 ++ [generatorStart 1; generatorCall (Spec.stageContext options 1) newMessage;
              generatorDone 1]).

(** The ways a request can go, with the trace each one leaves after [t].
    [orchestration_run] below proves that every run of
    [orchestrateLangChainAgents] is one of them. *)
Inductive OrchestrationRun (options : LangChain.OrchestratorOptions.t) (t : Trace)
    : Result LangChain.OrchestratorResult.t * Trace → Prop :=
| RunWithoutUser :
    findLastUser (LangChain.OrchestratorOptions.messages options) = None →
    OrchestrationRun options t (Thrown NoUserMessageToEnhance, t)
| RunEnhancerWithoutKey m :
    let messages := LangChain.OrchestratorOptions.messages options in
    let modelInfo := Spec.newestModelInfo messages in
    findLastUser messages = Some m →
    LangChain.getApiKey (Spec.stageContext options 0) (providerName modelInfo)
      = EmptyString →
    OrchestrationRun options t
      (Thrown (NoApiKey (providerName modelInfo)),
       t ++ [enhancerStart 0; enhancerFailed 0])
| RunEnhancerRejected m reason :
    let messages := LangChain.OrchestratorOptions.messages options in
    let modelInfo := Spec.newestModelInfo messages in
    findLastUser messages = Some m →
    LangChain.getApiKey (Spec.stageContext options 0) (providerName modelInfo)
      ≠ EmptyString →
    OrchestrationRun options t
      (Thrown (External reason),
       t ++ [enhancerStart 0; enhancerCall messages (Spec.stageContext options 0) m;
             enhancerFailed 0])
| RunGenerator m answer newId outcome :
    let messages := LangChain.OrchestratorOptions.messages options in
    let modelInfo := Spec.newestModelInfo messages in
    let enhanced := Js.trim answer in
    let newMessage := LangChain.enhancedUserMessage modelInfo enhanced newId in
    let enhancerUsage :=
      LangChain.estimatedUsage
        (String.length (formatPrompt PROMPT_ENHANCER (contentText (content m))))
        (String.length enhanced) in
    let t2 :=
      t ++ [enhancerStart 0; enhancerCall messages (Spec.stageContext options 0) m;
            enhancerDone 0;
            WriteData (PromptComparison (LangChain.originalPromptText (Some m)) enhanced)] in
    findLastUser messages = Some m →
    LangChain.getApiKey (Spec.stageContext options 0) (providerName modelInfo)
      ≠ EmptyString →
    GeneratorRun options newMessage enhancerUsage t2 outcome →
    OrchestrationRun options t outcome.

End Pieces.
End Anatomy.

(** ** lib/.server/llm/utils.ts *)

Module LlmUtils.

(** *** ensureString

    The values the function tells apart. A thenable resolves to a value or
    rejects. For an object the model records what [JSON.stringify] does with
    it (its text, [undefined], or an exception) and its own keys; for the
    other primitives (numbers, booleans, symbols, functions, bigints) what
    [String(value)] does. *)
Inductive JsValue :=
| JsString (s : string)
| JsUndefined
| JsNull
| JsResolving (resolvedValue : JsValue)
| JsRejecting
| JsPlainObject (stringified : Outcome (option string)) (keys : list string)
| JsOtherObject (stringified : Outcome (option string))
| JsPrimitive (shown : Outcome string).

(** [keys.join(', ')] *)
Fixpoint joinWith (sep : string) (parts : list string) : string :=
  match parts with
  | [] => EmptyString
  | [p] => p
  | p :: rest => p +:+ sep +:+ joinWith sep rest
  end.

(** [ensureString(value)]; [None] is a returned [undefined]. *)
Fixpoint ensureString (value : JsValue) : option string :=
  match value with
  | JsResolving resolvedValue => ensureString resolvedValue
  | JsRejecting => Some "[Error resolving promise]"
  | JsString s => Some s
  | JsPlainObject stringified keys =>
      match stringified with
      | Fulfilled text => text
      | Rejected _ => Some ("[Complex object: " +:+ joinWith ", " keys +:+ "]")
      end
  | JsOtherObject stringified =>
      match stringified with
      | Fulfilled text => text
      | Rejected _ => Some "[Object conversion error]"
      end
  | JsNull | JsUndefined => Some EmptyString
  | JsPrimitive shown =>
      match shown with
      | Fulfilled text => Some text
      | Rejected _ => Some "[ensureString error]"
      end
  end.

(** [layers n v]: [v] behind [n] thenables that each resolve. *)
Fixpoint layers (n : nat) (v : JsValue) : JsValue :=
  match n with
  | O => v
  | S k => JsResolving (layers k v)
  end.

(** A value in which no object occurs. *)
Fixpoint objectFree (v : JsValue) : Prop :=
  match v with
  | JsResolving w => objectFree w
  | JsPlainObject _ _ | JsOtherObject _ => False
  | _ => True
  end.

(** *** testLLMApiConnection *)

(** [getRequiredApiKey(provider)]; [None] is [null]. *)
Definition getRequiredApiKey (provider : string) : option string :=
  let p := Js.toLowerCase provider in
  if String.eqb p "openai" then Some "OPENAI_API_KEY"
  else if String.eqb p "anthropic" then Some "ANTHROPIC_API_KEY"
  else if String.eqb p "groq" then Some "GROQ_API_KEY"
  else if String.eqb p "huggingface" then Some "HuggingFace_API_KEY"
  else if String.eqb p "mistral" then Some "MISTRAL_API_KEY"
  else if String.eqb p "openrouter" then Some "OPEN_ROUTER_API_KEY"
  else if String.eqb p "google" then Some "GOOGLE_GENERATIVE_AI_API_KEY"
  else if String.eqb p "cohere" then Some "COHERE_API_KEY"
  else if String.eqb p "ollama" then None
  else None.

Record ConnectionReport := {
  success : bool;
  reportProvider : string;
  reportModel : string;
  reportError : option string;
  latency : option Z;
  reportMessage : option string
}.

(** [model || fallback] for an optional string. *)
Definition modelOr (model : option string) (fallback : string) : string :=
  orElse model fallback.

(** [testLLMApiConnection({ env, apiKeys, provider, model })]. The clock is
    read at [startTime] on entry and at [now] before the report is built.
    The function never reads [env]. *)
Definition testLLMApiConnection
    (startTime now : Z) (env : option (gmap string string))
    (apiKeys : gmap string string) (provider : string) (model : option string)
    : ConnectionReport :=
  let missing :=
    match getRequiredApiKey provider with
    | Some requiredKey =>
        match apiKeys !! requiredKey with
        | Some k => negb (Js.truthy k) || (String.length k <? 10)%nat
        | None => true
        end
    | None => false
    end in
  if missing then
    {| success := false; reportProvider := provider;
       reportModel := modelOr model "unknown";
       reportError := Some ("Missing or invalid API key for " +:+ provider);
       latency := None; reportMessage := None |}
  else
    let latency := now - startTime in
    {| success := true; reportProvider := provider;
       reportModel := modelOr model "default";
       reportError := None;
       latency := Some latency;
       reportMessage := Some ("Connection successful in " +:+ pretty latency +:+ "ms") |}.

(** *** extractCurrentContext *)

(** A message annotation: a JSON value that is not an object, or an object
    with its [type] (when it has one that is a string) and the rest of it. *)
Inductive Annotation :=
| NotAnObject (json : string)
| AnObject (type : option string) (rest : string).

(** A chat message with its [annotations]. *)
Record AnnotatedMessage := {
  message : Message;
  annotations : option (list Annotation)
}.

Record CurrentContext := {
  summary : option Annotation;
  codeContext : option Annotation
}.

Definition noContext : CurrentContext := {| summary := None; codeContext := None |}.

(** The [for] loop over the annotations, with its [continue]s and [break]s. *)
Fixpoint scanAnnotations (annotations : list Annotation) : CurrentContext :=
  match annotations with
  | [] => noContext
  | annotation :: rest =>
      match annotation with
      | NotAnObject _ => scanAnnotations rest
      | AnObject None _ => scanAnnotations rest
      | AnObject (Some type) _ =>
          if negb (Js.truthy type) then scanAnnotations rest
          else if String.eqb type "codeContext"
          then {| summary := None; codeContext := Some annotation |}
          else if String.eqb type "chatSummary"
          then {| summary := Some annotation; codeContext := None |}
          else scanAnnotations rest
      end
  end.

(** [messages.filter((x) => x.role == 'assistant').slice(-1)[0]] *)
Definition lastAssistantMessage (messages : list AnnotatedMessage)
    : option AnnotatedMessage :=
  last (filter (fun x => role (message x) = assistant) messages).

Definition extractCurrentContext (messages : list AnnotatedMessage) : CurrentContext :=
  match lastAssistantMessage messages with
  | None => noContext
  | Some lastAssistant =>
      match annotations lastAssistant with
      | None | Some [] => noContext
      | Some annotations => scanAnnotations annotations
      end
  end.

(** The [type] of an annotation, when it is an object that has one. *)
Definition annotationType (a : Annotation) : option string :=
  match a with
  | NotAnObject _ => None
  | AnObject type _ => type
  end.

(** An annotation the loop stops at. *)
Definition isContextAnnotation (a : Annotation) : Prop :=
  annotationType a = Some "codeContext" ∨ annotationType a = Some "chatSummary".

End LlmUtils.

(** ** lib/.server/agents/config.ts and factory.ts *)

Module Factory.

Inductive AgentImplementation := STANDARD | LANGCHAIN.

Record AgentConfig := {
  implementation : AgentImplementation;
  useContextOptimization : bool
}.

Definition defaultConfig : AgentConfig :=
  {| implementation := LANGCHAIN; useContextOptimization := true |}.

(** [getAgentConfig()] *)
Definition getAgentConfig : AgentConfig := defaultConfig.

Section Execute.
Context `{Collaborators}.

(** [executeAgents(options, implementation)]; [orchestrateAgents] is the
    standard orchestrator, which is not part of the sources at hand. *)
Definition executeAgents
    (orchestrateAgents : LangChain.OrchestratorOptions.t → M LangChain.OrchestratorResult.t)
    (options : LangChain.OrchestratorOptions.t)
    (implementation : AgentImplementation) : M LangChain.OrchestratorResult.t :=
  tryCatch
    (match implementation with
     | LANGCHAIN => LangChain.orchestrateLangChainAgents options
     | STANDARD => orchestrateAgents options
     end)
    (fun error => throw error).

End Execute.
End Factory.

(** ** routes/api.chat.ts *)

Module ChatRoute.

(** *** parseCookies *)

(** [s.split(sep)] for a separator of one character. *)
Fixpoint splitOn (sep : ascii) (s : string) : list string :=
  match s with
  | EmptyString => [EmptyString]
  | String c r =>
      if Ascii.eqb c sep then EmptyString :: splitOn sep r
      else match splitOn sep r with
           | head :: tail => String c head :: tail
           | [] => [String c EmptyString]
           end
  end.

(** [object[name] = value] on a plain object, for a string [value]: the
    own property is set, except under the name [__proto__], where the
    inherited setter takes the assignment and ignores a string. *)
Definition assign (name value : string) (object : gmap string string)
    : gmap string string :=
  if String.eqb name "__proto__" then object else <[name := value]> object.

(** One round of the [forEach]: [const [name, ...rest] = item.split('=')]. *)
Definition addCookie (decodeURIComponent : string → option string)
    (cookies : gmap string string) (item : string) : option (gmap string string) :=
  match splitOn "=" item with
  | name :: rest =>
      if Js.truthy name then
        decodedName ← decodeURIComponent (Js.trim name);
        decodedValue ← decodeURIComponent (Js.trim (LlmUtils.joinWith "=" rest));
        Some (assign decodedName decodedValue cookies)
      else Some cookies
  | [] => Some cookies
  end.

(** [parseCookies(cookieHeader)]. [decodeURIComponent] answers [None] where
    the real one throws a URIError, and then so does [parseCookies]. *)
Definition parseCookies (decodeURIComponent : string → option string)
    (cookieHeader : string) : option (gmap string string) :=
  let items := Js.trim <$> splitOn ";" cookieHeader in
  foldl (fun cookies item => cookies ≫= fun c => addCookie decodeURIComponent c item)
        (Some ∅) items.

(** How a client lays pairs out in a Cookie header: [name=value], joined
    by a semicolon and a space. *)
Definition cookiePair (p : string * string) : string := p.1 +:+ "=" +:+ p.2.

Definition cookieHeaderOf (pairs : list (string * string)) : string :=
  LlmUtils.joinWith "; " (cookiePair <$> pairs).

(** [!s.includes(c)] for a character [c]. *)
Fixpoint without (c : ascii) (s : string) : bool :=
  match s with
  | EmptyString => true
  | String d r => negb (Ascii.eqb d c) && without c r
  end.

(** No white space: none of the ASCII white space, and no code unit above
    127, where the other white space of [trim] lives. *)
Fixpoint noWhiteSpace (s : string) : bool :=
  match s with
  | EmptyString => true
  | String d r =>
      negb (Js.isWhiteSpace d) && (nat_of_ascii d <? 128)%nat && noWhiteSpace r
  end.

(** A cookie value: no semicolon and no white space. *)
Definition cookieText (s : string) : bool := without ";" s && noWhiteSpace s.

(** A cookie name: a non-empty cookie text without an equals sign. *)
Definition cookieName (s : string) : bool :=
  Js.truthy s && cookieText s && without "=" s.

(** *** The stream of a chat request *)

(** What [dataStream.writeMessageAnnotation] receives. *)
Inductive MessageAnnotation :=
| ChatSummaryAnnotation (summary : string) (chatId : option string)
| CodeContextAnnotation (files : list string)
| UsageAnnotation (value : Usage).

(** Everything observable the stream's [execute] does: what the agents do
    ([Base]), the route's own writes, and its two requests. *)
Inductive StreamEffect :=
| Base (e : Effect)
| Write (chunk : string)
| WriteMessageAnnotation (annotation : MessageAnnotation)
| CreateSummary (messages : list Message)
| SelectFiles (messages : list Message) (summary : string).

(** What a request with an [onFinish] callback does: the [usage] of each
    response it hands to the callback, then how it settles. *)
Record Finishing (A : Type) := {
  finishes : list (option RawUsage);
  settles : Outcome A
}.
Arguments finishes {A} _.
Arguments settles {A} _.

Class ChatCollaborators `{Collaborators} := {
  (** [getFilePaths(files)] of select-context *)
  getFilePaths : FileMap → list string;
  (** [createSummary({ messages, env, apiKeys, providerSettings, promptId,
      contextOptimization, onFinish })] *)
  createSummary :
    list StreamEffect → list Message → option (gmap string string) →
    gmap string string → gmap string IProviderSetting → option string → bool →
    Finishing string;
  (** [selectContext({ messages, env, apiKeys, files, providerSettings,
      promptId, contextOptimization, summary, onFinish })], read here as the
      file map the route expects of it *)
  selectContextFiles :
    list StreamEffect → list Message → option (gmap string string) →
    gmap string string → option FileMap → gmap string IProviderSetting →
    option string → bool → string → Finishing (option FileMap);
  (** the standard orchestrator *)
  orchestrateAgents : LangChain.OrchestratorOptions.t → M LangChain.OrchestratorResult.t;
  (** [WORK_DIR] of utils/constants *)
  WORK_DIR : string
}.

Section Chat.
Context `{ChatCollaborators}.

(** The request, once its body and cookies are parsed. *)
Record ChatRequest := {
  messages : list Message;
  files : option FileMap;
  promptId : option string;
  contextOptimization : bool;
  apiKeys : gmap string string;
  providerSettings : gmap string IProviderSetting;
  cloudflareEnv : option (gmap string string)
}.

(** The sink together with the two variables the callbacks share:
    [progressCounter] and [cumulativeUsage]. *)
Record ChatState := {
  events : list StreamEffect;
  counter : Z;
  cumulativeUsage : Usage
}.

Definition initialState : ChatState :=
  {| events := []; counter := 1;
     cumulativeUsage := {| completionTokens := 0; promptTokens := 0; totalTokens := 0 |} |}.

Definition C (A : Type) : Type := ChatState → Result A * ChatState.

Definition cret {A} (a : A) : C A := fun s => (Ok a, s).

Definition cthrow {A} (e : Failure) : C A := fun s => (Thrown e, s).

Definition cbind {A B} (m : C A) (k : A → C B) : C B :=
  fun s =>
    match m s with
    | (Ok a, s') => k a s'
    | (Thrown e, s') => (Thrown e, s')
    end.

Definition ctry {A} (body : C A) (handler : Failure → C A) : C A :=
  fun s =>
    match body s with
    | (Ok a, s') => (Ok a, s')
    | (Thrown e, s') => handler e s'
    end.

Definition emit (e : StreamEffect) : C unit :=
  fun s => (Ok tt, {| events := events s ++ [e]; counter := counter s;
                      cumulativeUsage := cumulativeUsage s |}).

(** [dataStream.writeData({ type: 'progress', label, status,
    order: progressCounter++, message })] *)
Definition writeProgress (label : string) (status : Status) (message : string) : C unit :=
  fun s =>
    (Ok tt,
     {| events := events s ++
                  [Base (WriteData (Progress {| label := label; status := status;
                                                order := counter s; message := message |}))];
        counter := counter s + 1;
        cumulativeUsage := cumulativeUsage s |}).

(** [cumulativeUsage.x += usage.x] for the three counts. *)
Definition addToUsage (u : Usage) : C unit :=
  fun s => (Ok tt, {| events := events s; counter := counter s;
                      cumulativeUsage :=
                        {| completionTokens :=
                             completionTokens (cumulativeUsage s) + completionTokens u;
                           promptTokens :=
                             promptTokens (cumulativeUsage s) + promptTokens u;
                           totalTokens :=
                             totalTokens (cumulativeUsage s) + totalTokens u |} |}).

(** [if (resp.usage) { cumulativeUsage.x += resp.usage.x || 0; ... }] *)
Definition addResponseUsage (usage : option RawUsage) : C unit :=
  match usage with
  | Some u =>
      addToUsage {| completionTokens := rawOrZero (rawCompletionTokens u);
                    promptTokens := rawOrZero (rawPromptTokens u);
                    totalTokens := rawOrZero (rawTotalTokens u) |}
  | None => cret tt
  end.

(** The calls of a callback, one after the other. *)
Fixpoint forEachFinish (onFinish : option RawUsage → C unit)
    (responses : list (option RawUsage)) : C unit :=
  match responses with
  | [] => cret tt
  | r :: rest => cbind (onFinish r) (fun _ => forEachFinish onFinish rest)
  end.

(** An awaited request with an [onFinish] callback. *)
Definition request {A} (effect : StreamEffect)
    (answer : list StreamEffect → Finishing A)
    (onFinish : option RawUsage → C unit) : C A :=
  fun s =>
    let a := answer (events s) in
    cbind (emit effect)
      (fun _ => cbind (forEachFinish onFinish (finishes a))
         (fun _ s' => (settle (settles a), s'))) s.

(** The agents' part of the stream. *)
Definition baseView (t : list StreamEffect) : Trace :=
  omap (fun e => match e with Base b => Some b | _ => None end) t.

(** A step of the agents, run on the stream: the agents see what they and
    the route wrote to the sink, and what they add is appended. *)
Definition liftAgents {A} (m : M A) : C A :=
  fun s =>
    let before := baseView (events s) in
    let (r, after) := m before in
    (r, {| events := events s ++ (Base <$> drop (length before) after);
           counter := counter s;
           cumulativeUsage := cumulativeUsage s |}).

(** [{ ...env, NAME: process.env.NAME }] for one name: the value of the
    process environment, also when it is [undefined]. *)
Definition overlay (name : string) (env : gmap string string) : gmap string string :=
  match processEnv !! name with
  | Some v => <[name := v]> env
  | None => delete name env
  end.

(** [enrichedEnv] *)
Definition enrichedEnv (cloudflareEnv : option (gmap string string)) : gmap string string :=
  overlay "MISTRAL_API_KEY"
    (overlay "GOOGLE_GENERATIVE_AI_API_KEY"
       (overlay "GROQ_API_KEY"
          (overlay "OPENAI_API_KEY"
             (overlay "ANTHROPIC_API_KEY" (default ∅ cloudflareEnv))))).

(** [path.startsWith(WORK_DIR) ? path.replace(WORK_DIR, '') : path] *)
Definition stripWorkDir (path : string) : string :=
  default path (Js.stripPrefix WORK_DIR path).

(** The text part [0:<chunk>] of the stream protocol, a line of its own. *)
Definition textPart (chunk : string) : string := "0:" +:+ chunk +:+ Js.LF.

(** [textResult.split('')] *)
Fixpoint characters (s : string) : list string :=
  match s with
  | EmptyString => []
  | String c r => String c EmptyString :: characters r
  end.

(** The [for] loop that streams the text, one character a chunk. *)
Fixpoint writeChunks (chunks : list string) : C unit :=
  match chunks with
  | [] => cret tt
  | chunk :: rest =>
      cbind (emit (Write (textPart chunk))) (fun _ => writeChunks rest)
  end.

(** The summary and context steps, taken when there are file paths and
    context optimisation is on; the result is [filteredFiles]. *)
Definition prepareFiles (req : ChatRequest) : C (option FileMap) :=
  let filePaths := getFilePaths (default ∅ (files req)) in
  if (0 <? length filePaths)%nat && contextOptimization req then
    cbind (writeProgress "summary" InProgress "Analysing Request") (fun _ =>
    cbind (request (CreateSummary (messages req))
             (fun t => createSummary t (messages req) (cloudflareEnv req) (apiKeys req)
                         (providerSettings req) (promptId req) (contextOptimization req))
             (fun usage =>
                cbind (addResponseUsage usage) (fun _ =>
                writeProgress "summary" Complete "Analysis Complete")))
      (fun summary =>
    cbind (emit (WriteMessageAnnotation
                   (ChatSummaryAnnotation summary (id <$> last (messages req))))) (fun _ =>
    cbind (writeProgress "context" InProgress "Determining Files to Read") (fun _ =>
    cbind (request (SelectFiles (messages req) summary)
             (fun t => selectContextFiles t (messages req) (cloudflareEnv req) (apiKeys req)
                         (files req) (providerSettings req) (promptId req)
                         (contextOptimization req) summary)
             addResponseUsage)
      (fun filteredFiles =>
    match filteredFiles with
    | None => cthrow (External "Cannot convert undefined or null to object")
    | Some selected =>
        cbind (emit (WriteMessageAnnotation
                       (CodeContextAnnotation
                          (stripWorkDir <$> (map_to_list selected).*1)))) (fun _ =>
        cbind (writeProgress "context" Complete "Code Files Selected") (fun _ =>
        cret (Some selected)))
    end)))))
  else cret None.

(** The options the route hands to the agents. *)
Definition agentOptions (req : ChatRequest) (filteredFiles : option FileMap)
    : LangChain.OrchestratorOptions.t :=
  {| LangChain.OrchestratorOptions.messages := messages req;
     LangChain.OrchestratorOptions.files :=
       match filteredFiles with Some f => Some f | None => files req end;
     LangChain.OrchestratorOptions.env := Some (enrichedEnv (cloudflareEnv req));
     LangChain.OrchestratorOptions.apiKeys := apiKeys req;
     LangChain.OrchestratorOptions.providerSettings := providerSettings req;
     LangChain.OrchestratorOptions.promptId := promptId req;
     LangChain.OrchestratorOptions.contextOptimization :=
       Some (contextOptimization req) |}.

(** The names [enrichedEnv] sets. *)
Definition maskedNames : list string :=
  ["ANTHROPIC_API_KEY"; "OPENAI_API_KEY"; "GROQ_API_KEY";
   "GOOGLE_GENERATIVE_AI_API_KEY"; "MISTRAL_API_KEY"].

Definition summaryStart (c : Z) : StreamEffect :=
  Base (WriteData (Progress {| label := "summary"; status := InProgress; order := c;
                               message := "Analysing Request" |})).

Definition summaryDone (c : Z) : StreamEffect :=
  Base (WriteData (Progress {| label := "summary"; status := Complete; order := c;
                               message := "Analysis Complete" |})).

(** The summary and context steps are taken. *)
Definition optimised (req : ChatRequest) : Prop :=
  getFilePaths (default ∅ (files req)) ≠ [] ∧ contextOptimization req = true.

Definition responseStart (c : Z) : StreamEffect :=
  Base (WriteData (Progress {| label := "response"; status := InProgress; order := c;
                               message := "Starting multi-agent processing" |})).

Definition responseDone (c : Z) : StreamEffect :=
  Base (WriteData (Progress {| label := "response"; status := Complete; order := c;
                               message := "Response Generated" |})).

Definition responseFailed (c : Z) : StreamEffect :=
  Base (WriteData (Progress {| label := "response"; status := Error; order := c;
                               message := "Error generating response" |})).

(** The second half of [execute], from the 'response' annotation on, with
    the [filteredFiles] the first half left. *)
Definition respond (req : ChatRequest) (filteredFiles : option FileMap) : C unit :=
  cbind (writeProgress "response" InProgress "Starting multi-agent processing") (fun _ =>
  ctry
    (let agentConfig := Factory.getAgentConfig in
     cbind (liftAgents (Factory.executeAgents orchestrateAgents
                          (agentOptions req filteredFiles)
                          (Factory.implementation agentConfig)))
       (fun result =>
     cbind (addToUsage (LangChain.OrchestratorResult.usage result)) (fun _ =>
     let textResult := ensureString (LangChain.OrchestratorResult.text result) in
     cbind (writeChunks (characters textResult)) (fun _ =>
     cbind (fun s => emit (WriteMessageAnnotation (UsageAnnotation (cumulativeUsage s))) s)
       (fun _ =>
     writeProgress "response" Complete "Response Generated")))))
    (fun err =>
       cbind (writeProgress "response" Error "Error generating response") (fun _ =>
       emit (Write (textPart ("An error occurred while processing your request: " +:+
                              failureMessage err)))))).

(** The [execute] callback of [createDataStream] in [chatAction]. A thrown
    error is what [onError] receives. *)
Definition execute (req : ChatRequest) : C unit :=
  cbind (prepareFiles req) (respond req).

(** The progress annotations of a stream, in order. *)
Definition streamProgress (t : list StreamEffect) : list ProgressAnnotation :=
  progressEvents (baseView t).

(** The labels the route itself uses. *)
Definition ownLabel (a : ProgressAnnotation) : bool :=
  String.eqb (label a) "summary" || String.eqb (label a) "context"
  || String.eqb (label a) "response".

(** The text chunks of a stream, in order. *)
Definition writtenChunks (t : list StreamEffect) : list string :=
  omap (fun e => match e with Write chunk => Some chunk | _ => None end) t.

(** The message annotations of a stream, in order. *)
Definition messageAnnotations (t : list StreamEffect) : list MessageAnnotation :=
  omap (fun e => match e with WriteMessageAnnotation a => Some a | _ => None end) t.

(** The orders of the route's own progress annotations, in order of
    writing. *)
Definition ownOrders (s : ChatState) : list Z :=
  order <$> List.filter ownLabel (streamProgress (events s)).

(** The route's own orders are 1, 2, ... up to the counter, which is the
    next one. *)
Definition consecutive (s : ChatState) : Prop :=
  1 ≤ counter s ∧ ownOrders s = seqZ 1 (counter s - 1).

(** [m] keeps [P] true of the state, however it ends. *)
Definition preserves {A} (P : ChatState → Prop) (m : C A) : Prop :=
  ∀ s, P s → P (m s).2.

(** The summary and context steps are skipped. *)
Definition direct (req : ChatRequest) : Prop :=
  getFilePaths (default ∅ (files req)) = [] ∨ contextOptimization req = false.

End Chat.
End ChatRoute.

(** ** utils/log-viewer.ts *)

Module LogViewer.

Inductive LogFilterMode := ALL | ORCHESTRATOR | PROMPT_ENHANCER | CODE_GENERATOR | ERRORS.

(** [log.includes(pattern)] *)
Definition includes (log pattern : string) : bool := Spec.occursIn pattern log.

(** The pattern of a mode's [filter]. *)
Definition modePattern (mode : LogFilterMode) : string :=
  match mode with
  | ORCHESTRATOR => "agent.orchestrator"
  | PROMPT_ENHANCER => "agent.prompt-enhancer"
  | CODE_GENERATOR => "agent.code-generator"
  | ERRORS => "ERROR"
  | ALL => "agent."
  end.

(** The value [viewAgentLogs(mode)] returns for the captured [logs]. *)
Definition viewAgentLogs (mode : LogFilterMode) (logs : list string) : list string :=
  List.filter (fun log => includes log (modePattern mode)) logs.

End LogViewer.

(** ** Further sample requests *)

Module MoreSamples.

(** The collaborators of the route: one summary response with a usage, a
    selection that keeps every file, and no standard orchestrator. *)
Definition routeOf (world : Collaborators) : @ChatRoute.ChatCollaborators world :=
  {| ChatRoute.getFilePaths := fun files => (map_to_list files).*1;
     ChatRoute.createSummary := fun _ _ _ _ _ _ _ =>
       {| ChatRoute.finishes :=
            [Some {| rawCompletionTokens := Some 3; rawPromptTokens := Some 5;
                     rawTotalTokens := Some 8 |}];
          ChatRoute.settles := Fulfilled "The user wants a function" |};
     ChatRoute.selectContextFiles := fun _ _ _ _ files _ _ _ _ =>
       {| ChatRoute.finishes := []; ChatRoute.settles := Fulfilled files |};
     ChatRoute.orchestrateAgents := fun _ => throw (External "not configured");
     ChatRoute.WORK_DIR := "/home/project" |}.

(** A request without files, for the collaborators [world]. *)
Definition requestOf (world : Collaborators)
    (cloudflareEnv : option (gmap string string)) (keys : gmap string string)
    : @ChatRoute.ChatRequest world :=
  {| ChatRoute.messages := Samples.history;
     ChatRoute.files := None;
     ChatRoute.promptId := None;
     ChatRoute.contextOptimization := false;
     ChatRoute.apiKeys := keys;
     ChatRoute.providerSettings := ∅;
     ChatRoute.cloudflareEnv := cloudflareEnv |}.

(** A route whose summary request is rejected after one response. *)
Definition routeWithoutSummary (world : Collaborators) : @ChatRoute.ChatCollaborators world :=
  {| ChatRoute.getFilePaths := fun files => (map_to_list files).*1;
     ChatRoute.createSummary := fun _ _ _ _ _ _ _ =>
       {| ChatRoute.finishes := [None];
          ChatRoute.settles := Rejected "summary model unavailable" |};
     ChatRoute.selectContextFiles := fun _ _ _ _ files _ _ _ _ =>
       {| ChatRoute.finishes := []; ChatRoute.settles := Fulfilled files |};
     ChatRoute.orchestrateAgents := fun _ => throw (External "not configured");
     ChatRoute.WORK_DIR := "/home/project" |}.

(** A request with one file and context optimisation. *)
Definition requestWithFile : @ChatRoute.ChatRequest Samples.world :=
  {| ChatRoute.messages := Samples.history;
     ChatRoute.files :=
       Some {[ "/home/project/index.ts" := File "export {}" ]};
     ChatRoute.promptId := None;
     ChatRoute.contextOptimization := true;
     ChatRoute.apiKeys := Samples.openAiKeys;
     ChatRoute.providerSettings := ∅;
     ChatRoute.cloudflareEnv := None |}.

Definition request : @ChatRoute.ChatRequest Samples.world :=
  requestOf Samples.world None Samples.openAiKeys.

Definition brokenRequest : @ChatRoute.ChatRequest Samples.broken :=
  requestOf Samples.broken None Samples.openAiKeys.


(** A request whose only key is in the environment of the request. *)
Definition cloudflareRequest : @ChatRoute.ChatRequest Samples.world :=
  requestOf Samples.world (Some {[ "OPENAI_API_KEY" := "sk-cloudflare" ]}) ∅.

(** A decoder that knows no escape: it answers the texts without a percent
    sign with themselves and refuses the others. *)
Definition plainDecode (s : string) : option string :=
  if ChatRoute.without "%" s then Some s else None.

Definition cookies : list (string * string) :=
  [("theme", "dark"); ("token", "a=b=c"); ("__proto__", "polluted"); ("theme", "light")].

Definition spoiledCookies : list (string * string) :=
  [("theme", "dark"); ("token", "%")].

(** A request for a provider named like an inherited member, with no key
    anywhere. *)
Definition constructorMsg : Message :=
  {| role := user;
     content := Plain "[Model: gpt-4][Provider: constructor] write a function";
     id := "m2" |}.

Definition constructorOptions : @LangChain.AgentOptions Samples.world :=
  {| LangChain.messages := [constructorMsg];
     LangChain.context := @Samples.contextWith Samples.world ∅ 0 |}.

(** A generator stage on a history without a user message. *)
Definition silentGenerator : @LangChain.AgentOptions Samples.world :=
  {| LangChain.messages := [Samples.systemMsg];
     LangChain.context := @Samples.contextWith Samples.world Samples.openAiKeys 1 |}.

Definition capturedLogs : list string :=
  ["DEBUG agent.orchestrator started"; "ERROR network"; "INFO agent.factory ready";
   "DEBUG agent.code-generator done"].

End MoreSamples.

(** * Properties *)

(** ** Strings *)

Section StringFacts.

Lemma upper_lower_char c : Js.upperChar (Js.lowerChar c) = Js.upperChar c.
Proof. by destruct c as [[] [] [] [] [] [] [] []]. Qed.

Lemma toUpperCase_toLowerCase s :
  Js.toUpperCase (Js.toLowerCase s) = Js.toUpperCase s.
Proof. induction s as [|c s IH]; simpl; [done|]. by rewrite upper_lower_char, IH. Qed.

(** A name that lower-cases to [l] upper-cases to the upper-casing of [l]. *)
Lemma toUpperCase_of_lower s l :
  Js.toLowerCase s = l → Js.toUpperCase s = Js.toUpperCase l.
Proof. intros <-. by rewrite toUpperCase_toLowerCase. Qed.

Lemma string_eqb_true a b : String.eqb a b = true ↔ a = b.
Proof. apply String.eqb_eq. Qed.

Lemma string_eqb_false a b : String.eqb a b = false ↔ a ≠ b.
Proof. apply String.eqb_neq. Qed.

End StringFacts.

(** ** Arithmetic of the estimates *)

Section Estimates.

Lemma ceilQuarter_div n : ceilQuarter n = (Z.of_nat n + 3) / 4.
Proof.
  unfold ceilQuarter, Qceiling, Qfloor, Qopp; simpl.
  Z.to_euclidean_division_equations; lia.
Qed.

Lemma ceilQuarter_ceiling n : Spec.isCeilingOfQuarter n (ceilQuarter n).
Proof.
  unfold Spec.isCeilingOfQuarter. rewrite ceilQuarter_div.
  Z.to_euclidean_division_equations; lia.
Qed.

End Estimates.

(** ** Progress annotations *)

(** C7: with status 'error' the helper returns an annotation whose status is
    'complete'; 'in-progress' and 'complete' come back unchanged; so no
    annotation built by the helper (either copy of it) carries 'error'.
    The other fields are the arguments. *)
Theorem createProgressAnnotation_never_error (l m : string) (o : Z) :
  (status (Standard.createProgressAnnotation l m Error o) = Complete ∧
   status (Standard.createProgressAnnotation l m InProgress o) = InProgress ∧
   status (Standard.createProgressAnnotation l m Complete o) = Complete ∧
   status (LangChain.createProgressAnnotation l m Error o) = Complete ∧
   status (LangChain.createProgressAnnotation l m InProgress o) = InProgress ∧
   status (LangChain.createProgressAnnotation l m Complete o) = Complete) ∧
  (∀ s, status (Standard.createProgressAnnotation l m s o) ≠ Error ∧
        status (LangChain.createProgressAnnotation l m s o) ≠ Error) ∧
  (∀ s, label (Standard.createProgressAnnotation l m s o) = l ∧
        order (Standard.createProgressAnnotation l m s o) = o ∧
        message (Standard.createProgressAnnotation l m s o) = m ∧
        label (LangChain.createProgressAnnotation l m s o) = l ∧
        order (LangChain.createProgressAnnotation l m s o) = o ∧
        message (LangChain.createProgressAnnotation l m s o) = m).
Proof.
  split; [by repeat split|].
  split; intros s; [by destruct s | by repeat split].
Qed.

(** ** Estimated usage *)

(** The three estimates are ceilings of quarters, and the total lies at
    most one below the sum of the parts. *)
Lemma estimatedUsage_arith (p c : nat) :
  let u := LangChain.estimatedUsage p c in
  Spec.isCeilingOfQuarter p (promptTokens u) ∧
  Spec.isCeilingOfQuarter c (completionTokens u) ∧
  Spec.isCeilingOfQuarter (p + c) (totalTokens u) ∧
  promptTokens u + completionTokens u - 1 <= totalTokens u ∧
  totalTokens u <= promptTokens u + completionTokens u.
Proof.
  cbn [LangChain.estimatedUsage promptTokens completionTokens totalTokens].
  repeat split; try apply ceilQuarter_ceiling.
  - rewrite !ceilQuarter_div. Z.to_euclidean_division_equations; lia.
  - rewrite !ceilQuarter_div. Z.to_euclidean_division_equations; lia.
Qed.

(** ** Keys and model clients *)

Section Resolver.
Context `{Collaborators}.

Lemma orElse_firstNonEmpty a rest :
  orElse a (Spec.firstNonEmpty rest) = Spec.firstNonEmpty (a :: rest).
Proof. by destruct a as [[|c s]|]. Qed.

Lemma orElse_chain a b c :
  orElse a (orElse b (orElse c EmptyString)) = Spec.firstNonEmpty [a; b; c].
Proof.
  change EmptyString with (Spec.firstNonEmpty []).
  by rewrite !orElse_firstNonEmpty.
Qed.

Lemma truthyValue_Text s : Js.truthyValue (Js.Text s) = Js.truthy s.
Proof. done. Qed.

Lemma truthyValue_not_empty v : Js.truthyValue v = true ↔ v ≠ Js.Text EmptyString.
Proof. destruct v as [[|c s]|name]; cbn; split; congruence. Qed.

Lemma truthyValue_empty v : Js.truthyValue v = false ↔ v = Js.Text EmptyString.
Proof. destruct v as [[|c s]|name]; cbn; split; congruence. Qed.

(** An own property is what the read gives. *)
Lemma property_own object name s :
  object !! name = Some s → Js.property object name = Some (Js.Text s).
Proof. unfold Js.property. by intros ->. Qed.

(** Under a name that no object inherits, a read is a look-up among the
    own properties. *)
Lemma property_plain object name :
  name ∉ Js.inheritedMembers → Js.property object name = Js.Text <$> object !! name.
Proof.
  intros Hn. unfold Js.property. destruct (object !! name); [done|].
  by rewrite bool_decide_eq_false_2.
Qed.

(** Without an own property, an inherited member is what the read gives. *)
Lemma property_inherited object name :
  name ∈ Js.inheritedMembers → object !! name = None →
  Js.property object name = Some (Js.InheritedMember name).
Proof. intros Hn Ho. unfold Js.property. by rewrite Ho, bool_decide_eq_true_2. Qed.

Lemma orValue_Text a rest :
  Js.orValue (Js.Text <$> a) (Js.Text rest) = Js.Text (orElse a rest).
Proof. by destruct a as [[|c s]|]. Qed.

(** The three recognized providers are read under constant names. *)
Lemma getApiKey_recognized (context : AgentContext) (provider : string) :
  Spec.recognized provider →
  LangChain.getApiKey context provider
  = Js.Text (Spec.firstNonEmpty (Spec.keySources context provider)).
Proof.
  unfold LangChain.getApiKey, Spec.keySources, Spec.displayName, Spec.envKeyName, envLookup.
  rewrite !orElse_chain. intros Hr.
  destruct (String.eqb (Js.toLowerCase provider) "anthropic") eqn:Ea.
  { apply string_eqb_true, toUpperCase_of_lower in Ea. by rewrite Ea. }
  destruct (String.eqb (Js.toLowerCase provider) "openai") eqn:Eo.
  { apply string_eqb_true, toUpperCase_of_lower in Eo. by rewrite Eo. }
  destruct (String.eqb (Js.toLowerCase provider) "groq") eqn:Eg.
  { apply string_eqb_true, toUpperCase_of_lower in Eg. by rewrite Eg. }
  apply string_eqb_false in Ea, Eo, Eg. by destruct Hr as [?|[?|?]].
Qed.

(** Any other provider is read under its own name, inherited members
    included. *)
Lemma getApiKey_default (context : AgentContext) (provider : string) :
  ¬ Spec.recognized provider →
  LangChain.getApiKey context provider
  = Js.orValue (Js.property (apiKeys context) provider)
      (Js.Text (Spec.firstNonEmpty
                  [env context ≫= (.!! Spec.envKeyName provider);
                   processEnv !! Spec.envKeyName provider])).
Proof.
  intros Hn. unfold Spec.recognized in Hn.
  unfold LangChain.getApiKey, Spec.envKeyName, envLookup.
  destruct (String.eqb (Js.toLowerCase provider) "anthropic") eqn:Ea.
  { apply string_eqb_true in Ea. tauto. }
  destruct (String.eqb (Js.toLowerCase provider) "openai") eqn:Eo.
  { apply string_eqb_true in Eo. tauto. }
  destruct (String.eqb (Js.toLowerCase provider) "groq") eqn:Eg.
  { apply string_eqb_true in Eg. tauto. }
  change (orElse ?c EmptyString) with (orElse c (Spec.firstNonEmpty [])).
  by rewrite !orElse_firstNonEmpty.
Qed.

(** Under a name that no object inherits, the code's four branches are
    one look-up chain. *)
Lemma getApiKey_sources (context : AgentContext) (provider : string) :
  provider ∉ Js.inheritedMembers →
  LangChain.getApiKey context provider
  = Js.Text (Spec.firstNonEmpty (Spec.keySources context provider)).
Proof.
  intros Hp. destruct (decide (Js.toLowerCase provider = "anthropic")) as [Ha|Ha];
    [apply getApiKey_recognized; by left|].
  destruct (decide (Js.toLowerCase provider = "openai")) as [Ho|Ho];
    [apply getApiKey_recognized; right; by left|].
  destruct (decide (Js.toLowerCase provider = "groq")) as [Hg|Hg];
    [apply getApiKey_recognized; right; by right|].
  rewrite getApiKey_default by (unfold Spec.recognized; tauto).
  rewrite property_plain, orValue_Text, orElse_firstNonEmpty by done.
  unfold Spec.keySources, Spec.displayName.
  apply string_eqb_false in Ha, Ho, Hg. by rewrite Ha, Ho, Hg.
Qed.

Lemma not_recognized_eqb provider :
  ¬ Spec.recognized provider →
  String.eqb (Js.toLowerCase provider) "anthropic" = false ∧
  String.eqb (Js.toLowerCase provider) "openai" = false ∧
  String.eqb (Js.toLowerCase provider) "groq" = false.
Proof.
  unfold Spec.recognized. intros Hn.
  repeat split; apply string_eqb_false; intros E; apply Hn; auto.
Qed.

(** C9: for a provider that is none of anthropic, openai, groq (whatever the
    case), the client is the Anthropic one, with the process-wide key and
    the fixed model, exactly when the process-wide Anthropic key is present;
    otherwise it is the OpenAI one, built with the key it was handed,
    whatever that key is (the empty string included), and with the
    requested model or 'gpt-4o'. *)
Theorem createLangChainModel_fallback
    (provider model : string) (apiKey : Js.Value) (temperature : Q) :
  ¬ Spec.recognized provider →
  (∀ k, processEnv !! "ANTHROPIC_API_KEY" = Some k → k ≠ EmptyString →
     LangChain.createLangChainModel provider model apiKey temperature
     = {| chatClass := ChatAnthropic; apiKey := k;
          modelName := "claude-3-sonnet-20240229";
          temperature := temperature; baseURL := None |}) ∧
  (processEnv !! "ANTHROPIC_API_KEY" = None ∨
   processEnv !! "ANTHROPIC_API_KEY" = Some EmptyString →
     LangChain.createLangChainModel provider model apiKey temperature
     = {| chatClass := ChatOpenAI; apiKey := apiKey;
          modelName := (if Js.truthy model then model else "gpt-4o");
          temperature := temperature; baseURL := None |}).
Proof.
  intros Hn. apply not_recognized_eqb in Hn as (Ea & Eo & Eg).
  unfold LangChain.createLangChainModel. rewrite Ea, Eo, Eg.
  split.
  - intros k Hk Hne. rewrite Hk. simpl.
    destruct k as [|c k]; [done|]. done.
  - intros [Hk|Hk]; rewrite Hk; done.
Qed.

End Resolver.

(** ** Running the monad *)

Section MonadFacts.

Lemma written_app t1 t2 : written (t1 ++ t2) = written t1 ++ written t2.
Proof. unfold written. apply omap_app. Qed.

Lemma progressEvents_app t1 t2 :
  progressEvents (t1 ++ t2) = progressEvents t1 ++ progressEvents t2.
Proof. unfold progressEvents. by rewrite written_app, omap_app. Qed.

Lemma modelCalls_app t1 t2 : modelCalls (t1 ++ t2) = modelCalls t1 ++ modelCalls t2.
Proof. unfold modelCalls. apply List.filter_app. Qed.

(** The monad laws, on every trace. *)
Lemma bind_ret_l {A B} (a : A) (k : A → M B) t : bind (ret a) k t = k a t.
Proof. done. Qed.

Lemma bind_ret_r {A} (m : M A) t : bind m ret t = m t.
Proof. unfold bind, ret. by destruct (m t) as [[a|e] t']. Qed.

Lemma bind_assoc {A B C} (m : M A) (k : A → M B) (k' : B → M C) t :
  bind (bind m k) k' t = bind m (fun a => bind (k a) k') t.
Proof. unfold bind. by destruct (m t) as [[a|e] t']. Qed.

(** A thrown error skips the rest; a handler sees it with the trace as the
    body left it. *)
Lemma bind_throw {A B} e (k : A → M B) t : bind (throw e) k t = (Thrown e, t).
Proof. done. Qed.

Lemma tryCatch_throw {A} e (handler : Failure → M A) t :
  tryCatch (throw e) handler t = handler e t.
Proof. done. Qed.

End MonadFacts.

(** Unfold the monad and the helpers down to traces. *)
Ltac run_monad :=
  cbv beta iota zeta delta [bind tryCatch writeData call ask ret throw settle] in *.

(** Bring a trace to the form [t ++ [e1; ...; en]]. *)
Ltac flatten_trace := rewrite <- ?app_assoc; cbn [app].

(** ** The last user message *)

Section LastUser.

Lemma findLastUser_Some messages :
  Spec.hasUserMessage messages → ∃ m, findLastUser messages = Some m.
Proof.
  intros (m & Hin & Hrole). unfold findLastUser.
  destruct (List.find _ (reverse messages)) as [m'|] eqn:E; [eauto|].
  exfalso. eapply List.find_none in E.
  - apply bool_decide_eq_false in E. exact (E Hrole).
  - apply list_elem_of_In. by apply elem_of_reverse.
Qed.

Lemma findLastUser_None messages :
  ¬ Spec.hasUserMessage messages → findLastUser messages = None.
Proof.
  intros Hno. unfold findLastUser.
  destruct (List.find _ (reverse messages)) as [m|] eqn:E; [|done].
  exfalso. apply List.find_some in E as [Hin Hrole].
  apply Hno. exists m. split.
  - apply elem_of_reverse. by apply list_elem_of_In.
  - by apply bool_decide_eq_true in Hrole.
Qed.

Lemma findLastUser_user messages m :
  findLastUser messages = Some m → m ∈ messages ∧ role m = user.
Proof.
  unfold findLastUser. intros E. apply List.find_some in E as [Hin Hrole]. split.
  - apply elem_of_reverse. by apply list_elem_of_In.
  - by apply bool_decide_eq_true in Hrole.
Qed.

End LastUser.

(** ** One stage *)

Section Stages.
Context `{Collaborators}.

(** Close a [stageRun] goal whose trace is explicit, given the effects
    between the two annotations. *)
Tactic Notation "stage_with" uconstr(mid) :=
  eexists _, _, mid; split; [flatten_trace; reflexivity|];
  split; [reflexivity|]; first [intros ? [= <-]; reflexivity | intros ? [=]].

Lemma langchain_enhancer_stage options t res t' :
  Spec.hasUserMessage (LangChain.messages options) →
  LangChain.PromptEnhancerAgent.execute options t = (res, t') →
  Spec.stageRun "enhance" Complete
    (progressCounter (LangChain.context options)) t res t'.
Proof.
  intros Hu E. apply findLastUser_Some in Hu as [m Hm].
  unfold LangChain.PromptEnhancerAgent.execute in E. rewrite Hm in E.
  unfold LangChain.invoke in E. run_monad.
  destruct (negb (Js.truthyValue _)); run_monad.
  - injection E as <- <-. stage_with (@nil Effect).
  - destruct (invokeModel _ _ _); run_monad; injection E as <- <-;
      stage_with [Invoke _ _].
Qed.

Lemma langchain_generator_stage options t res t' :
  LangChain.CodeGeneratorAgent.execute options t = (res, t') →
  Spec.stageRun "code-gen" Complete
    (progressCounter (LangChain.context options)) t res t'.
Proof.
  intros E. unfold LangChain.CodeGeneratorAgent.execute in E.
  unfold LangChain.invoke in E. run_monad.
  destruct (findLastUser _) as [m|]; run_monad.
  - destruct (negb (Js.truthyValue _)); run_monad.
    + injection E as <- <-. stage_with (@nil Effect).
    + destruct (invokeModel _ _ _); run_monad; injection E as <- <-;
        stage_with [Invoke _ _].
  - injection E as <- <-. stage_with (@nil Effect).
Qed.

Lemma standard_enhancer_stage options t res t' :
  Spec.hasUserMessage (Standard.messages options) →
  Standard.PromptEnhancerAgent.execute options t = (res, t') →
  Spec.stageRun "enhance" Complete
    (progressCounter (Standard.context options)) t res t'.
Proof.
  intros Hu E. apply findLastUser_Some in Hu as [m Hm].
  unfold Standard.PromptEnhancerAgent.execute in E. rewrite Hm in E.
  unfold Standard.callStreamText in E. run_monad.
  destruct (streamText _ _ _ _ _ _ _); run_monad; injection E as <- <-;
    stage_with [StreamText _].
Qed.

Lemma standard_generator_stage options t res t' :
  Standard.CodeGeneratorAgent.execute options t = (res, t') →
  Spec.stageRun "code-gen" Complete
    (progressCounter (Standard.context options)) t res t'.
Proof.
  intros E. unfold Standard.CodeGeneratorAgent.execute in E.
  unfold Standard.CodeGeneratorAgent.prepareContext, Standard.callStreamText in E.
  run_monad.
  destruct (hasFiles _) as [fs|]; run_monad.
  - destruct (contextOptimization _) as [[|]|]; run_monad.
    + destruct (selectContext _ _ _ _ _ _ _ _) as [sel|]; run_monad.
      * destruct (Js.truthy sel); run_monad;
          (destruct (streamText _ _ _ _ _ _ _); run_monad; injection E as <- <-;
           stage_with [SelectContext _; StreamText _]).
      * injection E as <- <-. stage_with [SelectContext _].
    + destruct (Js.truthy _); run_monad;
        (destruct (streamText _ _ _ _ _ _ _); run_monad; injection E as <- <-;
         stage_with [StreamText _]).
    + destruct (Js.truthy _); run_monad;
        (destruct (streamText _ _ _ _ _ _ _); run_monad; injection E as <- <-;
         stage_with [StreamText _]).
  - cbn [Js.truthy] in E. run_monad.
    destruct (streamText _ _ _ _ _ _ _); run_monad; injection E as <- <-;
      stage_with [StreamText _].
Qed.

(** What a successful LangChain stage reports as usage. *)
Lemma langchain_enhancer_usage options t r t' :
  LangChain.PromptEnhancerAgent.execute options t = (Ok r, t') →
  ∃ m,
    findLastUser (LangChain.messages options) = Some m ∧
    usage r = Some (LangChain.estimatedUsage
                      (String.length (formatPrompt PROMPT_ENHANCER (contentText (content m))))
                      (String.length (output r))).
Proof.
  unfold LangChain.PromptEnhancerAgent.execute.
  destruct (findLastUser _) as [m|]; [|done].
  unfold LangChain.invoke. run_monad.
  destruct (negb (Js.truthyValue _)); run_monad; [done|].
  destruct (invokeModel _ _ _); run_monad; [|done].
  intros [= <- _]. by exists m.
Qed.

Lemma langchain_generator_usage options t r t' :
  LangChain.CodeGeneratorAgent.execute options t = (Ok r, t') →
  ∃ m systemMessage,
    findLastUser (LangChain.messages options) = Some m ∧
    usage r = Some (LangChain.estimatedUsage
                      (String.length systemMessage
                       + String.length (formatPrompt CODE_GENERATOR (contentText (content m))))
                      (String.length (output r))).
Proof.
  unfold LangChain.CodeGeneratorAgent.execute, LangChain.invoke. run_monad.
  destruct (findLastUser _) as [m|]; run_monad; [|done].
  destruct (negb (Js.truthyValue _)); run_monad; [done|].
  destruct (invokeModel _ _ _); run_monad; [|done].
  intros [= <- _]. by eexists m, _.
Qed.

End Stages.

Section StageClaims.
Context `{Collaborators}.

(** C2, as amended: every run of a code generator, and every run of a prompt
    enhancer on a history with a user message, writes exactly two events to
    the sink, both progress annotations with the stage's label ('enhance' or
    'code-gen') and with order = the context's progress counter + 1: the
    first with status 'in-progress', the last with status 'complete', on
    success and on failure alike; a returned result carries that
    incremented counter. *)
Theorem stage_writes_two_annotations :
  (∀ options t, Spec.hasUserMessage (Standard.messages options) →
     Spec.stageRun "enhance" Complete (progressCounter (Standard.context options)) t
       (Standard.PromptEnhancerAgent.execute options t).1
       (Standard.PromptEnhancerAgent.execute options t).2) ∧
  (∀ options t,
     Spec.stageRun "code-gen" Complete (progressCounter (Standard.context options)) t
       (Standard.CodeGeneratorAgent.execute options t).1
       (Standard.CodeGeneratorAgent.execute options t).2) ∧
  (∀ options t, Spec.hasUserMessage (LangChain.messages options) →
     Spec.stageRun "enhance" Complete (progressCounter (LangChain.context options)) t
       (LangChain.PromptEnhancerAgent.execute options t).1
       (LangChain.PromptEnhancerAgent.execute options t).2) ∧
  (∀ options t,
     Spec.stageRun "code-gen" Complete (progressCounter (LangChain.context options)) t
       (LangChain.CodeGeneratorAgent.execute options t).1
       (LangChain.CodeGeneratorAgent.execute options t).2).
Proof.
  repeat split; intros.
  - by apply standard_enhancer_stage; [|apply surjective_pairing].
  - apply standard_generator_stage, surjective_pairing.
  - by apply langchain_enhancer_stage; [|apply surjective_pairing].
  - apply langchain_generator_stage, surjective_pairing.
Qed.

(** C3: on a history with a user message neither enhancer throws the
    missing-input error; on a history without one both throw it, and the
    trace is left as it was: nothing written, no model called. *)
Theorem enhancer_missing_input :
  (∀ options t, Spec.hasUserMessage (Standard.messages options) →
     (Standard.PromptEnhancerAgent.execute options t).1 ≠ Thrown NoUserMessageToEnhance) ∧
  (∀ options t, ¬ Spec.hasUserMessage (Standard.messages options) →
     Standard.PromptEnhancerAgent.execute options t = (Thrown NoUserMessageToEnhance, t)) ∧
  (∀ options t, Spec.hasUserMessage (LangChain.messages options) →
     (LangChain.PromptEnhancerAgent.execute options t).1 ≠ Thrown NoUserMessageToEnhance) ∧
  (∀ options t, ¬ Spec.hasUserMessage (LangChain.messages options) →
     LangChain.PromptEnhancerAgent.execute options t = (Thrown NoUserMessageToEnhance, t)).
Proof.
  repeat split.
  - intros options t Hu. apply findLastUser_Some in Hu as [m Hm].
    unfold Standard.PromptEnhancerAgent.execute. rewrite Hm.
    unfold Standard.callStreamText. run_monad.
    by destruct (streamText _ _ _ _ _ _ _).
  - intros options t Hu. apply findLastUser_None in Hu.
    unfold Standard.PromptEnhancerAgent.execute. by rewrite Hu.
  - intros options t Hu. apply findLastUser_Some in Hu as [m Hm].
    unfold LangChain.PromptEnhancerAgent.execute. rewrite Hm.
    unfold LangChain.invoke. run_monad.
    destruct (negb (Js.truthyValue _)); run_monad; [done|].
    by destruct (invokeModel _ _ _).
  - intros options t Hu. apply findLastUser_None in Hu.
    unfold LangChain.PromptEnhancerAgent.execute. by rewrite Hu.
Qed.

End StageClaims.

(** ** The replace-or-append step *)

Section Replacement.
Context `{Collaborators}.

Lemma lastUserIndex_snoc_user l x :
  role x = user → LangChain.lastUserIndex (l ++ [x]) = Some (length l).
Proof.
  intros Hx. unfold LangChain.lastUserIndex.
  rewrite imap_app, filter_app. cbn [imap].
  rewrite filter_cons_True by done. rewrite filter_nil, last_snoc. simpl.
  f_equal. lia.
Qed.

Lemma lastUserIndex_snoc_other l x :
  role x ≠ user → LangChain.lastUserIndex (l ++ [x]) = LangChain.lastUserIndex l.
Proof.
  intros Hx. unfold LangChain.lastUserIndex.
  rewrite imap_app, filter_app. cbn [imap].
  rewrite filter_cons_False by done. by rewrite filter_nil, app_nil_r.
Qed.

Lemma hasUserMessage_snoc l x :
  Spec.hasUserMessage (l ++ [x]) ↔ Spec.hasUserMessage l ∨ role x = user.
Proof.
  unfold Spec.hasUserMessage. split.
  - intros (m & Hin & Hm). apply elem_of_app in Hin as [Hin|Hin]; [eauto|].
    apply list_elem_of_singleton in Hin as ->. by right.
  - intros [(m & Hin & Hm)|Hx].
    + exists m. split; [apply elem_of_app; by left | done].
    + exists x. split; [apply elem_of_app; right; by apply list_elem_of_singleton | done].
Qed.

(** The index the code computes is the position of the last user message,
    and there is none exactly when the history has no user message. *)
Lemma lastUserIndex_spec messages :
  match LangChain.lastUserIndex messages with
  | Some i => Spec.lastUserAt messages i
  | None => ¬ Spec.hasUserMessage messages
  end.
Proof.
  induction messages as [|x l IH] using rev_ind.
  - simpl. intros (m & Hin & _). by apply elem_of_nil in Hin.
  - destruct (decide (role x = user)) as [Hx|Hx].
    + rewrite lastUserIndex_snoc_user by done. split.
      * exists x. split; [|done]. by apply list_lookup_middle.
      * intros j m Hj Hl. apply lookup_lt_Some in Hl.
        rewrite length_app in Hl. simpl in Hl. lia.
    + rewrite lastUserIndex_snoc_other by done.
      destruct (LangChain.lastUserIndex l) as [i|].
      * destruct IH as [(m & Hm & Hrole) Hafter]. split.
        -- exists m. split; [|done]. by apply lookup_app_l_Some.
        -- intros j m' Hj Hl. apply lookup_app_Some in Hl as [Hl|[Hlen Hl]].
           ++ by eapply Hafter.
           ++ apply list_lookup_singleton_Some in Hl as [_ <-]. done.
      * rewrite hasUserMessage_snoc. tauto.
Qed.

Lemma lastUserAt_lt messages i : Spec.lastUserAt messages i → (i < length messages)%nat.
Proof. intros [(m & Hm & _) _]. by eapply lookup_lt_Some. Qed.

(** There is at most one position of the last user message. *)
Lemma lastUserAt_unique messages i j :
  Spec.lastUserAt messages i → Spec.lastUserAt messages j → i = j.
Proof.
  intros [(m & Hm & Hr) Hi] [(m' & Hm' & Hr') Hj].
  destruct (Nat.lt_trichotomy i j) as [Hlt|[->|Hlt]]; [|done|].
  - by destruct (Hi j m' Hlt Hm').
  - by destruct (Hj i m Hlt Hm).
Qed.

(** What the step does to a history. *)
Lemma messagesWithEnhancedPrompt_spec messages newMessage :
  (∀ i, Spec.lastUserAt messages i →
     length (LangChain.messagesWithEnhancedPrompt messages newMessage) = length messages ∧
     LangChain.messagesWithEnhancedPrompt messages newMessage !! i = Some newMessage ∧
     ∀ j, j ≠ i →
       LangChain.messagesWithEnhancedPrompt messages newMessage !! j = messages !! j) ∧
  (Spec.hasUserMessage messages → ∃ i, Spec.lastUserAt messages i) ∧
  (¬ Spec.hasUserMessage messages →
     LangChain.messagesWithEnhancedPrompt messages newMessage = messages ++ [newMessage]).
Proof.
  unfold LangChain.messagesWithEnhancedPrompt.
  pose proof (lastUserIndex_spec messages) as Hspec.
  destruct (LangChain.lastUserIndex messages) as [k|].
  - split; [|split].
    + intros i Hi. assert (i = k) as -> by (by eapply lastUserAt_unique).
      split; [apply length_insert|].
      split; [apply list_lookup_insert_eq; by eapply lastUserAt_lt|].
      intros j Hj. by apply list_lookup_insert_ne.
    + eauto.
    + intros Hno. destruct Hno. destruct Hspec as [(m & Hm & Hr) _].
      exists m. split; [by eapply list_elem_of_lookup_2 | done].
  - split; [|split].
    + intros i [(m & Hm & Hr) _]. destruct Hspec.
      exists m. split; [by eapply list_elem_of_lookup_2 | done].
    + intros Hu. by destruct Hspec.
    + done.
Qed.

End Replacement.

(** ** The orchestrator *)

Section Orchestration.
Context `{Collaborators}.

Lemma orZero_id x : orZero x = x.
Proof. unfold orZero. destruct (Z.eqb_spec x 0); congruence. Qed.

Lemma combinedUsage_sum u1 u2 :
  LangChain.combinedUsage u1 u2
  = Spec.addUsage (Spec.usageOrZero u1) (Spec.usageOrZero u2).
Proof.
  unfold LangChain.combinedUsage, Spec.addUsage.
  destruct u1, u2; simpl; by rewrite ?orZero_id.
Qed.

(** The orchestrator, stage by stage: the enhancer on the history as it
    came, the comparison event, then the generator on the rebuilt history
    with the enhancer's counter. *)
Lemma orchestrateWith_run agents (options : LangChain.OrchestratorOptions.t) t :
  let messages := LangChain.OrchestratorOptions.messages options in
  LangChain.orchestrateWith agents options t =
  match LangChain.execute (agents PROMPT_ENHANCER)
          {| LangChain.messages := messages;
             LangChain.context := Spec.stageContext options 0 |} t with
  | (Thrown e, t1) => (Thrown e, t1)
  | (Ok r1, t1) =>
      let t2 := t1 ++ [WriteData (PromptComparison
                         (LangChain.originalPromptText (findLastUser messages))
                         (output r1))] in
      let newMessage :=
        LangChain.enhancedUserMessage (Spec.newestModelInfo messages)
          (output r1) (generateId t2) in
      match LangChain.execute (agents CODE_GENERATOR)
              {| LangChain.messages :=
                   LangChain.messagesWithEnhancedPrompt messages newMessage;
                 LangChain.context :=
                   Spec.stageContext options (resultProgressCounter r1) |} t2 with
      | (Thrown e, t3) => (Thrown e, t3)
      | (Ok r2, t3) =>
          (Ok {| LangChain.OrchestratorResult.text := output r2;
                 LangChain.OrchestratorResult.usage :=
                   LangChain.combinedUsage (usage r1) (usage r2) |}, t3)
      end
  end.
Proof.
  intros messages. unfold LangChain.orchestrateWith. run_monad.
  fold messages. fold (Spec.stageContext options 0).
  destruct (LangChain.execute (agents PROMPT_ENHANCER) _ t) as [[r1|e] t1]; [|done].
  unfold ensureString, Spec.stageContext, Spec.newestModelInfo. cbn [env apiKeys providerSettings files promptId contextOptimization].
  by destruct (LangChain.execute (agents CODE_GENERATOR) _ _) as [[r2|e] t3].
Qed.

(** C1: when the orchestration succeeds both stages have succeeded, and the
    returned usage is the field-wise sum of the two stages' usages, an
    absent usage counting as all-zero; in particular for totalTokens. *)
Theorem orchestrator_usage_is_sum agents (options : LangChain.OrchestratorOptions.t) t res t' :
  LangChain.orchestrateWith agents options t = (Ok res, t') →
  ∃ enhancerResult t1 generatorOptions t2 codeGenResult,
    LangChain.execute (agents PROMPT_ENHANCER)
      {| LangChain.messages := LangChain.OrchestratorOptions.messages options;
         LangChain.context := Spec.stageContext options 0 |} t
      = (Ok enhancerResult, t1) ∧
    LangChain.execute (agents CODE_GENERATOR) generatorOptions t2
      = (Ok codeGenResult, t') ∧
    LangChain.OrchestratorResult.usage res
      = Spec.addUsage (Spec.usageOrZero (usage enhancerResult))
                      (Spec.usageOrZero (usage codeGenResult)) ∧
    totalTokens (LangChain.OrchestratorResult.usage res)
      = totalTokens (Spec.usageOrZero (usage enhancerResult))
        + totalTokens (Spec.usageOrZero (usage codeGenResult)).
Proof.
  rewrite orchestrateWith_run. cbv zeta.
  destruct (LangChain.execute (agents PROMPT_ENHANCER) _ t) as [[r1|e] t1] eqn:E1; [|done].
  destruct (LangChain.execute (agents CODE_GENERATOR) _ _) as [[r2|e] t3] eqn:E2; [|done].
  intros [= <- <-]. eexists r1, t1, _, _, r2.
  split; [done|]. split; [exact E2|]. cbn [LangChain.OrchestratorResult.usage].
  rewrite combinedUsage_sum. done.
Qed.

(** C5: once the enhancer has succeeded, the generator is run on a history
    that differs from the original in one message only: a new message with
    role 'user', carrying the model and provider tags and the enhanced
    text, stands at the position of the last user message, the length and
    every other position being unchanged; when the history has no user
    message it is appended instead. Whatever the generator stage is, the
    orchestration ends the way that stage ends on this history. *)
Theorem generator_gets_replaced_history
    agents (options : LangChain.OrchestratorOptions.t) t enhancerResult t1 :
  let messages := LangChain.OrchestratorOptions.messages options in
  LangChain.execute (agents PROMPT_ENHANCER)
    {| LangChain.messages := messages;
       LangChain.context := Spec.stageContext options 0 |} t
    = (Ok enhancerResult, t1) →
  ∃ newMessage messages' t2,
    role newMessage = user ∧
    content newMessage
      = Plain (Spec.tagged (model (Spec.newestModelInfo messages))
                           (providerName (Spec.newestModelInfo messages))
                           (output enhancerResult)) ∧
    Spec.replacesLastUser messages messages' newMessage ∧
    LangChain.orchestrateWith agents options t =
      Spec.afterGenerator enhancerResult
        (LangChain.execute (agents CODE_GENERATOR)
           {| LangChain.messages := messages';
              LangChain.context :=
                Spec.stageContext options (resultProgressCounter enhancerResult) |}
           t2).
Proof.
  intros messages E1. rewrite orchestrateWith_run. fold messages. rewrite E1. cbv zeta.
  set (t2 := t1 ++ _).
  set (newMessage := LangChain.enhancedUserMessage _ _ _).
  exists newMessage, (LangChain.messagesWithEnhancedPrompt messages newMessage), t2.
  destruct (messagesWithEnhancedPrompt_spec messages newMessage) as (Hrepl & Hex & Happ).
  split; [done|]. split; [done|]. split; [split; [|done]|].
  - intros Hu. destruct (Hex Hu) as [i Hi]. exists i. split; [done|]. by apply Hrepl.
  - unfold Spec.afterGenerator.
    by destruct (LangChain.execute (agents CODE_GENERATOR) _ _) as [[r2|e] t3].
Qed.

End Orchestration.

Section Orders.
Context `{Collaborators}.

Lemma progressEvents_silent mid : written mid = [] → progressEvents mid = [].
Proof. unfold progressEvents. by intros ->. Qed.

(** A stage's contribution to the progress stream. *)
Lemma stageRun_progress lbl final c t res t' :
  Spec.stageRun lbl final c t res t' →
  ∃ delta startMessage endMessage,
    t' = t ++ delta ∧
    progressEvents delta
    = [ {| label := lbl; status := InProgress; order := c + 1; message := startMessage |};
        {| label := lbl; status := final; order := c + 1; message := endMessage |} ].
Proof.
  intros (s & e & mid & -> & Hmid & _). eexists _, s, e. split; [done|].
  rewrite !progressEvents_app, (progressEvents_silent mid) by done. done.
Qed.

Lemma enhancer_success_has_user options t r t' :
  LangChain.PromptEnhancerAgent.execute options t = (Ok r, t') →
  Spec.hasUserMessage (LangChain.messages options).
Proof.
  unfold LangChain.PromptEnhancerAgent.execute.
  destruct (findLastUser _) as [m|] eqn:E; [|done].
  intros _. apply findLastUser_user in E as [Hin Hr]. by exists m.
Qed.

(** C6, as amended: across a successful run the progress events of the two
    stages carry the orders 1, 1, 2, 2, the orchestrator starting its
    counter at 0 and issuing no progress event of its own: the two events
    of a stage share one order, the generator's order is the enhancer's
    plus one, and the sequence never decreases. *)
Theorem orchestration_progress_orders
    (options : LangChain.OrchestratorOptions.t) t res t' :
  LangChain.orchestrateLangChainAgents options t = (Ok res, t') →
  ∃ delta,
    t' = t ++ delta ∧
    order <$> progressEvents delta = [0 + 1; 0 + 1; 0 + 2; 0 + 2] ∧
    label <$> progressEvents delta = ["enhance"; "enhance"; "code-gen"; "code-gen"] ∧
    status <$> progressEvents delta = [InProgress; Complete; InProgress; Complete] ∧
    Spec.nonDecreasing (order <$> progressEvents delta).
Proof.
  unfold LangChain.orchestrateLangChainAgents. rewrite orchestrateWith_run.
  cbv zeta. cbn [LangChain.agents LangChain.execute].
  destruct (LangChain.PromptEnhancerAgent.execute _ t) as [[r1|e] t1] eqn:E1; [|done].
  destruct (LangChain.CodeGeneratorAgent.execute _ _) as [[r2|e] t3] eqn:E2; [|done].
  intros [= <- <-].
  pose proof (enhancer_success_has_user _ _ _ _ E1) as Hu.
  pose proof (langchain_enhancer_stage _ _ _ _ Hu E1) as S1.
  pose proof (langchain_generator_stage _ _ _ _ E2) as S2.
  assert (resultProgressCounter r1 = 0 + 1) as Hc.
  { destruct S1 as (? & ? & ? & _ & _ & Hc). by apply Hc. }
  apply stageRun_progress in S1 as (d1 & s1 & e1 & -> & P1).
  apply stageRun_progress in S2 as (d2 & s2 & e2 & -> & P2).
  cbn [LangChain.context LangChain.messages Spec.stageContext progressCounter] in P1, P2.
  rewrite Hc in P2.
  exists (d1 ++ [WriteData (PromptComparison
            (LangChain.originalPromptText
               (findLastUser (LangChain.OrchestratorOptions.messages options)))
            (output r1))] ++ d2).
  split; [by rewrite <- !app_assoc|].
  rewrite !progressEvents_app, P1, P2. cbn.
  repeat split.
  intros [|[|[|[|i]]]] a b; cbn; intros [= <-] [= <-]; lia.
Qed.

End Orders.

(** ** The model and provider tags *)

Section Tags.

Lemma matchGroup_eq open s :
  Js.matchGroup open s =
  match Js.matchHere open s with
  | Some g => Some g
  | None =>
      match s with
      | EmptyString => None
      | String _ r => Js.matchGroup open r
      end
  end.
Proof. by destruct s. Qed.

Lemma stripPrefix_app open s : Js.stripPrefix open (open +:+ s) = Some s.
Proof.
  induction open as [|a open IH]; [done|].
  change (String a open +:+ s) with (String a (open +:+ s)).
  cbn [Js.stripPrefix]. by rewrite Ascii.eqb_refl.
Qed.

(** A closing bracket is no part of a line terminator: whether one starts
    at [c] does not depend on what follows the bracket. *)
Lemma lineTerminatorAt_bracket c g rest :
  Js.lineTerminatorAt c (g +:+ String "]" rest) = Js.lineTerminatorAt c g.
Proof.
  unfold Js.lineTerminatorAt. f_equal.
  destruct g as [|b [|d g]]; [| |done].
  - change (EmptyString +:+ String "]" rest) with (String "]" rest).
    destruct rest as [|d rest]; [done|].
    change (Js.isLineTerminator3 c "]" d)
      with ((nat_of_ascii c =? 226)%nat && false
            && ((nat_of_ascii d =? 168)%nat || (nat_of_ascii d =? 169)%nat)).
    by rewrite andb_false_r.
  - change (String b EmptyString +:+ String "]" rest) with (String b (String "]" rest)).
    cbv iota.
    change (Js.isLineTerminator3 c b "]")
      with ((nat_of_ascii c =? 226)%nat && (nat_of_ascii b =? 128)%nat && false).
    by rewrite andb_false_r.
Qed.

(** The lazy group stops at the first closing bracket. *)
Lemma lazyGroup_safe g rest :
  Spec.tagSafe g = true → Js.lazyGroup (g +:+ String "]" rest) = Some g.
Proof.
  induction g as [|c g IH]; [done|].
  change (String c g +:+ String "]" rest) with (String c (g +:+ String "]" rest)).
  cbn [Spec.tagSafe Js.lazyGroup].
  intros (Hc%andb_prop & Hg)%andb_prop. destruct Hc as [Hb Hl].
  apply negb_true_iff in Hb, Hl.
  rewrite Hb, lineTerminatorAt_bracket, Hl, (IH Hg). done.
Qed.

(** A well-formed tag at the head of a text is found, with its content. *)
Lemma matchGroup_hit open g rest :
  Spec.tagSafe g = true →
  Js.matchGroup open (open +:+ g +:+ String "]" rest) = Some g.
Proof.
  intros Hg. rewrite matchGroup_eq. unfold Js.matchHere.
  rewrite stripPrefix_app. cbn [mbind option_bind]. by rewrite lazyGroup_safe.
Qed.

(** An opening that does not start [m] does not start [m] followed by a
    closing bracket either, as the opening has no closing bracket. *)
Lemma stripPrefix_none_bracket open m tail :
  Spec.tagSafe open = true →
  Js.stripPrefix open m = None →
  Js.stripPrefix open (m +:+ String "]" tail) = None.
Proof.
  revert m. induction open as [|a open IH]; intros m Ho Hm; [done|].
  cbn [Spec.tagSafe] in Ho. apply andb_prop in Ho as [Ha%andb_prop Ho].
  destruct Ha as [Ha _].
  destruct m as [|b m].
  - replace (EmptyString +:+ String "]" tail) with (String "]" tail) by reflexivity.
    cbn [Js.stripPrefix].
    destruct (Ascii.eqb_spec a "]") as [->|]; done.
  - change (String b m +:+ String "]" tail) with (String b (m +:+ String "]" tail)).
    cbn [Js.stripPrefix] in *.
    destruct (Ascii.eqb a b); [by apply IH | done].
Qed.

(** No attempt succeeds inside a text in which the opening does not occur. *)
Lemma matchGroup_skip open m tail :
  Spec.tagSafe open = true →
  Spec.occursIn open m = false →
  Js.matchGroup open (m +:+ String "]" tail) = Js.matchGroup open (String "]" tail).
Proof.
  intros Ho. induction m as [|c m IH]; [done|]. intros Hm.
  assert (Js.stripPrefix open (String c m) = None ∧ Spec.occursIn open m = false)
    as [Hhere Hrest].
  { cbn [Spec.occursIn] in Hm.
    destruct (Js.stripPrefix open (String c m)); [done|]. done. }
  rewrite matchGroup_eq. unfold Js.matchHere.
  change (String c m +:+ String "]" tail) with (String c (m +:+ String "]" tail)).
  change (String c (m +:+ String "]" tail)) with (String c m +:+ String "]" tail) at 1.
  rewrite (stripPrefix_none_bracket _ _ _ Ho Hhere). cbn [mbind option_bind].
  by apply IH.
Qed.

Lemma append_String c s r : String c s +:+ r = String c (s +:+ r).
Proof. reflexivity. Qed.

Lemma append_empty r : EmptyString +:+ r = r.
Proof. reflexivity. Qed.

(** One failed attempt at a position whose characters are known. *)
Ltac skip_position :=
  rewrite matchGroup_eq;
  cbn [Js.matchHere Js.stripPrefix Ascii.eqb Bool.eqb mbind option_bind].

Lemma matchModel_tagged M P text :
  Spec.tagSafe M = true → Js.matchModel (Spec.tagged M P text) = Some M.
Proof.
  intros HM. unfold Js.matchModel, Spec.tagged, Js.LF.
  rewrite !append_String, !append_empty.
  exact (matchGroup_hit "[Model: " M _ HM).
Qed.

Lemma matchProvider_tagged M P text :
  Spec.tagSafe P = true → Spec.occursIn "[Provider: " M = false →
  Js.matchProvider (Spec.tagged M P text) = Some P.
Proof.
  intros HP HM. unfold Js.matchProvider, Spec.tagged, Js.LF.
  rewrite !append_String, !append_empty.
  do 8 skip_position.
  rewrite matchGroup_skip by done.
  do 3 skip_position.
  exact (matchGroup_hit "[Provider: " P _ HP).
Qed.

(** C4, as amended: for a model name and a provider name without a closing
    bracket and without a line terminator (LF, CR, U+2028, U+2029), the
    model name not containing the text '[Provider: ', the message the
    orchestrator builds around them
    resolves to exactly that model and that provider, with the extractor of
    either implementation and whatever text follows the tags. *)
Theorem tags_round_trip (M P text newId : string) :
  Spec.tagSafe M = true →
  Spec.tagSafe P = true →
  Spec.occursIn "[Provider: " M = false →
  LangChain.extractModelInfo
    (LangChain.enhancedUserMessage {| model := M; providerName := P |} text newId)
  = {| model := M; providerName := P |} ∧
  Standard.extractModelInfo
    (LangChain.enhancedUserMessage {| model := M; providerName := P |} text newId)
  = {| model := M; providerName := P |}.
Proof.
  intros HM HP Hocc.
  unfold LangChain.extractModelInfo, Standard.extractModelInfo,
    LangChain.enhancedUserMessage.
  cbn [content contentText model providerName].
  fold (Spec.tagged M P text).
  by rewrite matchModel_tagged, matchProvider_tagged.
Qed.

End Tags.

(** * The properties on sample requests *)

Section OnSamples.

Import Samples.

Lemma history_has_user : Spec.hasUserMessage history.
Proof. exists userMsg. split; [|done]. apply list_elem_of_In. right. by left. Defined.

Lemma silent_has_no_user : ¬ Spec.hasUserMessage [systemMsg].
Proof.
  intros (m & Hin & Hr). apply list_elem_of_singleton in Hin. subst m. discriminate.
Defined.

Lemma mistral_not_recognized : ¬ Spec.recognized "mistral".
Proof. intros [E|[E|E]]; discriminate. Defined.

(** C1 on the sample request. *)
Lemma orchestrator_usage_is_sum_sample :
  @LangChain.orchestrateWith world (@LangChain.agents world) options []
    = (Ok orchestratorResult, orchestratorTrace) ∧
  ∃ enhancerResult t1 generatorOptions t2 codeGenResult,
    @LangChain.execute world (@LangChain.agents world PROMPT_ENHANCER)
      {| LangChain.messages := LangChain.OrchestratorOptions.messages options;
         LangChain.context := Spec.stageContext options 0 |} []
      = (Ok enhancerResult, t1) ∧
    @LangChain.execute world (@LangChain.agents world CODE_GENERATOR) generatorOptions t2
      = (Ok codeGenResult, orchestratorTrace) ∧
    LangChain.OrchestratorResult.usage orchestratorResult
      = Spec.addUsage (Spec.usageOrZero (usage enhancerResult))
                      (Spec.usageOrZero (usage codeGenResult)) ∧
    totalTokens (LangChain.OrchestratorResult.usage orchestratorResult)
      = totalTokens (Spec.usageOrZero (usage enhancerResult))
        + totalTokens (Spec.usageOrZero (usage codeGenResult)).
Proof.
  split; [vm_compute; reflexivity|].
  apply (@orchestrator_usage_is_sum world). vm_compute; reflexivity.
Defined.

(** C2 on the sample request, for the four agents. *)
Lemma stage_writes_two_annotations_sample :
  Spec.hasUserMessage history ∧
  Spec.stageRun "enhance" Complete 0 []
    (@Standard.PromptEnhancerAgent.execute world standardOptions []).1
    (@Standard.PromptEnhancerAgent.execute world standardOptions []).2 ∧
  Spec.stageRun "code-gen" Complete 0 []
    (@Standard.CodeGeneratorAgent.execute world standardOptions []).1
    (@Standard.CodeGeneratorAgent.execute world standardOptions []).2 ∧
  Spec.stageRun "enhance" Complete 0 []
    (@LangChain.PromptEnhancerAgent.execute world enhancerOptions []).1
    (@LangChain.PromptEnhancerAgent.execute world enhancerOptions []).2 ∧
  Spec.stageRun "code-gen" Complete 0 []
    (@LangChain.CodeGeneratorAgent.execute world enhancerOptions []).1
    (@LangChain.CodeGeneratorAgent.execute world enhancerOptions []).2.
Proof.
  destruct (@stage_writes_two_annotations world) as (S1 & S2 & S3 & S4).
  split; [exact history_has_user|].
  split; [exact (S1 standardOptions [] history_has_user)|].
  split; [exact (S2 standardOptions [])|].
  split; [exact (S3 enhancerOptions [] history_has_user)|].
  exact (S4 enhancerOptions []).
Defined.

(** C2 as stated fails twice. Without a user message the enhancer writes
    nothing at all; and when the model call is rejected the last annotation
    has status 'complete', not 'error'. *)
Lemma stage_announced_status_fails :
  (@LangChain.PromptEnhancerAgent.execute world silentOptions []
     = (Thrown NoUserMessageToEnhance, []) ∧
   ¬ Spec.stageRun "enhance" (Spec.announcedStatus (Thrown NoUserMessageToEnhance)) 0 []
       (Thrown NoUserMessageToEnhance) []) ∧
  (@LangChain.PromptEnhancerAgent.execute broken brokenOptions []
     = (Thrown (External "network down"), brokenTrace) ∧
   status <$> progressEvents brokenTrace = [InProgress; Complete] ∧
   ¬ Spec.stageRun "enhance" (Spec.announcedStatus (Thrown (External "network down"))) 0 []
       (Thrown (External "network down")) brokenTrace).
Proof.
  split; split.
  - vm_compute; reflexivity.
  - intros (s & e & mid & Heq & _). discriminate Heq.
  - vm_compute; reflexivity.
  - split; [vm_compute; reflexivity|].
    intros (s & e & mid & Heq & _).
    apply (f_equal last) in Heq.
    rewrite !app_assoc, last_snoc in Heq. discriminate Heq.
Qed.

(** C3 on a history with a user message and on one without. *)
Lemma enhancer_missing_input_sample :
  Spec.hasUserMessage history ∧
  ¬ Spec.hasUserMessage [systemMsg] ∧
  (@Standard.PromptEnhancerAgent.execute world standardOptions []).1
    ≠ Thrown NoUserMessageToEnhance ∧
  @Standard.PromptEnhancerAgent.execute world standardSilentOptions []
    = (Thrown NoUserMessageToEnhance, []) ∧
  (@LangChain.PromptEnhancerAgent.execute world enhancerOptions []).1
    ≠ Thrown NoUserMessageToEnhance ∧
  @LangChain.PromptEnhancerAgent.execute world silentOptions []
    = (Thrown NoUserMessageToEnhance, []).
Proof.
  destruct (@enhancer_missing_input world) as (S1 & S2 & S3 & S4).
  split; [exact history_has_user|].
  split; [exact silent_has_no_user|].
  split; [exact (S1 standardOptions [] history_has_user)|].
  split; [exact (S2 standardSilentOptions [] silent_has_no_user)|].
  split; [exact (S3 enhancerOptions [] history_has_user)|].
  exact (S4 silentOptions [] silent_has_no_user).
Defined.

(** C4 on the tags of the sample request. *)
Lemma tags_round_trip_sample :
  Spec.tagSafe "gpt-4" = true ∧
  Spec.tagSafe "openai" = true ∧
  Spec.occursIn "[Provider: " "gpt-4" = false ∧
  LangChain.extractModelInfo
    (LangChain.enhancedUserMessage
       {| model := "gpt-4"; providerName := "openai" |} "write a function" "msg-1")
  = {| model := "gpt-4"; providerName := "openai" |} ∧
  Standard.extractModelInfo
    (LangChain.enhancedUserMessage
       {| model := "gpt-4"; providerName := "openai" |} "write a function" "msg-1")
  = {| model := "gpt-4"; providerName := "openai" |}.
Proof.
  split; [reflexivity|]. split; [reflexivity|]. split; [reflexivity|].
  apply tags_round_trip; reflexivity.
Defined.

(** C4 as stated fails: a model name with a closing bracket comes back cut
    at the bracket. *)
Lemma tags_round_trip_fails :
  LangChain.extractModelInfo
    (LangChain.enhancedUserMessage
       {| model := "a]b"; providerName := "openai" |} "write a function" "msg-1")
  = {| model := "a"; providerName := "openai" |} ∧
  LangChain.extractModelInfo
    (LangChain.enhancedUserMessage
       {| model := "a]b"; providerName := "openai" |} "write a function" "msg-1")
  ≠ {| model := "a]b"; providerName := "openai" |}.
Proof. split; [vm_compute; reflexivity | vm_compute; discriminate]. Qed.

(** C5 on the sample request. *)
Lemma generator_gets_replaced_history_sample :
  @LangChain.execute world (@LangChain.agents world PROMPT_ENHANCER)
    {| LangChain.messages := LangChain.OrchestratorOptions.messages options;
       LangChain.context := Spec.stageContext options 0 |} []
    = (Ok enhancerResult, enhancerTrace) ∧
  ∃ newMessage messages' t2,
    role newMessage = user ∧
    content newMessage
      = Plain (Spec.tagged
                 (model (Spec.newestModelInfo (LangChain.OrchestratorOptions.messages options)))
                 (providerName (Spec.newestModelInfo (LangChain.OrchestratorOptions.messages options)))
                 (output enhancerResult)) ∧
    Spec.replacesLastUser (LangChain.OrchestratorOptions.messages options) messages' newMessage ∧
    @LangChain.orchestrateWith world (@LangChain.agents world) options [] =
      Spec.afterGenerator enhancerResult
        (@LangChain.execute world (@LangChain.agents world CODE_GENERATOR)
           {| LangChain.messages := messages';
              LangChain.context :=
                Spec.stageContext options (resultProgressCounter enhancerResult) |}
           t2).
Proof.
  split; [vm_compute; reflexivity|].
  apply (@generator_gets_replaced_history world (@LangChain.agents world) options []
           enhancerResult enhancerTrace).
  vm_compute; reflexivity.
Defined.

(** C6 on the sample request. *)
Lemma orchestration_progress_orders_sample :
  @LangChain.orchestrateLangChainAgents world options []
    = (Ok orchestratorResult, orchestratorTrace) ∧
  ∃ delta,
    orchestratorTrace = [] ++ delta ∧
    order <$> progressEvents delta = [0 + 1; 0 + 1; 0 + 2; 0 + 2] ∧
    label <$> progressEvents delta = ["enhance"; "enhance"; "code-gen"; "code-gen"] ∧
    status <$> progressEvents delta = [InProgress; Complete; InProgress; Complete] ∧
    Spec.nonDecreasing (order <$> progressEvents delta).
Proof.
  split; [vm_compute; reflexivity|].
  apply (@orchestration_progress_orders world options [] orchestratorResult).
  vm_compute; reflexivity.
Defined.

(** C6 as stated fails: on the sample request the progress orders are
    1, 1, 2, 2, which is neither strictly increasing nor a run of
    successors, and does not begin at the initial counter 0. *)
Lemma orchestration_orders_strict_fails :
  @LangChain.orchestrateLangChainAgents world options []
    = (Ok orchestratorResult, orchestratorTrace) ∧
  order <$> progressEvents orchestratorTrace = [1; 1; 2; 2] ∧
  ¬ Spec.strictlyIncreasing (order <$> progressEvents orchestratorTrace) ∧
  ¬ Spec.contiguous (order <$> progressEvents orchestratorTrace).
Proof.
  split; [vm_compute; reflexivity|].
  split; [vm_compute; reflexivity|].
  split; intros Hs; specialize (Hs 0%nat 1 1 eq_refl eq_refl); lia.
Qed.

(** C9 on the provider 'mistral', with and without a process-wide
    Anthropic key; the key handed in is empty. *)
Lemma createLangChainModel_fallback_sample :
  ¬ Spec.recognized "mistral" ∧
  @processEnv anthropicWorld !! "ANTHROPIC_API_KEY" = Some "sk-ant" ∧
  "sk-ant" ≠ EmptyString ∧
  @LangChain.createLangChainModel anthropicWorld "mistral" "mistral-large" EmptyString 0
    = {| chatClass := ChatAnthropic; apiKey := "sk-ant";
         modelName := "claude-3-sonnet-20240229";
         temperature := 0; baseURL := None |} ∧
  (@processEnv world !! "ANTHROPIC_API_KEY" = None ∨
   @processEnv world !! "ANTHROPIC_API_KEY" = Some EmptyString) ∧
  @LangChain.createLangChainModel world "mistral" "mistral-large" EmptyString 0
    = {| chatClass := ChatOpenAI; apiKey := EmptyString;
         modelName := "mistral-large";
         temperature := 0; baseURL := None |}.
Proof.
  assert (@processEnv anthropicWorld !! "ANTHROPIC_API_KEY" = Some "sk-ant")
    as K by (vm_compute; reflexivity).
  assert ("sk-ant" ≠ EmptyString) as N by discriminate.
  assert (@processEnv world !! "ANTHROPIC_API_KEY" = None ∨
          @processEnv world !! "ANTHROPIC_API_KEY" = Some EmptyString)
    as E by (left; vm_compute; reflexivity).
  split; [exact mistral_not_recognized|]. split; [exact K|]. split; [exact N|].
  split.
  - exact (proj1 (@createLangChainModel_fallback anthropicWorld
                    "mistral" "mistral-large" EmptyString 0 mistral_not_recognized)
             "sk-ant" K N).
  - split; [exact E|].
    exact (proj2 (@createLangChainModel_fallback world
                    "mistral" "mistral-large" EmptyString 0 mistral_not_recognized) E).
Defined.

End OnSamples.


(** * Further properties of the pipeline *)

(** ** The LangChain stages, outcome by outcome *)

Section StageRuns.
Context `{Collaborators}.

(** The enhancer on a history whose last user message is [m]: a missing
    key, a rejected call or an answer. *)
Lemma langchain_enhancer_run options t m :
  findLastUser (LangChain.messages options) = Some m →
  let messages := LangChain.messages options in
  let context := LangChain.context options in
  let c := progressCounter context in
  let provider := providerName (Spec.newestModelInfo messages) in
  let prompt := formatPrompt PROMPT_ENHANCER (contentText (content m)) in
  LangChain.PromptEnhancerAgent.execute options t =
  if Js.truthyValue (LangChain.getApiKey context provider) then
    match invokeModel (t ++ [Anatomy.enhancerStart c])
            (Anatomy.stageModel context (Spec.newestModelInfo messages) (2 # 10))
            [HumanMessage prompt] with
    | Fulfilled answer =>
        (Ok {| output := Js.trim answer;
               usage := Some (LangChain.estimatedUsage (String.length prompt)
                                (String.length (Js.trim answer)));
               resultProgressCounter := c + 1 |},
         t ++ [Anatomy.enhancerStart c; Anatomy.enhancerCall messages context m;
               Anatomy.enhancerDone c])
    | Rejected reason =>
        (Thrown (External reason),
         t ++ [Anatomy.enhancerStart c; Anatomy.enhancerCall messages context m;
               Anatomy.enhancerFailed c])
    end
  else
    (Thrown (NoApiKey provider),
     t ++ [Anatomy.enhancerStart c; Anatomy.enhancerFailed c]).
Proof.
  intros Hm. cbv zeta.
  unfold LangChain.PromptEnhancerAgent.execute. rewrite Hm.
  fold (Spec.newestModelInfo (LangChain.messages options)).
  unfold LangChain.invoke. run_monad.
  destruct (Js.truthyValue _); cbn [negb].
  - unfold Anatomy.stageModel, Anatomy.enhancerStart.
    destruct (invokeModel _ _ _); flatten_trace; reflexivity.
  - flatten_trace. reflexivity.
Qed.

(** The generator, likewise; it looks for the user message itself. *)
Lemma langchain_generator_run options t :
  let messages := LangChain.messages options in
  let context := LangChain.context options in
  let c := progressCounter context in
  LangChain.CodeGeneratorAgent.execute options t =
  match findLastUser messages with
  | None =>
      (Thrown NoUserMessageForCodeGeneration,
       t ++ [Anatomy.generatorStart c; Anatomy.generatorFailed c])
  | Some m =>
      let provider := providerName (LangChain.extractModelInfo m) in
      let prompt := formatPrompt CODE_GENERATOR (contentText (content m)) in
      if Js.truthyValue (LangChain.getApiKey context provider) then
        match invokeModel (t ++ [Anatomy.generatorStart c])
                (Anatomy.stageModel context (LangChain.extractModelInfo m) 0)
                [SystemMessage (Anatomy.generatorSystemMessage context);
                 HumanMessage prompt] with
        | Fulfilled answer =>
            (Ok {| output := Js.trim answer;
                   usage := Some (LangChain.estimatedUsage
                                    (String.length (Anatomy.generatorSystemMessage context)
                                     + String.length prompt)
                                    (String.length (Js.trim answer)));
                   resultProgressCounter := c + 1 |},
             t ++ [Anatomy.generatorStart c; Anatomy.generatorCall context m;
                   Anatomy.generatorDone c])
        | Rejected reason =>
            (Thrown (External reason),
             t ++ [Anatomy.generatorStart c; Anatomy.generatorCall context m;
                   Anatomy.generatorFailed c])
        end
      else
        (Thrown (NoApiKey provider),
         t ++ [Anatomy.generatorStart c; Anatomy.generatorFailed c])
  end.
Proof.
  cbv zeta.
  unfold LangChain.CodeGeneratorAgent.execute.
  unfold LangChain.invoke. run_monad.
  destruct (findLastUser _) as [m|]; run_monad.
  - destruct (Js.truthyValue _); cbn [negb]; run_monad.
    + unfold Anatomy.stageModel, Anatomy.generatorStart, Anatomy.generatorCall,
        Anatomy.generatorSystemMessage, Anatomy.stageModel.
      destruct (invokeModel _ _ _); flatten_trace; reflexivity.
    + flatten_trace. reflexivity.
  - flatten_trace. reflexivity.
Qed.

(** What the resolver can return: a string, or, for a provider named like
    an inherited member that [apiKeys] does not hold itself, that member. *)
Lemma getApiKey_value_cases (context : AgentContext) provider :
  (∃ s, LangChain.getApiKey context provider = Js.Text s) ∨
  (LangChain.getApiKey context provider = Js.InheritedMember provider ∧
   provider ∈ Js.inheritedMembers ∧ apiKeys context !! provider = None).
Proof.
  destruct (decide (Js.toLowerCase provider = "anthropic")) as [Ha|Ha];
    [left; eexists; apply getApiKey_recognized; by left|].
  destruct (decide (Js.toLowerCase provider = "openai")) as [Ho|Ho];
    [left; eexists; apply getApiKey_recognized; right; by left|].
  destruct (decide (Js.toLowerCase provider = "groq")) as [Hg|Hg];
    [left; eexists; apply getApiKey_recognized; right; by right|].
  rewrite getApiKey_default by (unfold Spec.recognized; tauto).
  unfold Js.property. destruct (apiKeys context !! provider) as [[|c s]|] eqn:Hown.
  - left. by eexists.
  - left. by eexists.
  - destruct (bool_decide (provider ∈ Js.inheritedMembers)) eqn:Hin.
    + right. apply bool_decide_eq_true in Hin. done.
    + left. by eexists.
Qed.

(** C8, where the code departs from the claim. For a provider named like
    a member of [Object.prototype] ('constructor', 'toString', ...) for
    which [apiKeys] holds no entry of its own, [apiKeys?.[provider]] finds
    the inherited member and the resolver returns it: not a string, not the
    first non-empty value of the three sources, and not the empty string
    when the sources hold nothing. The enhancer's guard [if (!apiKey)] then
    lets the stage through: it does not throw 'No API key available for
    provider: ...' but creates a client with that member as its key and
    calls the model. *)
Theorem getApiKey_inherited_member :
  (∀ (context : AgentContext) provider,
     provider ∈ Js.inheritedMembers →
     apiKeys context !! provider = None →
     LangChain.getApiKey context provider = Js.InheritedMember provider ∧
     LangChain.getApiKey context provider
       ≠ Js.Text (Spec.firstNonEmpty (Spec.keySources context provider))) ∧
  (∀ options t m,
     let messages := LangChain.messages options in
     let context := LangChain.context options in
     let modelInfo := Spec.newestModelInfo messages in
     let provider := providerName modelInfo in
     findLastUser messages = Some m →
     provider ∈ Js.inheritedMembers →
     apiKeys context !! provider = None →
     (LangChain.PromptEnhancerAgent.execute options t).1 ≠ Thrown (NoApiKey provider) ∧
     modelCalls (LangChain.PromptEnhancerAgent.execute options t).2
     = modelCalls t ++
       [Invoke (LangChain.createLangChainModel provider (model modelInfo)
                  (Js.InheritedMember provider) (2 # 10))
               [HumanMessage (formatPrompt PROMPT_ENHANCER (contentText (content m)))]]).
Proof.
  assert (∀ (context : AgentContext) provider,
            provider ∈ Js.inheritedMembers →
            apiKeys context !! provider = None →
            LangChain.getApiKey context provider = Js.InheritedMember provider) as Hkey.
  { intros context provider Hin Hown.
    assert (¬ Spec.recognized provider) as Hn.
    { clear Hown. unfold Js.inheritedMembers in Hin. unfold Spec.recognized.
      repeat (apply elem_of_cons in Hin as [->|Hin];
              [vm_compute; intros [E|[E|E]]; discriminate E|]).
      by apply elem_of_nil in Hin. }
    rewrite getApiKey_default by done.
    by rewrite (property_inherited _ _ Hin Hown). }
  split.
  - intros context provider Hin Hown. by rewrite (Hkey _ _ Hin Hown).
  - intros options t m. cbv zeta. intros Hm Hin Hown.
    rewrite (langchain_enhancer_run options t m Hm). cbv zeta.
    rewrite (Hkey _ _ Hin Hown). cbn [Js.truthyValue].
    unfold Anatomy.enhancerCall, Anatomy.stageModel. rewrite (Hkey _ _ Hin Hown).
    destruct (invokeModel _ _ _); cbn [fst snd];
      (split; [done|]); rewrite modelCalls_app; f_equal.
Qed.


End StageRuns.

(** ** The two searches for the last user message *)

Section TwoSearches.

Lemma findLastUser_snoc l x :
  findLastUser (l ++ [x]) = if decide (role x = user) then Some x else findLastUser l.
Proof.
  unfold findLastUser. rewrite reverse_snoc. cbn [List.find].
  destruct (decide (role x = user)) as [Hx|Hx].
  - by rewrite bool_decide_eq_true_2.
  - by rewrite bool_decide_eq_false_2.
Qed.

(** The agents' search, through the orchestrator's index. *)
Lemma findLastUser_lookup_index (messages : list Message) :
  findLastUser messages = LangChain.lastUserIndex messages ≫= (messages !!.).
Proof.
  induction messages as [|x l IH] using rev_ind; [done|].
  rewrite findLastUser_snoc.
  destruct (decide (role x = user)) as [Hx|Hx].
  - rewrite lastUserIndex_snoc_user by done. cbn. by rewrite list_lookup_middle.
  - rewrite lastUserIndex_snoc_other by done. rewrite IH.
    pose proof (lastUserIndex_spec l) as Hs.
    destruct (LangChain.lastUserIndex l) as [i|]; [|done]. cbn.
    destruct Hs as [(m & Hm & _) _]. rewrite Hm. symmetry. by apply lookup_app_l_Some.
Qed.

(** X1: the message the agents read as the last user message (searching
    the reversed history) is the message at the index the orchestrator
    replaces (the last index whose role is 'user'); both searches find
    nothing on the same histories. *)
Theorem findLastUser_at_lastUserIndex (messages : list Message) :
  (findLastUser messages = LangChain.lastUserIndex messages ≫= (messages !!.))
  ∧ (findLastUser messages = None ↔ LangChain.lastUserIndex messages = None).
Proof.
  split; [apply findLastUser_lookup_index|].
  rewrite findLastUser_lookup_index.
  pose proof (lastUserIndex_spec messages) as Hs.
  destruct (LangChain.lastUserIndex messages) as [i|]; [|done]. cbn.
  destruct Hs as [(m & Hm & _) _]. rewrite Hm. split; discriminate.
Qed.

(** The message at the position of the last user message is what the
    agents find. *)
Lemma findLastUser_of_lastUserAt messages i m :
  Spec.lastUserAt messages i → messages !! i = Some m → findLastUser messages = Some m.
Proof.
  intros Hi Hm. rewrite findLastUser_lookup_index.
  pose proof (lastUserIndex_spec messages) as Hs.
  destruct (LangChain.lastUserIndex messages) as [j|].
  - cbn. by rewrite (lastUserAt_unique _ _ _ Hs Hi).
  - destruct Hs. destruct Hi as [(m' & Hm' & Hr) _].
    exists m'. split; [by eapply list_elem_of_lookup_2 | done].
Qed.

(** After the replace-or-append step the new message is the last user
    message. *)
Lemma findLastUser_messagesWithEnhancedPrompt messages newMessage :
  role newMessage = user →
  findLastUser (LangChain.messagesWithEnhancedPrompt messages newMessage)
  = Some newMessage.
Proof.
  intros Hr. unfold LangChain.messagesWithEnhancedPrompt.
  pose proof (lastUserIndex_spec messages) as Hs.
  destruct (LangChain.lastUserIndex messages) as [k|].
  - pose proof (lastUserAt_lt _ _ Hs) as Hk.
    apply (findLastUser_of_lastUserAt _ k); [|by apply list_lookup_insert_eq].
    split.
    + exists newMessage. split; [by apply list_lookup_insert_eq | done].
    + intros j m Hj Hm. rewrite list_lookup_insert_ne in Hm by lia.
      destruct Hs as [_ Hafter]. by eapply Hafter.
  - rewrite findLastUser_snoc. by rewrite decide_True.
Qed.

End TwoSearches.

(** ** What the tag expressions capture *)

Section Captures.

Lemma stripPrefix_sound p s r : Js.stripPrefix p s = Some r → s = p +:+ r.
Proof.
  revert s. induction p as [|a p IH]; intros s; cbn [Js.stripPrefix].
  - by intros [= ->].
  - destruct s as [|b s]; [done|].
    destruct (Ascii.eqb_spec a b) as [->|]; [|done].
    intros Hr. rewrite append_String. f_equal. by apply IH.
Qed.

Lemma lazyGroup_sound s g :
  Js.lazyGroup s = Some g →
  Spec.tagSafe g = true ∧ ∃ rest, s = g +:+ String "]" rest.
Proof.
  revert g. induction s as [|c s IH]; intros g; cbn [Js.lazyGroup]; [done|].
  destruct (Js.isCloseBracket c) eqn:Hb.
  - intros [= <-]. split; [done|]. exists s.
    destruct c as [[] [] [] [] [] [] [] []]; try discriminate Hb. done.
  - destruct (Js.lineTerminatorAt c s) eqn:Hl; [done|].
    destruct (Js.lazyGroup s) as [g'|]; [|done]. cbn. intros [= <-].
    destruct (IH g' eq_refl) as (Hsafe & rest & ->). split.
    + cbn [Spec.tagSafe]. rewrite lineTerminatorAt_bracket in Hl.
      by rewrite Hb, Hl, Hsafe.
    + by exists rest.
Qed.

(** A capture is free of closing brackets and line terminators, and it
    stands in the text between the opening and a closing bracket. *)
Lemma matchGroup_sound open s g :
  Js.matchGroup open s = Some g →
  Spec.tagSafe g = true ∧
  ∃ before after, s = before +:+ open +:+ g +:+ String "]" after.
Proof.
  induction s as [|c s IH]; rewrite matchGroup_eq; unfold Js.matchHere.
  - destruct (Js.stripPrefix open EmptyString) as [r|] eqn:Hp; [|done].
    cbn [mbind option_bind].
    destruct (Js.lazyGroup r) as [g'|] eqn:Hg; [|done]. intros [= <-].
    apply stripPrefix_sound in Hp. apply lazyGroup_sound in Hg as (Hs & rest & ->).
    split; [done|]. by exists EmptyString, rest.
  - destruct (Js.stripPrefix open (String c s)) as [r|] eqn:Hp; cbn [mbind option_bind].
    + destruct (Js.lazyGroup r) as [g'|] eqn:Hg.
      * intros [= <-]. apply stripPrefix_sound in Hp.
        apply lazyGroup_sound in Hg as (Hs & rest & ->).
        split; [done|]. by exists EmptyString, rest.
      * intros Hrec. destruct (IH Hrec) as (Hs & before & after & ->).
        split; [done|]. by exists (String c before), after.
    + intros Hrec. destruct (IH Hrec) as (Hs & before & after & ->).
      split; [done|]. by exists (String c before), after.
Qed.

(** Without the opening there is no capture. *)
Lemma matchGroup_absent open s :
  Spec.occursIn open s = false → Js.matchGroup open s = None.
Proof.
  induction s as [|c s IH]; rewrite matchGroup_eq; unfold Js.matchHere;
    cbn [Spec.occursIn]; by destruct (Js.stripPrefix open _).
Qed.

(** Resolved names are free of closing brackets and line terminators. *)
Lemma extractModelInfo_tagSafe (message : Message) :
  Spec.tagSafe (model (LangChain.extractModelInfo message)) = true ∧
  Spec.tagSafe (providerName (LangChain.extractModelInfo message)) = true ∧
  Spec.tagSafe (model (Standard.extractModelInfo message)) = true ∧
  Spec.tagSafe (providerName (Standard.extractModelInfo message)) = true.
Proof.
  unfold LangChain.extractModelInfo, Standard.extractModelInfo.
  cbn [model providerName]. unfold Js.matchModel, Js.matchProvider.
  destruct (Js.matchGroup "[Model: " _) as [M|] eqn:HM;
    destruct (Js.matchGroup "[Provider: " _) as [P|] eqn:HP; cbn [default];
    try (apply matchGroup_sound in HM as (HMs & HMt));
    try (apply matchGroup_sound in HP as (HPs & HPt)); done.
Qed.

(** X2: a resolved model or provider name never contains a closing bracket
    or a line terminator; it is either the implementation's default (and
    then no tag could be matched) or the text found in the message between
    '[Model: ' (or '[Provider: ') and a closing bracket; a message whose
    text has no '[Model: ' (no '[Provider: ') resolves to the default. The
    two implementations read the same tags and differ in the defaults:
    'gpt-4o' and 'OpenAI' for LangChain, 'gpt-4' and 'openai' for the
    standard enhancer. *)
Theorem extractModelInfo_sound (message : Message) :
  let text := contentText (content message) in
  let lc := LangChain.extractModelInfo message in
  let st := Standard.extractModelInfo message in
  (Spec.tagSafe (model lc) = true ∧ Spec.tagSafe (providerName lc) = true ∧
   Spec.tagSafe (model st) = true ∧ Spec.tagSafe (providerName st) = true) ∧
  ((Js.matchModel text = None ∧ model lc = "gpt-4o" ∧ model st = "gpt-4") ∨
   (model st = model lc ∧
    ∃ before after, text = before +:+ "[Model: " +:+ model lc +:+ String "]" after)) ∧
  ((Js.matchProvider text = None ∧ providerName lc = "OpenAI" ∧ providerName st = "openai") ∨
   (providerName st = providerName lc ∧
    ∃ before after,
      text = before +:+ "[Provider: " +:+ providerName lc +:+ String "]" after)) ∧
  (Spec.occursIn "[Model: " text = false → model lc = "gpt-4o" ∧ model st = "gpt-4") ∧
  (Spec.occursIn "[Provider: " text = false →
     providerName lc = "OpenAI" ∧ providerName st = "openai").
Proof.
  cbv zeta. unfold LangChain.extractModelInfo, Standard.extractModelInfo.
  cbn [model providerName]. unfold Js.matchModel, Js.matchProvider.
  set (text := contentText (content message)).
  destruct (Js.matchGroup "[Model: " text) as [M|] eqn:HM;
    destruct (Js.matchGroup "[Provider: " text) as [P|] eqn:HP; cbn [default];
    try (pose proof (matchGroup_sound _ _ _ HM) as (HMs & HMt));
    try (pose proof (matchGroup_sound _ _ _ HP) as (HPs & HPt)).
  - split; [done|]. split; [right; by split|]. split; [right; by split|].
    split; intros Ho; apply matchGroup_absent in Ho; congruence.
  - split; [done|]. split; [right; by split|]. split; [left; by repeat split|].
    split; [|done]. intros Ho; apply matchGroup_absent in Ho; congruence.
  - split; [done|]. split; [left; by repeat split|]. split; [right; by split|].
    split; [done|]. intros Ho; apply matchGroup_absent in Ho; congruence.
  - split; [done|]. split; [left; by repeat split|]. split; [left; by repeat split|].
    done.
Qed.

(** X3: resolving, embedding and resolving again is stable: for every
    message, if the model name it resolves to does not contain the text
    '[Provider: ', then the message the orchestrator builds around the
    resolved names (with any text after the tags) resolves to the same
    model and provider. *)
Theorem extract_embed_extract (message : Message) (text newId : string) :
  let modelInfo := LangChain.extractModelInfo message in
  Spec.occursIn "[Provider: " (model modelInfo) = false →
  LangChain.extractModelInfo (LangChain.enhancedUserMessage modelInfo text newId)
  = modelInfo.
Proof.
  intros modelInfo Hocc.
  destruct (extractModelInfo_tagSafe message) as (HM & HP & _).
  fold modelInfo in HM, HP.
  unfold LangChain.extractModelInfo at 1, LangChain.enhancedUserMessage.
  cbn [content contentText].
  fold (Spec.tagged (model modelInfo) (providerName modelInfo) text).
  rewrite matchModel_tagged, matchProvider_tagged by done.
  by destruct modelInfo.
Qed.

End Captures.

(** ** A request, outcome by outcome *)

Section Requests.
Context `{Collaborators}.

Lemma truthy_not_empty s : Js.truthy s = true ↔ s ≠ EmptyString.
Proof. by destruct s. Qed.

Lemma truthy_empty s : Js.truthy s = false ↔ s = EmptyString.
Proof. by destruct s. Qed.

(** Every run of the orchestrator is one of the runs of [OrchestrationRun]. *)
Lemma orchestration_run (options : LangChain.OrchestratorOptions.t) t :
  Anatomy.OrchestrationRun options t (LangChain.orchestrateLangChainAgents options t).
Proof.
  unfold LangChain.orchestrateLangChainAgents. rewrite orchestrateWith_run.
  cbv zeta. cbn [LangChain.agents LangChain.execute].
  set (messages := LangChain.OrchestratorOptions.messages options).
  destruct (findLastUser messages) as [m|] eqn:Hm.
  2:{ unfold LangChain.PromptEnhancerAgent.execute. cbn [LangChain.messages].
      fold messages. rewrite Hm. by constructor. }
  rewrite (langchain_enhancer_run _ t m) by done.
  cbv zeta. cbn [LangChain.messages LangChain.context].
  cbn [Spec.stageContext progressCounter]. fold messages.
  fold (Spec.stageContext options 0).
  destruct (Js.truthyValue _) eqn:Hkey.
  2:{ apply truthyValue_empty in Hkey. by apply (Anatomy.RunEnhancerWithoutKey options t m). }
  apply truthyValue_not_empty in Hkey.
  destruct (invokeModel _ _ _) as [answer|reason].
  2:{ by apply (Anatomy.RunEnhancerRejected options t m). }
  cbn [output usage resultProgressCounter].
  rewrite <- !app_assoc. cbn [app].
  rewrite langchain_generator_run. cbv zeta.
  cbn [LangChain.messages LangChain.context]. cbn [Spec.stageContext progressCounter].
  rewrite findLastUser_messagesWithEnhancedPrompt by done.
  change (0 + 1) with 1. fold (Spec.stageContext options 1).
  eapply (Anatomy.RunGenerator options t m answer); [done..|].
  destruct (Js.truthyValue _) eqn:Hkey2.
  2:{ apply truthyValue_empty in Hkey2. by apply Anatomy.GeneratorWithoutKey. }
  apply truthyValue_not_empty in Hkey2.
  destruct (invokeModel _ _ _) as [answer2|reason2].
  - rewrite combinedUsage_sum. by apply Anatomy.GeneratorAnswered.
  - by apply Anatomy.GeneratorRejected.
Qed.

Lemma hasUser_of_findLastUser messages m :
  findLastUser messages = Some m → Spec.hasUserMessage messages.
Proof. intros Hm. apply findLastUser_user in Hm as [Hin Hr]. by exists m. Qed.

Lemma noUser_of_findLastUser messages :
  findLastUser messages = None → ¬ Spec.hasUserMessage messages.
Proof. intros Hn Hu. apply findLastUser_Some in Hu as [m Hm]. congruence. Qed.

(** Evaluate the views of a trace that is an explicit list of pieces. *)
Ltac view_trace :=
  unfold Anatomy.enhancerStart, Anatomy.enhancerDone, Anatomy.enhancerFailed,
    Anatomy.generatorStart, Anatomy.generatorDone, Anatomy.generatorFailed,
    Anatomy.enhancerCall, Anatomy.generatorCall,
    progressEvents, written, modelCalls;
  cbn [omap list_omap List.filter isModelCall app fmap list_fmap
       Anatomy.eventKind LangChain.createProgressAnnotation
       label status order message decide decide_rel Status_eq_dec
       Status_rec Status_rect sumbool_rec sumbool_rect].

(** X4: what a request leaves on the sink. Without a user message nothing
    is written and the missing-input error is thrown. When the enhancer
    stage fails the sink holds its two annotations and nothing else. When
    it succeeds the sink holds, in this order, the two 'enhance'
    annotations, one prompt-comparison event (its original being the text
    of the last user message), and the two 'code-gen' annotations, whether
    the generator succeeds or fails; a result is returned only in this last
    case. Statuses alternate 'in-progress', 'complete'. *)
Theorem orchestration_sink (options : LangChain.OrchestratorOptions.t) t :
  let messages := LangChain.OrchestratorOptions.messages options in
  let run := LangChain.orchestrateLangChainAgents options t in
  (¬ Spec.hasUserMessage messages ∧ run = (Thrown NoUserMessageToEnhance, t)) ∨
  (Spec.hasUserMessage messages ∧
   ∃ delta,
     run.2 = t ++ delta ∧
     ((∃ e, run.1 = Thrown e ∧
            Anatomy.eventKind <$> written delta = ["enhance"; "enhance"] ∧
            status <$> progressEvents delta = [InProgress; Complete]) ∨
      (∃ enhanced,
         Anatomy.eventKind <$> written delta
           = ["enhance"; "enhance"; "prompt-comparison"; "code-gen"; "code-gen"] ∧
         status <$> progressEvents delta
           = [InProgress; Complete; InProgress; Complete] ∧
         written delta !! 2%nat
           = Some (PromptComparison
                     (LangChain.originalPromptText (findLastUser messages)) enhanced)))).
Proof.
  cbv zeta.
  destruct (orchestration_run options t)
    as [Hn | m msgs mi Hm Hk | m reason msgs mi Hm Hk
        | m answer newId outcome msgs mi enhanced newMessage enhancerUsage t2 Hm Hk G].
  - left. split; [by apply noUser_of_findLastUser | done].
  - right. split; [by eapply hasUser_of_findLastUser|].
    eexists. split; [reflexivity|]. left. eexists. split; [reflexivity|].
    view_trace. done.
  - right. split; [by eapply hasUser_of_findLastUser|].
    eexists. split; [reflexivity|]. left. eexists. split; [reflexivity|].
    view_trace. done.
  - right. split; [by eapply hasUser_of_findLastUser|].
    subst msgs. rewrite Hm.
    destruct G as [Hk2 | reason Hk2 | answer2 generatorUsage Hk2]; cbn [fst snd];
      subst t2; rewrite <- app_assoc; (eexists; split; [reflexivity|]); right;
      exists enhanced; view_trace; done.
Qed.

(** X5: no stage is retried. A request calls a model at most twice, once
    per stage and through [llm.invoke] only; it calls none when the history
    has no user message or when, for a resolved provider of ASCII name, the
    resolver returns the empty string; and exactly two when it returns a
    result. *)
Theorem orchestration_model_calls (options : LangChain.OrchestratorOptions.t) t :
  let run := LangChain.orchestrateLangChainAgents options t in
  ∃ delta,
    run.2 = t ++ delta ∧
    (modelCalls delta = [] ∨
     (∃ llm sent, modelCalls delta = [Invoke llm sent]) ∨
     (∃ llm sent llm' sent',
        modelCalls delta = [Invoke llm sent; Invoke llm' sent'])) ∧
    (∀ res, run.1 = Ok res → length (modelCalls delta) = 2%nat) ∧
    (¬ Spec.hasUserMessage (LangChain.OrchestratorOptions.messages options) →
       delta = []) ∧
    (Js.isAscii
       (providerName (Spec.newestModelInfo (LangChain.OrchestratorOptions.messages options)))
     = true →
     LangChain.getApiKey (Spec.stageContext options 0)
       (providerName (Spec.newestModelInfo (LangChain.OrchestratorOptions.messages options)))
     = EmptyString →
       modelCalls delta = []).
Proof.
  cbv zeta.
  destruct (orchestration_run options t)
    as [Hn | m msgs mi Hm Hk | m reason msgs mi Hm Hk
        | m answer newId outcome msgs mi enhanced newMessage enhancerUsage t2 Hm Hk G].
  - exists []. split; [by rewrite app_nil_r|]. split; [by left|]. done.
  - eexists. split; [reflexivity|]. view_trace. split; [by left|].
    split; [done|]. split; [|done].
    intros Hu. destruct Hu. by eapply hasUser_of_findLastUser.
  - eexists. split; [reflexivity|]. view_trace. split; [right; left; by eexists _, _|].
    split; [done|]. split; [|done].
    intros Hu. destruct Hu. by eapply hasUser_of_findLastUser.
  - assert (Spec.hasUserMessage msgs) as Hu by (by eapply hasUser_of_findLastUser).
    destruct G as [Hk2 | reason Hk2 | answer2 generatorUsage Hk2]; cbn [fst snd];
      subst t2; rewrite <- app_assoc; (eexists; split; [reflexivity|]); view_trace.
    + split; [right; left; by eexists _, _|]. split; [done|].
      split; [intros Hn; by destruct Hn | done].
    + split; [right; right; by eexists _, _, _, _|]. split; [done|].
      split; [intros Hn; by destruct Hn | done].
    + split; [right; right; by eexists _, _, _, _|]. split; [done|].
      split; [intros Hn; by destruct Hn | done].
Qed.

(** The key of a stage's client, when the resolver's result is truthy. *)
Lemma stageModel_key (context : AgentContext) modelInfo temperature :
  LangChain.getApiKey context (providerName modelInfo) ≠ EmptyString →
  (∃ s, apiKey (Anatomy.stageModel context modelInfo temperature) = Js.Text s
        ∧ s ≠ EmptyString) ∨
  (∃ name, apiKey (Anatomy.stageModel context modelInfo temperature)
             = Js.InheritedMember name
           ∧ name ∈ Js.inheritedMembers ∧ apiKeys context !! name = None).
Proof.
  intros Hk.
  assert ((∃ s, LangChain.getApiKey context (providerName modelInfo) = Js.Text s
                ∧ s ≠ EmptyString) ∨
          (∃ name, LangChain.getApiKey context (providerName modelInfo)
                     = Js.InheritedMember name
                   ∧ name ∈ Js.inheritedMembers ∧ apiKeys context !! name = None))
    as Hvalue.
  { destruct (getApiKey_value_cases context (providerName modelInfo))
      as [[s Hs]|(Hi & Hin & Hown)].
    - left. exists s. split; [done|]. intros ->. by rewrite Hs in Hk.
    - right. by eexists. }
  unfold Anatomy.stageModel, LangChain.createLangChainModel.
  repeat (destruct (String.eqb _ _); [done|]).
  destruct (Js.truthy _) eqn:Hp; cbn [apiKey]; [|done].
  left. eexists. split; [done|]. by apply truthy_not_empty.
Qed.

(** X6: a model is never called with a falsy API key. Every client a
    request invokes was created with a non-empty string as its key, or,
    when the provider is named like a member of [Object.prototype] and
    [apiKeys] holds no entry of its own for it, with that inherited member,
    which is no key at all; this also when the provider is not a recognized
    one and the client is a fallback. *)
Theorem invoked_clients_have_keys (options : LangChain.OrchestratorOptions.t) t :
  ∃ delta,
    (LangChain.orchestrateLangChainAgents options t).2 = t ++ delta ∧
    ∀ llm sent, Invoke llm sent ∈ delta →
      (∃ s, apiKey llm = Js.Text s ∧ s ≠ EmptyString) ∨
      (∃ name, apiKey llm = Js.InheritedMember name
               ∧ name ∈ Js.inheritedMembers
               ∧ LangChain.OrchestratorOptions.apiKeys options !! name = None).
Proof.
  destruct (orchestration_run options t)
    as [Hn | m msgs mi Hm Hk | m reason msgs mi Hm Hk
        | m answer newId outcome msgs mi enhanced newMessage enhancerUsage t2 Hm Hk G].
  - exists []. split; [by rewrite app_nil_r|]. intros llm sent Hin. by apply elem_of_nil in Hin.
  - eexists. split; [reflexivity|]. intros llm sent Hin.
    unfold Anatomy.enhancerStart, Anatomy.enhancerFailed in Hin.
    repeat (apply elem_of_cons in Hin as [Hin|Hin]; [discriminate Hin|]).
    by apply elem_of_nil in Hin.
  - eexists. split; [reflexivity|]. intros llm sent Hin.
    unfold Anatomy.enhancerStart, Anatomy.enhancerFailed, Anatomy.enhancerCall in Hin.
    apply elem_of_cons in Hin as [Hin|Hin]; [discriminate Hin|].
    apply elem_of_cons in Hin as [Hin|Hin];
      [injection Hin as -> _; by apply (stageModel_key (Spec.stageContext options 0))|].
    apply elem_of_cons in Hin as [Hin|Hin]; [discriminate Hin|].
    by apply elem_of_nil in Hin.
  - destruct G as [Hk2 | reason Hk2 | answer2 generatorUsage Hk2]; cbn [fst snd];
      subst t2; rewrite <- app_assoc; (eexists; split; [reflexivity|]);
      intros llm sent Hin;
      unfold Anatomy.enhancerStart, Anatomy.enhancerDone, Anatomy.enhancerCall,
        Anatomy.generatorStart, Anatomy.generatorDone, Anatomy.generatorFailed,
        Anatomy.generatorCall in Hin;
      cbn [app] in Hin;
      repeat (apply elem_of_cons in Hin as [Hin|Hin];
              [first [discriminate Hin
                     | injection Hin as -> _;
                       first [by apply (stageModel_key (Spec.stageContext options 0))
                             | by apply (stageModel_key (Spec.stageContext options 1))]]|]);
      by apply elem_of_nil in Hin.
Qed.

(** The names the orchestrator resolves are safe to embed. *)
Lemma newestModelInfo_tagSafe messages :
  Spec.tagSafe (model (Spec.newestModelInfo messages)) = true ∧
  Spec.tagSafe (providerName (Spec.newestModelInfo messages)) = true.
Proof.
  unfold Spec.newestModelInfo. destruct (last messages) as [lastMessage|]; [|done].
  destruct (extractModelInfo_tagSafe lastMessage) as (HM & HP & _). done.
Qed.

Lemma embedded_tags_resolve modelInfo text newId :
  Spec.tagSafe (model modelInfo) = true →
  Spec.tagSafe (providerName modelInfo) = true →
  Spec.occursIn "[Provider: " (model modelInfo) = false →
  LangChain.extractModelInfo (LangChain.enhancedUserMessage modelInfo text newId)
  = modelInfo.
Proof.
  intros HM HP Hocc.
  unfold LangChain.extractModelInfo, LangChain.enhancedUserMessage.
  cbn [content contentText].
  fold (Spec.tagged (model modelInfo) (providerName modelInfo) text).
  rewrite matchModel_tagged, matchProvider_tagged by done.
  by destruct modelInfo.
Qed.

(** X7: both stages of a request talk to the same model. If the model name
    resolved from the newest message does not contain the text
    '[Provider: ', then in every request that returns a result the two
    model calls go to clients built from that same provider, model and key,
    at temperature 0.2 for the enhancer and 0 for the generator; and the
    generator's prompt is formatted from the enhanced text with the two
    tags still in front of it. *)
Theorem stages_share_the_model (options : LangChain.OrchestratorOptions.t) t res t' :
  let messages := LangChain.OrchestratorOptions.messages options in
  let modelInfo := Spec.newestModelInfo messages in
  let context := Spec.stageContext options 0 in
  Spec.occursIn "[Provider: " (model modelInfo) = false →
  LangChain.orchestrateLangChainAgents options t = (Ok res, t') →
  ∃ delta m enhanced systemMessage,
    t' = t ++ delta ∧
    findLastUser messages = Some m ∧
    modelCalls delta =
      [ Invoke (Anatomy.stageModel context modelInfo (2 # 10))
               [HumanMessage (formatPrompt PROMPT_ENHANCER (contentText (content m)))];
        Invoke (Anatomy.stageModel context modelInfo 0)
               [SystemMessage systemMessage;
                HumanMessage (formatPrompt CODE_GENERATOR
                  (Spec.tagged (model modelInfo) (providerName modelInfo) enhanced))] ].
Proof.
  cbv zeta. intros Hocc.
  destruct (orchestration_run options t)
    as [Hn | m msgs mi Hm Hk | m reason msgs mi Hm Hk
        | m answer newId outcome msgs mi enhanced newMessage enhancerUsage t2 Hm Hk G];
    try done.
  destruct G as [Hk2 | reason Hk2 | answer2 generatorUsage Hk2]; try done.
  intros [= <- <-]. subst t2. rewrite <- app_assoc.
  eexists _, m, enhanced, _. split; [reflexivity|]. split; [done|].
  view_trace.
  destruct (newestModelInfo_tagSafe msgs) as [HM HP].
  subst newMessage. rewrite embedded_tags_resolve by done.
  reflexivity.
Qed.

(** X8: the usage a request returns is that of two estimates added up: its
    three counts are non-negative, and its total lies between
    promptTokens + completionTokens - 2 and promptTokens + completionTokens
    (each stage's total may fall one short of the sum of its parts). *)
Theorem orchestrated_usage_bounds (options : LangChain.OrchestratorOptions.t) t res t' :
  LangChain.orchestrateLangChainAgents options t = (Ok res, t') →
  let u := LangChain.OrchestratorResult.usage res in
  0 <= promptTokens u ∧ 0 <= completionTokens u ∧ 0 <= totalTokens u ∧
  promptTokens u + completionTokens u - 2 <= totalTokens u ∧
  totalTokens u <= promptTokens u + completionTokens u.
Proof.
  destruct (orchestration_run options t)
    as [Hn | m msgs mi Hm Hk | m reason msgs mi Hm Hk
        | m answer newId outcome msgs mi enhanced newMessage enhancerUsage t2 Hm Hk G];
    try done.
  destruct G as [Hk2 | reason Hk2 | answer2 generatorUsage Hk2]; try done.
  intros [= <- <-]. cbn [LangChain.OrchestratorResult.usage].
  subst enhancerUsage generatorUsage.
  match goal with
  | |- context [Spec.addUsage (LangChain.estimatedUsage ?p1 ?c1)
                              (LangChain.estimatedUsage ?p2 ?c2)] =>
      pose proof (estimatedUsage_arith p1 c1) as A1;
      pose proof (estimatedUsage_arith p2 c2) as A2
  end.
  cbv zeta in A1, A2. unfold Spec.isCeilingOfQuarter in A1, A2.
  unfold Spec.addUsage. cbn [promptTokens completionTokens totalTokens].
  lia.
Qed.

(** X9: on a history without a user message the LangChain code generator
    throws its own missing-input error, but only after the 'in-progress'
    annotation is written, so that the sink receives both annotations (the
    last one with status 'complete'); no model is called. *)
Theorem generator_without_user_message options t :
  ¬ Spec.hasUserMessage (LangChain.messages options) →
  ∃ delta,
    LangChain.CodeGeneratorAgent.execute options t
      = (Thrown NoUserMessageForCodeGeneration, t ++ delta) ∧
    modelCalls delta = [] ∧
    label <$> progressEvents delta = ["code-gen"; "code-gen"] ∧
    status <$> progressEvents delta = [InProgress; Complete] ∧
    order <$> progressEvents delta
      = [progressCounter (LangChain.context options) + 1;
         progressCounter (LangChain.context options) + 1] ∧
    length (written delta) = 2%nat.
Proof.
  intros Hn. apply findLastUser_None in Hn.
  rewrite langchain_generator_run. cbv zeta. rewrite Hn.
  eexists. split; [reflexivity|]. view_trace. done.
Qed.

(** What the standard code generator requests, whatever the files and
    the collaborators. *)
Lemma standard_generator_trace options t :
  let messages := Standard.messages options in
  let context := Standard.context options in
  let sys := Standard.effectiveSystem Standard.generatorSystem
               (Standard.streamingOptions options) in
  ∃ delta,
    (Standard.CodeGeneratorAgent.execute options t).2 = t ++ delta ∧
    (∀ call, StreamText call ∈ delta →
       st_system call = sys ∧
       (st_messages call = messages ∨
        ∃ contextMessage,
          st_messages call = messages ++ [contextMessage] ∧
          role contextMessage = system)) ∧
    (∀ selected, SelectContext selected ∈ delta →
       selected = messages ∧
       contextOptimization context = Some true ∧
       hasFiles (files context) ≠ None) ∧
    (hasFiles (files context) = None →
       modelCalls delta = [StreamText {| st_messages := messages; st_system := sys |}]) ∧
    (length (modelCalls delta) <= 2)%nat.
Proof.
  cbv zeta. unfold Standard.CodeGeneratorAgent.execute,
    Standard.CodeGeneratorAgent.prepareContext, Standard.callStreamText.
  run_monad.
  destruct (hasFiles _) as [fs|]; run_monad.
  - destruct (contextOptimization _) as [[|]|]; run_monad.
    + destruct (selectContext _ _ _ _ _ _ _ _) as [sel|]; run_monad.
      * destruct (Js.truthy sel); run_monad;
          destruct (streamText _ _ _ _ _ _ _); run_monad; cbn [snd];
          rewrite <- !app_assoc; cbn [app];
          (eexists; split; [reflexivity|]);
          (split; [intros call Hin;
                   repeat (apply elem_of_cons in Hin as [Hin|Hin];
                           [first [discriminate Hin | injection Hin as ->; cbn [st_system st_messages]; eauto]|]);
                   by apply elem_of_nil in Hin|]);
          (split; [intros selected Hin;
                   repeat (apply elem_of_cons in Hin as [Hin|Hin];
                           [first [discriminate Hin | by injection Hin as ->]|]);
                   by apply elem_of_nil in Hin|]);
          (split; [done|]); cbn; lia.
      * cbn [snd]. rewrite <- !app_assoc; cbn [app].
        eexists; split; [reflexivity|].
        split; [intros call Hin;
                repeat (apply elem_of_cons in Hin as [Hin|Hin]; [discriminate Hin|]);
                by apply elem_of_nil in Hin|].
        split; [intros selected Hin;
                repeat (apply elem_of_cons in Hin as [Hin|Hin];
                        [first [discriminate Hin | by injection Hin as ->]|]);
                by apply elem_of_nil in Hin|].
        split; [done|]. cbn; lia.
    + destruct (Js.truthy _); run_monad;
        destruct (streamText _ _ _ _ _ _ _); run_monad; cbn [snd];
        rewrite <- !app_assoc; cbn [app];
        (eexists; split; [reflexivity|]);
        (split; [intros call Hin;
                 repeat (apply elem_of_cons in Hin as [Hin|Hin];
                         [first [discriminate Hin | injection Hin as ->; cbn [st_system st_messages]; eauto]|]);
                 by apply elem_of_nil in Hin|]);
        (split; [intros selected Hin;
                 repeat (apply elem_of_cons in Hin as [Hin|Hin]; [discriminate Hin|]);
                 by apply elem_of_nil in Hin|]);
        (split; [done|]); cbn; lia.
    + destruct (Js.truthy _); run_monad;
        destruct (streamText _ _ _ _ _ _ _); run_monad; cbn [snd];
        rewrite <- !app_assoc; cbn [app];
        (eexists; split; [reflexivity|]);
        (split; [intros call Hin;
                 repeat (apply elem_of_cons in Hin as [Hin|Hin];
                         [first [discriminate Hin | injection Hin as ->; cbn [st_system st_messages]; eauto]|]);
                 by apply elem_of_nil in Hin|]);
        (split; [intros selected Hin;
                 repeat (apply elem_of_cons in Hin as [Hin|Hin]; [discriminate Hin|]);
                 by apply elem_of_nil in Hin|]);
        (split; [done|]); cbn; lia.
  - cbn [Js.truthy]. run_monad.
    destruct (streamText _ _ _ _ _ _ _); run_monad; cbn [snd];
      rewrite <- !app_assoc; cbn [app];
      (eexists; split; [reflexivity|]);
      (split; [intros call Hin;
               repeat (apply elem_of_cons in Hin as [Hin|Hin];
                       [first [discriminate Hin | injection Hin as ->; cbn [st_system st_messages]; eauto]|]);
               by apply elem_of_nil in Hin|]);
      (split; [intros selected Hin;
               repeat (apply elem_of_cons in Hin as [Hin|Hin]; [discriminate Hin|]);
               by apply elem_of_nil in Hin|]);
      (split; [done|]); cbn; lia.
Qed.

(** X10: the standard code generator never rewrites the history it is
    given. Whatever the files and the collaborators, the messages of its
    [streamText] call are the history itself, or the history followed by
    one message of role 'system' (the files context); the [system] option
    is the generator's fixed instruction unless the streaming options carry
    a [system] of their own, which then replaces it; context selection is
    requested only when there are files and optimisation is on, and for
    the unchanged history; without files the model is called once, with
    the history as it is. *)
Theorem standard_generator_calls options t :
  let messages := Standard.messages options in
  let context := Standard.context options in
  let sys := Standard.effectiveSystem Standard.generatorSystem
               (Standard.streamingOptions options) in
  ∃ delta,
    (Standard.CodeGeneratorAgent.execute options t).2 = t ++ delta ∧
    (∀ call, StreamText call ∈ delta →
       st_system call = sys ∧
       (st_messages call = messages ∨
        ∃ contextMessage,
          st_messages call = messages ++ [contextMessage] ∧
          role contextMessage = system)) ∧
    (∀ selected, SelectContext selected ∈ delta →
       selected = messages ∧
       contextOptimization context = Some true ∧
       hasFiles (files context) ≠ None) ∧
    (hasFiles (files context) = None →
       modelCalls delta = [StreamText {| st_messages := messages; st_system := sys |}]) ∧
    (length (modelCalls delta) <= 2)%nat ∧
    (Standard.streamingOptions options ≫= systemOf = None →
       sys = Some Standard.generatorSystem) ∧
    (∀ replacement,
       Standard.streamingOptions options ≫= systemOf = Some replacement →
       sys = replacement).
Proof.
  cbv zeta.
  destruct (standard_generator_trace options t) as (delta & Ht & Hc & Hs & Hf & Hl).
  exists delta. split; [exact Ht|]. split; [exact Hc|]. split; [exact Hs|].
  split; [exact Hf|]. split; [exact Hl|]. split.
  - intros Hno. unfold Standard.effectiveSystem. by rewrite Hno.
  - intros replacement Hr. unfold Standard.effectiveSystem. by rewrite Hr.
Qed.

(** X11: the three recognized providers are matched whatever the case of
    the name: two spellings of a recognized provider that agree up to case
    resolve the same key from the same context and build the same client. *)
Theorem recognized_provider_any_case context provider provider' model key temperature :
  Spec.recognized provider →
  Js.toLowerCase provider' = Js.toLowerCase provider →
  LangChain.getApiKey context provider' = LangChain.getApiKey context provider ∧
  LangChain.createLangChainModel provider' model key temperature
  = LangChain.createLangChainModel provider model key temperature.
Proof.
  intros Hr Heq. unfold LangChain.getApiKey, LangChain.createLangChainModel.
  rewrite Heq.
  destruct Hr as [Hr|[Hr|Hr]]; rewrite Hr; done.
Qed.

(** The progress annotations a request adds: none carries a label of the
    chat route or the status 'error', and a successful request adds the
    four of its two stages. *)
Lemma orchestration_progress (options : LangChain.OrchestratorOptions.t) t :
  let run := LangChain.orchestrateLangChainAgents options t in
  ∃ delta,
    run.2 = t ++ delta ∧
    Forall (fun a => ChatRoute.ownLabel a = false ∧ status a ≠ Error)
           (progressEvents delta) ∧
    (∀ res, run.1 = Ok res →
       (fun a => (label a, order a)) <$> progressEvents delta
       = [("enhance", 1); ("enhance", 1); ("code-gen", 2); ("code-gen", 2)]).
Proof.
  cbv zeta.
  destruct (orchestration_run options t)
    as [Hn | m msgs mi Hm Hk | m reason msgs mi Hm Hk
        | m answer newId outcome msgs mi enhanced newMessage enhancerUsage t2 Hm Hk G].
  - exists []. split; [by rewrite app_nil_r|]. split; [constructor|done].
  - eexists. split; [reflexivity|]. view_trace. split; [|done].
    repeat constructor; done.
  - eexists. split; [reflexivity|]. view_trace. split; [|done].
    repeat constructor; done.
  - destruct G as [Hk2 | reason Hk2 | answer2 generatorUsage Hk2]; cbn [fst snd];
      subst t2; rewrite <- app_assoc; (eexists; split; [reflexivity|]); view_trace;
      (split; [repeat constructor; done | done]).
Qed.

End Requests.

(** ** llm/utils.ts *)

Section LlmUtilsFacts.

(** [ensureString] on a string, as the orchestrator uses it. *)
Local Abbreviation ensureStringOfString := ensureString (only parsing).

Import LlmUtils.

(** X12: [ensureString] looks through any number of thenables: a value
    behind [n] resolving thenables is converted like the value itself, a
    string comes back unchanged (as the orchestrator relies on), a
    rejection at any depth gives '[Error resolving promise]', and a value
    in which no object occurs always gives a string. *)
Theorem ensureString_through_thenables (n : nat) (v : JsValue) :
  LlmUtils.ensureString (layers n v) = LlmUtils.ensureString v ∧
  (∀ s, LlmUtils.ensureString (layers n (JsString s)) = Some (ensureStringOfString s)) ∧
  LlmUtils.ensureString (layers n JsRejecting) = Some "[Error resolving promise]" ∧
  (objectFree v → is_Some (LlmUtils.ensureString v)).
Proof.
  assert (∀ w, LlmUtils.ensureString (layers n w) = LlmUtils.ensureString w) as Hl.
  { intros w. induction n as [|k IH]; [done|]. exact IH. }
  split; [apply Hl|]. split; [intros s; by rewrite Hl|]. split; [by rewrite Hl|].
  induction v as [s| | |w IH| |stringified keys|stringified|shown]; cbn; try done;
    try (intros _; by eexists).
  intros _. destruct shown; by eexists.
Qed.

Lemma getRequiredApiKey_recognized provider :
  Spec.recognized provider →
  getRequiredApiKey provider = Some (Spec.envKeyName provider).
Proof.
  unfold Spec.recognized, getRequiredApiKey, Spec.envKeyName.
  intros [Hr|[Hr|Hr]]; rewrite (toUpperCase_of_lower _ _ Hr), Hr; done.
Qed.

(** X13: the connection test passes exactly when the provider needs no key
    (ollama and every provider the table does not list) or the key map
    holds, under the provider's environment-style name, a key of at least
    ten characters. A failed report carries the error text and no latency;
    a passed one the time elapsed between the two clock readings. *)
Theorem testLLMApiConnection_verdict
    (startTime now : Z) env (apiKeys : gmap string string) provider model :
  let report := testLLMApiConnection startTime now env apiKeys provider model in
  (success report = true ↔
     getRequiredApiKey provider = None ∨
     ∃ name k, getRequiredApiKey provider = Some name ∧
               apiKeys !! name = Some k ∧ (10 <= String.length k)%nat) ∧
  (success report = false →
     reportError report = Some ("Missing or invalid API key for " +:+ provider) ∧
     latency report = None ∧ reportMessage report = None) ∧
  (success report = true →
     reportError report = None ∧ latency report = Some (now - startTime)) ∧
  (Js.toLowerCase provider = "ollama" → success report = true).
Proof.
  cbv zeta. unfold testLLMApiConnection.
  destruct (getRequiredApiKey provider) as [name|] eqn:Hname.
  - destruct (apiKeys !! name) as [k|] eqn:Hk.
    + destruct (Nat.ltb_spec (String.length k) 10) as [Hlt|Hge].
      * rewrite orb_true_r. cbn [success reportError latency reportMessage].
        split; [|split; [done|split; [done|]]].
        -- split; [done|]. intros [|(name' & k' & [= <-] & Hk' & Hlen)]; [done|].
           rewrite Hk in Hk'. injection Hk' as <-. lia.
        -- intros Ho. unfold getRequiredApiKey in Hname. rewrite Ho in Hname. done.
      * assert (Js.truthy k = true) as ->.
        { destruct k; [cbn in Hge; lia | done]. }
        cbn [negb orb success reportError latency reportMessage].
        split; [|done]. split; [|done]. intros _. right. by exists name, k.
    + cbn [success reportError latency reportMessage].
      split; [|split; [done|split; [done|]]].
      * split; [done|]. intros [|(name' & k' & [= <-] & Hk' & _)]; [done|]. congruence.
      * intros Ho. unfold getRequiredApiKey in Hname. rewrite Ho in Hname. done.
  - cbn [success reportError latency reportMessage].
    split; [split; [by left | done]|]. done.
Qed.

(** X14: the connection test and the key resolver look in different
    places. For a recognized provider, a key that the per-request map holds
    under the display name only is the key [getApiKey] returns, and yet the
    connection test reports it missing, because it looks under
    <PROVIDER>_API_KEY in the same map. *)
Theorem connection_test_misses_display_name_key `{Collaborators}
    (context : AgentContext) provider model (k : string) (startTime now : Z) :
  Spec.recognized provider →
  apiKeys context !! Spec.displayName provider = Some k →
  k ≠ EmptyString →
  apiKeys context !! Spec.envKeyName provider = None →
  LangChain.getApiKey context provider = k ∧
  success (testLLMApiConnection startTime now (env context) (apiKeys context)
             provider model) = false.
Proof.
  intros Hr Hk Hne Hnone. split.
  - rewrite getApiKey_recognized by done. unfold Spec.keySources. rewrite Hk.
    by destruct k.
  - unfold testLLMApiConnection.
    by rewrite (getRequiredApiKey_recognized _ Hr), Hnone.
Qed.

Lemma scanAnnotations_spec (l : list Annotation) :
  (scanAnnotations l = noContext ∧ Forall (fun a => ¬ isContextAnnotation a) l) ∨
  ∃ before a after,
    l = before ++ a :: after ∧
    Forall (fun b => ¬ isContextAnnotation b) before ∧
    ((annotationType a = Some "codeContext" ∧
      scanAnnotations l = {| summary := None; codeContext := Some a |}) ∨
     (annotationType a = Some "chatSummary" ∧
      scanAnnotations l = {| summary := Some a; codeContext := None |})).
Proof.
  induction l as [|a l IH].
  - left. by split.
  - assert (¬ isContextAnnotation a →
            scanAnnotations (a :: l) = scanAnnotations l →
            (scanAnnotations (a :: l) = noContext ∧
             Forall (fun a => ¬ isContextAnnotation a) (a :: l)) ∨
            ∃ before a0 after,
              a :: l = before ++ a0 :: after ∧
              Forall (fun b => ¬ isContextAnnotation b) before ∧
              ((annotationType a0 = Some "codeContext" ∧
                scanAnnotations (a :: l) = {| summary := None; codeContext := Some a0 |}) ∨
               (annotationType a0 = Some "chatSummary" ∧
                scanAnnotations (a :: l) = {| summary := Some a0; codeContext := None |})))
      as Hskip.
    { intros Hna Hscan. rewrite Hscan.
      destruct IH as [[Hno Hall]|(before & a0 & after & -> & Hb & Hcase)].
      - left. split; [done|]. by constructor.
      - right. exists (a :: before), a0, after. split; [done|].
        split; [by constructor|done]. }
    destruct a as [json|[type|] rest].
    + apply Hskip; [|done]. intros [Hc|Hc]; discriminate Hc.
    + destruct (Js.truthy type) eqn:Ht.
      * destruct (String.eqb_spec type "codeContext") as [->|Hcc].
        { right. exists [], (AnObject (Some "codeContext") rest), l.
          split; [done|]. split; [constructor|]. by left. }
        destruct (String.eqb_spec type "chatSummary") as [->|Hcs].
        { right. exists [], (AnObject (Some "chatSummary") rest), l.
          split; [done|]. split; [constructor|]. by right. }
        apply Hskip.
        -- intros [Hc|Hc]; cbn in Hc; congruence.
        -- cbn [scanAnnotations]. rewrite Ht. cbn [negb].
           apply String.eqb_neq in Hcc, Hcs. by rewrite Hcc, Hcs.
      * apply Hskip.
        -- apply truthy_empty in Ht. subst type.
           intros [Hc|Hc]; discriminate Hc.
        -- cbn [scanAnnotations]. by rewrite Ht.
    + apply Hskip; [|done]. intros [Hc|Hc]; discriminate Hc.
Qed.

(** X15: [extractCurrentContext] returns at most one of the two
    annotations. What it returns is the first annotation of the last
    assistant message whose type is 'codeContext' or 'chatSummary', filed
    under its own type; the other field is undefined even when a later
    annotation of the other type exists. It returns neither exactly when
    there is no assistant message, or its last one has no annotation of
    either type. *)
Theorem extractCurrentContext_first_only (messages : list AnnotatedMessage) :
  let found := extractCurrentContext messages in
  (summary found = None ∨ codeContext found = None) ∧
  (∀ a, summary found = Some a ∨ codeContext found = Some a →
     ∃ lastAssistant before after,
       lastAssistantMessage messages = Some lastAssistant ∧
       annotations lastAssistant = Some (before ++ a :: after) ∧
       Forall (fun b => ¬ isContextAnnotation b) before ∧
       (summary found = Some a → annotationType a = Some "chatSummary") ∧
       (codeContext found = Some a → annotationType a = Some "codeContext")) ∧
  (found = noContext ↔
     ∀ lastAssistant l,
       lastAssistantMessage messages = Some lastAssistant →
       annotations lastAssistant = Some l →
       Forall (fun a => ¬ isContextAnnotation a) l).
Proof.
  cbv zeta. unfold extractCurrentContext.
  destruct (lastAssistantMessage messages) as [lastAssistant|]; [|by repeat split; intros; try tauto; destruct H; discriminate].
  destruct (annotations lastAssistant) as [[|a0 l0]|] eqn:Hann.
  - cbn. split; [by left|]. split; [intros a [Ha|Ha]; discriminate Ha|].
    split; [|done]. intros _ la l [= <-]. rewrite Hann. by intros [= <-].
  - destruct (scanAnnotations_spec (a0 :: l0))
      as [[Hno Hall]|(before & a & after & Hl & Hb & [[Ht Hs]|[Ht Hs]])];
      rewrite ?Hno, ?Hs; cbn [summary codeContext].
    + split; [by left|]. split; [intros a [Ha|Ha]; discriminate Ha|].
      split; [|done]. intros _ la l [= <-]. rewrite Hann. by intros [= <-].
    + split; [by left|]. split.
      * intros a' [Ha|Ha]; [discriminate Ha|]. injection Ha as <-.
        exists lastAssistant, before, after. rewrite Hann, Hl. by repeat split.
      * split; [done|]. intros Hall.
        specialize (Hall lastAssistant (a0 :: l0) eq_refl Hann).
        rewrite Hl in Hall. apply Forall_app in Hall as [_ Hall].
        apply Forall_cons in Hall as [Hall _]. destruct Hall. by left.
    + split; [by right|]. split.
      * intros a' [Ha|Ha]; [|discriminate Ha]. injection Ha as <-.
        exists lastAssistant, before, after. rewrite Hann, Hl. by repeat split.
      * split; [done|]. intros Hall.
        specialize (Hall lastAssistant (a0 :: l0) eq_refl Hann).
        rewrite Hl in Hall. apply Forall_app in Hall as [_ Hall].
        apply Forall_cons in Hall as [Hall _]. destruct Hall. by right.
  - cbn. split; [by left|]. split; [intros a [Ha|Ha]; discriminate Ha|].
    split; [|done]. intros _ la l [= <-]. by rewrite Hann.
Qed.

End LlmUtilsFacts.

(** * The chat route *)

(** ** Cookies *)

Section Cookies.
Import ChatRoute.

Lemma splitOn_without c s : without c s = true → splitOn c s = [s].
Proof.
  induction s as [|d r IH]; [done|]. cbn [without splitOn].
  intros [Hd Hr]%andb_prop. apply negb_true_iff in Hd. rewrite Hd.
  by rewrite IH.
Qed.

Lemma splitOn_not_nil c s : splitOn c s ≠ [].
Proof.
  destruct s as [|d r]; [done|]. cbn [splitOn].
  destruct (Ascii.eqb d c); [done|]. by destruct (splitOn c r).
Qed.

Lemma splitOn_app c a b :
  without c a = true → splitOn c (a +:+ String c b) = a :: splitOn c b.
Proof.
  induction a as [|d r IH].
  - intros _. rewrite append_empty. cbn [splitOn]. by rewrite Ascii.eqb_refl.
  - cbn [without]. intros [Hd Hr]%andb_prop. apply negb_true_iff in Hd.
    rewrite append_String. cbn [splitOn]. rewrite Hd. by rewrite IH.
Qed.

Lemma joinWith_cons_char sep d head tail :
  LlmUtils.joinWith sep (String d head :: tail)
  = String d (LlmUtils.joinWith sep (head :: tail)).
Proof. by destruct tail. Qed.

(** Splitting at a character and joining with it gives the text back. *)
Lemma joinWith_splitOn c s : LlmUtils.joinWith (String c EmptyString) (splitOn c s) = s.
Proof.
  induction s as [|d r IH]; [done|]. cbn [splitOn].
  destruct (Ascii.eqb d c) eqn:Hd.
  - apply Ascii.eqb_eq in Hd as ->.
    pose proof (splitOn_not_nil c r) as Hn.
    destruct (splitOn c r) as [|head tail] eqn:Hs; [done|].
    cbn [LlmUtils.joinWith]. rewrite append_empty, append_String, append_empty.
    f_equal. by rewrite <- IH.
  - pose proof (splitOn_not_nil c r) as Hn.
    destruct (splitOn c r) as [|head tail] eqn:Hs; [done|].
    by rewrite joinWith_cons_char, IH.
Qed.

(** An ASCII code unit starts no white space of two or three units. *)
Lemma isWhiteSpace2_ascii a b : (nat_of_ascii a <? 128)%nat = true → Js.isWhiteSpace2 a b = false.
Proof.
  intros Ha%Nat.ltb_lt. unfold Js.isWhiteSpace2.
  by rewrite (proj2 (Nat.eqb_neq (nat_of_ascii a) 194)) by lia.
Qed.

Lemma isWhiteSpace3_ascii a b c :
  (nat_of_ascii a <? 128)%nat = true → Js.isWhiteSpace3 a b c = false.
Proof.
  intros Ha%Nat.ltb_lt. unfold Js.isWhiteSpace3. cbv zeta.
  rewrite (proj2 (Nat.eqb_neq (nat_of_ascii a) 225)) by lia.
  rewrite (proj2 (Nat.eqb_neq (nat_of_ascii a) 226)) by lia.
  rewrite (proj2 (Nat.eqb_neq (nat_of_ascii a) 227)) by lia.
  by rewrite (proj2 (Nat.eqb_neq (nat_of_ascii a) 239)) by lia.
Qed.

(** At an ASCII code unit, [trimEnd] decides on that unit alone. *)
Lemma trimEnd_ascii a r :
  (nat_of_ascii a <? 128)%nat = true →
  Js.trimEnd (String a r)
  = match Js.trimEnd r with
    | EmptyString => if Js.isWhiteSpace a then EmptyString else String a EmptyString
    | r' => String a r'
    end.
Proof.
  intros Ha. destruct r as [|b [|c r2]]; [done| |].
  - change (Js.trimEnd (String a (String b EmptyString)))
      with (if Js.isWhiteSpace2 a b
            then match Js.trimEnd EmptyString with
                 | EmptyString => EmptyString
                 | r' => String a (String b r')
                 end
            else match Js.trimEnd (String b EmptyString) with
                 | EmptyString =>
                     if Js.isWhiteSpace a then EmptyString else String a EmptyString
                 | r' => String a r'
                 end).
    by rewrite isWhiteSpace2_ascii.
  - change (Js.trimEnd (String a (String b (String c r2))))
      with (if Js.isWhiteSpace2 a b
            then match Js.trimEnd (String c r2) with
                 | EmptyString => EmptyString
                 | r' => String a (String b r')
                 end
            else if Js.isWhiteSpace3 a b c
                 then match Js.trimEnd r2 with
                      | EmptyString => EmptyString
                      | r' => String a (String b (String c r'))
                      end
                 else match Js.trimEnd (String b (String c r2)) with
                      | EmptyString =>
                          if Js.isWhiteSpace a then EmptyString else String a EmptyString
                      | r' => String a r'
                      end).
    by rewrite isWhiteSpace2_ascii, isWhiteSpace3_ascii.
Qed.

(** At an ASCII code unit that is no white space, [trimStart] stops. *)
Lemma trimStart_ascii a r :
  (nat_of_ascii a <? 128)%nat = true → Js.isWhiteSpace a = false →
  Js.trimStart (String a r) = String a r.
Proof.
  intros Ha Hw. destruct r as [|b [|c r2]]; cbn [Js.trimStart]; rewrite Hw; [done| |].
  - by rewrite isWhiteSpace2_ascii.
  - by rewrite isWhiteSpace2_ascii, isWhiteSpace3_ascii.
Qed.

Lemma trimEnd_noWhiteSpace s : noWhiteSpace s = true → Js.trimEnd s = s.
Proof.
  induction s as [|d r IH]; [done|]. cbn [noWhiteSpace].
  intros [[Hd Ha]%andb_prop Hr]%andb_prop. apply negb_true_iff in Hd.
  rewrite trimEnd_ascii, (IH Hr), Hd by done.
  by destruct r.
Qed.

Lemma trimStart_noWhiteSpace s : noWhiteSpace s = true → Js.trimStart s = s.
Proof.
  destruct s as [|d r]; [done|]. cbn [noWhiteSpace].
  intros [[Hd Ha]%andb_prop Hr]%andb_prop. apply negb_true_iff in Hd.
  by apply trimStart_ascii.
Qed.

Lemma trim_noWhiteSpace s : noWhiteSpace s = true → Js.trim s = s.
Proof.
  intros Hs. unfold Js.trim. by rewrite trimStart_noWhiteSpace, trimEnd_noWhiteSpace.
Qed.

Lemma trim_after_space s : noWhiteSpace s = true → Js.trim (String " " s) = s.
Proof.
  intros Hs. unfold Js.trim. cbn [Js.trimStart Js.isWhiteSpace].
  by rewrite trimStart_noWhiteSpace, trimEnd_noWhiteSpace.
Qed.

Lemma without_app c a b : without c (a +:+ b) = without c a && without c b.
Proof.
  induction a as [|d r IH]; [done|]. rewrite append_String. cbn [without].
  by rewrite IH, andb_assoc.
Qed.

Lemma noWhiteSpace_app a b : noWhiteSpace (a +:+ b) = noWhiteSpace a && noWhiteSpace b.
Proof.
  induction a as [|d r IH]; [done|]. rewrite append_String. cbn [noWhiteSpace].
  by rewrite IH, andb_assoc.
Qed.

Lemma cookieName_parts n :
  cookieName n = true →
  n ≠ EmptyString ∧ without ";" n = true ∧ noWhiteSpace n = true ∧ without "=" n = true.
Proof.
  unfold cookieName, cookieText.
  intros [[Ht [Hs Hw]%andb_prop]%andb_prop He]%andb_prop.
  by destruct n.
Qed.

Lemma cookiePair_clean p :
  cookieName p.1 = true → cookieText p.2 = true →
  without ";" (cookiePair p) = true ∧ noWhiteSpace (cookiePair p) = true.
Proof.
  intros (_ & Hs & Hw & _)%cookieName_parts [Hs2 Hw2]%andb_prop.
  unfold cookiePair. rewrite !without_app, !noWhiteSpace_app, Hs, Hw, Hs2, Hw2. done.
Qed.

(** What one well-formed pair adds. *)
Lemma addCookie_pair decode cookies p :
  cookieName p.1 = true → cookieText p.2 = true →
  addCookie decode cookies (cookiePair p)
  = (n ← decode p.1; v ← decode p.2; Some (assign n v cookies)).
Proof.
  destruct p as [n v]. cbn [fst snd].
  intros (Hne & Hs & Hw & He)%cookieName_parts [Hs2 Hw2]%andb_prop.
  unfold addCookie, cookiePair. cbn [fst snd].
  change ("=" +:+ v) with (String "=" v).
  rewrite splitOn_app by done.
  assert (Js.truthy n = true) as -> by (by destruct n).
  rewrite (trim_noWhiteSpace n) by done.
  change "=" with (String "="%char EmptyString).
  rewrite joinWith_splitOn, (trim_noWhiteSpace v) by done. done.
Qed.

(** The header of well-formed pairs splits into the pairs. *)
Lemma items_of_header (pairs : list (string * string)) :
  pairs ≠ [] →
  Forall (fun p => cookieName p.1 = true ∧ cookieText p.2 = true) pairs →
  (Js.trim <$> splitOn ";" (cookieHeaderOf pairs) = cookiePair <$> pairs) ∧
  (Js.trim <$> splitOn ";" (String " " (cookieHeaderOf pairs)) = cookiePair <$> pairs).
Proof.
  induction pairs as [|p rest IH]; [done|]. intros _ Hall.
  apply Forall_cons in Hall as [[Hn Hv] Hrest].
  destruct (cookiePair_clean p Hn Hv) as [Hs Hw].
  destruct rest as [|q rest'].
  - unfold cookieHeaderOf. cbn [fmap list_fmap LlmUtils.joinWith].
    split.
    + rewrite splitOn_without by done. cbn [fmap list_fmap].
      by rewrite trim_noWhiteSpace.
    + rewrite splitOn_without by (cbn [without]; by rewrite Hs).
      cbn [fmap list_fmap]. by rewrite trim_after_space.
  - destruct (IH ltac:(done) Hrest) as [_ IH2].
    assert (cookieHeaderOf (p :: q :: rest')
            = cookiePair p +:+ String ";" (String " " (cookieHeaderOf (q :: rest')))) as ->
      by done.
    split.
    + rewrite splitOn_app by done. cbn [fmap list_fmap].
      change (list_fmap _ _ Js.trim ?l) with (Js.trim <$> l).
      by rewrite IH2, trim_noWhiteSpace.
    + change (String " " (cookiePair p +:+ ?r)) with (String " " (cookiePair p) +:+ r).
      rewrite splitOn_app by (cbn [without]; by rewrite Hs).
      cbn [fmap list_fmap].
      change (list_fmap _ _ Js.trim ?l) with (Js.trim <$> l).
      by rewrite IH2, trim_after_space.
Qed.

Lemma foldl_addCookie decode (pairs : list (string * string)) start :
  Forall (fun p => cookieName p.1 = true ∧ cookieText p.2 = true) pairs →
  foldl (fun cookies item => cookies ≫= fun c => addCookie decode c item)
        start (cookiePair <$> pairs)
  = foldl (fun cookies p =>
             cookies ≫= fun c => n ← decode p.1; v ← decode p.2; Some (assign n v c))
          start pairs.
Proof.
  intros Hall. revert start.
  induction Hall as [|p rest [Hn Hv] _ IH]; intros start; [done|].
  cbn [fmap list_fmap foldl]. change (list_fmap _ _ cookiePair rest) with (cookiePair <$> rest).
  rewrite IH. f_equal. destruct start as [c|]; [|done]. cbn.
  by rewrite addCookie_pair.
Qed.

(** [parseCookies] on the header of well-formed pairs: the pairs are
    decoded and assigned one after the other. *)
Lemma parseCookies_pairs decode (pairs : list (string * string)) :
  Forall (fun p => cookieName p.1 = true ∧ cookieText p.2 = true) pairs →
  parseCookies decode (cookieHeaderOf pairs)
  = foldl (fun cookies p =>
             cookies ≫= fun c => n ← decode p.1; v ← decode p.2; Some (assign n v c))
          (Some ∅) pairs.
Proof.
  intros Hall. unfold parseCookies. cbv zeta.
  destruct pairs as [|p rest]; [done|].
  destruct (items_of_header (p :: rest) ltac:(done) Hall) as [-> _].
  by apply foldl_addCookie.
Qed.

Lemma foldl_assign_failed {A} (f : gmap string string → A → option (gmap string string))
    (l : list A) :
  foldl (fun cookies p => cookies ≫= fun c => f c p) None l = None.
Proof. by induction l. Qed.

(** X16: a Cookie header laid out as [name=value] pairs joined by a
    semicolon and a space parses back to its pairs: when the names are
    non-empty, names and values hold no semicolon and no white space, names
    hold no equals sign, and every name and value decodes to itself, the
    result holds, for each name other than [__proto__], the value of its
    last pair (values may contain equals signs). A pair named [__proto__]
    leaves no property: the assignment goes to the inherited setter, which
    ignores a string. *)
Theorem parseCookies_round_trip decode (pairs : list (string * string)) :
  Forall (fun p => cookieName p.1 = true ∧ cookieText p.2 = true) pairs →
  Forall (fun p => decode p.1 = Some p.1 ∧ decode p.2 = Some p.2) pairs →
  parseCookies decode (cookieHeaderOf pairs)
  = Some (list_to_map (reverse (filter (fun p => p.1 ≠ "__proto__") pairs))).
Proof.
  intros Hall Hdec. rewrite parseCookies_pairs by done. clear Hall.
  induction pairs as [|p rest IH] using rev_ind; [done|].
  apply Forall_app in Hdec as [Hrest Hp]. apply Forall_singleton in Hp as [Hn Hv].
  rewrite foldl_snoc, (IH Hrest), filter_app.
  cbn [mbind option_bind]. rewrite Hn. cbn [mbind option_bind]. rewrite Hv.
  cbn [mbind option_bind]. f_equal. unfold assign. destruct p as [n v]. cbn [fst snd].
  destruct (String.eqb_spec n "__proto__") as [->|Hne].
  - rewrite filter_cons_False, filter_nil by (by intros Hp; apply Hp).
    by rewrite app_nil_r.
  - rewrite filter_cons_True, filter_nil by done. by rewrite reverse_snoc.
Qed.

(** X17: one malformed escape spoils the whole header: when a name or a
    value of some pair fails to decode, [parseCookies] throws, whatever the
    other pairs are. *)
Theorem parseCookies_malformed decode (pairs : list (string * string)) p :
  Forall (fun p => cookieName p.1 = true ∧ cookieText p.2 = true) pairs →
  p ∈ pairs →
  decode p.1 = None ∨ decode p.2 = None →
  parseCookies decode (cookieHeaderOf pairs) = None.
Proof.
  intros Hall Hin Hbad. rewrite parseCookies_pairs by done. clear Hall.
  apply list_elem_of_split in Hin as (before & after & ->).
  rewrite foldl_app. cbn [foldl].
  match goal with
  | |- foldl _ ?start after = None => assert (start = None) as ->
  end.
  { destruct (foldl _ _ before) as [c|]; [|done]. cbn.
    destruct Hbad as [-> | Hv]; [done|]. rewrite Hv. by destruct (decode p.1). }
  apply (foldl_assign_failed (fun c p => n ← decode p.1; v ← decode p.2; Some (assign n v c))).
Qed.

End Cookies.

(** ** The stream of a request *)

Section ChatStream.
Local Abbreviation contextKeys := apiKeys (only parsing).
Import ChatRoute.
Context `{ChatCollaborators}.

Lemma baseView_app a b : baseView (a ++ b) = baseView a ++ baseView b.
Proof. apply omap_app. Qed.

Lemma baseView_Base l : baseView (Base <$> l) = l.
Proof. induction l as [|e l IH]; [done|]. cbn. by f_equal. Qed.

Lemma streamProgress_app a b :
  streamProgress (a ++ b) = streamProgress a ++ streamProgress b.
Proof. unfold streamProgress. by rewrite baseView_app, progressEvents_app. Qed.

Lemma streamProgress_Base l : streamProgress (Base <$> l) = progressEvents l.
Proof. unfold streamProgress. by rewrite baseView_Base. Qed.

Lemma writtenChunks_app a b : writtenChunks (a ++ b) = writtenChunks a ++ writtenChunks b.
Proof. apply omap_app. Qed.

Lemma messageAnnotations_app a b :
  messageAnnotations (a ++ b) = messageAnnotations a ++ messageAnnotations b.
Proof. apply omap_app. Qed.

Lemma writtenChunks_Base l : writtenChunks (Base <$> l) = [].
Proof. by induction l. Qed.

Lemma messageAnnotations_Base l : messageAnnotations (Base <$> l) = [].
Proof. by induction l. Qed.

Lemma writeChunks_run chunks s :
  writeChunks chunks s
  = (Ok tt, {| events := events s ++ (Write ∘ textPart <$> chunks);
               counter := counter s; cumulativeUsage := cumulativeUsage s |}).
Proof.
  revert s. induction chunks as [|chunk rest IH]; intros s.
  - cbn. rewrite app_nil_r. by destruct s.
  - cbn [writeChunks]. unfold cbind, emit. rewrite IH. cbn [events counter cumulativeUsage].
    by rewrite <- app_assoc.
Qed.

Lemma streamProgress_chunks chunks : streamProgress (Write ∘ textPart <$> chunks) = [].
Proof. by induction chunks. Qed.



(** The second half of [execute], run from [s]: the agents see the sink so
    far, and the route ends with the result or with the error text. *)
Lemma respond_run req filteredFiles s :
  let c := counter s in
  let before := baseView (events s ++ [responseStart c]) in
  let run := LangChain.orchestrateLangChainAgents (agentOptions req filteredFiles) before in
  let added := Base <$> drop (length before) run.2 in
  respond req filteredFiles s =
  match run.1 with
  | Ok result =>
      let total :=
        Spec.addUsage (cumulativeUsage s) (LangChain.OrchestratorResult.usage result) in
      (Ok tt,
       {| events :=
            events s ++ [responseStart c] ++ added ++
            (Write ∘ textPart <$> characters (LangChain.OrchestratorResult.text result)) ++
            [WriteMessageAnnotation (UsageAnnotation total); responseDone (c + 1)];
          counter := c + 1 + 1;
          cumulativeUsage := total |})
  | Thrown e =>
      (Ok tt,
       {| events :=
            events s ++ [responseStart c] ++ added ++
            [responseFailed (c + 1);
             Write (textPart ("An error occurred while processing your request: " +:+
                              failureMessage e))];
          counter := c + 1 + 1;
          cumulativeUsage := cumulativeUsage s |})
  end.
Proof.
  cbv zeta. unfold respond.
  unfold cbind at 1. unfold writeProgress at 1. cbv beta iota.
  unfold ctry. cbv zeta. unfold cbind at 1. unfold liftAgents.
  cbn [events counter cumulativeUsage].
  cbn [Factory.getAgentConfig Factory.defaultConfig Factory.implementation].
  unfold Factory.executeAgents, tryCatch, throw.
  fold (responseStart (counter s)).
  destruct (LangChain.orchestrateLangChainAgents _ _) as [[result|e] after]; cbn [fst snd].
  - unfold cbind, addToUsage, emit, writeProgress. rewrite writeChunks_run.
    cbn [events counter cumulativeUsage]. unfold ensureString, responseDone, Spec.addUsage.
    rewrite <- !app_assoc. reflexivity.
  - unfold cbind, emit, writeProgress. cbn [events counter cumulativeUsage].
    unfold responseFailed. rewrite <- !app_assoc. reflexivity.
Qed.

Lemma prepareFiles_direct req : direct req → prepareFiles req = cret None.
Proof.
  unfold direct, prepareFiles. cbv zeta. intros [-> | ->]; [done|].
  by rewrite andb_false_r.
Qed.

(** *** The route's own counter *)

Lemma ownOrders_emit s e :
  streamProgress [e] = [] →
  ownOrders {| events := events s ++ [e]; counter := counter s;
               cumulativeUsage := cumulativeUsage s |} = ownOrders s.
Proof.
  intros He. unfold ownOrders. cbn [events].
  by rewrite streamProgress_app, He, app_nil_r.
Qed.

Lemma preserves_cret {A} P (a : A) : preserves P (cret a).
Proof. by intros s. Qed.

Lemma preserves_cthrow {A} P e : preserves P (cthrow e : C A).
Proof. by intros s. Qed.

Lemma preserves_cbind {A B} P (m : C A) (k : A → C B) :
  preserves P m → (∀ a, preserves P (k a)) → preserves P (cbind m k).
Proof.
  intros Hm Hk s Hs. unfold cbind. specialize (Hm s Hs).
  destruct (m s) as [[a|e] s']; cbn [snd] in *; [by apply Hk | done].
Qed.

Lemma preserves_ctry {A} P (body : C A) handler :
  preserves P body → (∀ e, preserves P (handler e)) → preserves P (ctry body handler).
Proof.
  intros Hm Hk s Hs. unfold ctry. specialize (Hm s Hs).
  destruct (body s) as [[a|e] s']; cbn [snd] in *; [done | by apply Hk].
Qed.

Lemma consecutive_emit e : streamProgress [e] = [] → preserves consecutive (emit e).
Proof.
  intros He s [Hc Ho]. unfold emit. cbn [snd]. split; [done|].
  cbn [counter]. by rewrite ownOrders_emit.
Qed.

Lemma consecutive_writeProgress lbl st msg :
  ownLabel {| label := lbl; status := st; order := 0; message := msg |} = true →
  preserves consecutive (writeProgress lbl st msg).
Proof.
  intros Hl s [Hc Ho]. unfold writeProgress. cbn [snd]. split; [cbn [counter]; lia|].
  unfold ownOrders in *. cbn [events counter].
  rewrite streamProgress_app, List.filter_app, fmap_app, Ho.
  unfold streamProgress at 1. cbn [baseView omap list_omap progressEvents written List.filter].
  unfold ownLabel in *. cbn [label] in *.
  rewrite Hl. cbn [fmap list_fmap order].
  replace (counter s + 1 - 1) with (Z.of_nat (S (Z.to_nat (counter s - 1)))) by lia.
  rewrite seqZ_S. repeat f_equal; lia.
Qed.

Lemma consecutive_addToUsage u : preserves consecutive (addToUsage u).
Proof. by intros s Hs. Qed.

Lemma consecutive_addResponseUsage u : preserves consecutive (addResponseUsage u).
Proof. destruct u; [apply consecutive_addToUsage | apply preserves_cret]. Qed.

Lemma preserves_forEachFinish P onFinish responses :
  (∀ r, preserves P (onFinish r)) → preserves P (forEachFinish onFinish responses).
Proof.
  intros Hf. induction responses as [|r rest IH]; [apply preserves_cret|].
  cbn [forEachFinish]. apply preserves_cbind; [apply Hf | by intros _].
Qed.

Lemma consecutive_request {A} effect (answer : list StreamEffect → Finishing A) onFinish :
  streamProgress [effect] = [] →
  (∀ r, preserves consecutive (onFinish r)) →
  preserves consecutive (request effect answer onFinish).
Proof.
  intros He Hf s Hs. unfold request. cbv zeta.
  apply (preserves_cbind consecutive (emit effect)); [by apply consecutive_emit| |done].
  intros _. apply preserves_cbind; [by apply preserves_forEachFinish|].
  by intros _ s' Hs'.
Qed.

Lemma consecutive_writeChunks chunks : preserves consecutive (writeChunks chunks).
Proof.
  intros s [Hc Ho]. rewrite writeChunks_run. cbn [snd]. split; [done|].
  unfold ownOrders in *. cbn [events counter].
  by rewrite streamProgress_app, streamProgress_chunks, app_nil_r.
Qed.

Lemma consecutive_agents options :
  preserves consecutive
    (liftAgents (Factory.executeAgents orchestrateAgents options Factory.LANGCHAIN)).
Proof.
  intros s [Hc Ho]. unfold liftAgents, Factory.executeAgents, tryCatch, throw.
  destruct (orchestration_progress options (baseView (events s)))
    as (delta & Hrun & Hown & _).
  destruct (LangChain.orchestrateLangChainAgents _ _) as [[res|e] after];
    cbn [fst snd] in *; subst after; rewrite drop_app_length;
    (split; [done|]); unfold ownOrders in *; cbn [events counter];
    rewrite streamProgress_app, List.filter_app, fmap_app, Ho, streamProgress_Base.
  all: assert (List.filter ownLabel (progressEvents delta) = []) as ->;
    [|by rewrite app_nil_r].
  all: induction Hown as [|a l [Ha _] _ IH]; [done|]; cbn [List.filter]; by rewrite Ha.
Qed.

Lemma consecutive_prepareFiles req : preserves consecutive (prepareFiles req).
Proof.
  unfold prepareFiles. cbv zeta.
  destruct (_ && _); [|apply preserves_cret].
  apply preserves_cbind; [by apply consecutive_writeProgress|]. intros _.
  apply preserves_cbind.
  { apply consecutive_request; [done|]. intros r.
    apply preserves_cbind; [apply consecutive_addResponseUsage|]. intros _.
    by apply consecutive_writeProgress. }
  intros summary.
  apply preserves_cbind; [by apply consecutive_emit|]. intros _.
  apply preserves_cbind; [by apply consecutive_writeProgress|]. intros _.
  apply preserves_cbind.
  { apply consecutive_request; [done|]. apply consecutive_addResponseUsage. }
  intros [selected|]; [|apply preserves_cthrow].
  apply preserves_cbind; [by apply consecutive_emit|]. intros _.
  apply preserves_cbind; [by apply consecutive_writeProgress|]. intros _.
  apply preserves_cret.
Qed.

Lemma consecutive_respond req filteredFiles :
  preserves consecutive (respond req filteredFiles).
Proof.
  unfold respond.
  apply preserves_cbind; [by apply consecutive_writeProgress|]. intros _.
  apply preserves_ctry.
  - cbv zeta. cbn [Factory.getAgentConfig Factory.defaultConfig Factory.implementation].
    apply preserves_cbind; [apply consecutive_agents|]. intros result.
    apply preserves_cbind; [apply consecutive_addToUsage|]. intros _.
    apply preserves_cbind; [apply consecutive_writeChunks|]. intros _.
    apply preserves_cbind; [|intros _; by apply consecutive_writeProgress].
    intros s Hs. by apply consecutive_emit.
  - intros e.
    apply preserves_cbind; [by apply consecutive_writeProgress|]. intros _.
    by apply consecutive_emit.
Qed.

(** X18: the route numbers its own progress annotations ('summary',
    'context', 'response') 1, 2, 3, ... without gap or repetition, whatever
    path the request takes and however it ends: with or without the summary
    and context steps, however many times their callbacks run, whether the
    agents answer or fail, and also when a step throws. The agents'
    annotations on the same stream are numbered apart from these. *)
Theorem route_orders_consecutive (req : ChatRequest) :
  let final := (execute req initialState).2 in
  order <$> List.filter ownLabel (streamProgress (events final))
  = seqZ 1 (counter final - 1).
Proof.
  cbv zeta.
  assert (preserves consecutive (execute req)) as Hp.
  { unfold execute. apply preserves_cbind; [apply consecutive_prepareFiles|].
    intros filteredFiles. apply consecutive_respond. }
  by destruct (Hp initialState ltac:(done)) as [_ Ho].
Qed.

(** *** A request without summary and context steps *)

Lemma execute_direct req : direct req → execute req initialState = respond req None initialState.
Proof. intros Hd. unfold execute. by rewrite prepareFiles_direct. Qed.



(** X20: a request that skips the summary and context steps and whose
    agents fail with [e]: [execute] does not throw. After what the agents
    wrote, the route writes a 'response' annotation whose status is the raw
    'error' (the only annotation of the stream with that status, the
    agents' helper never writing it), with order 2, and then the error's
    message as one text part, which ends the stream. No usage annotation is
    written. *)
Theorem chat_failure_stream (req : ChatRequest) (e : Failure) :
  direct req →
  (LangChain.orchestrateLangChainAgents (agentOptions req None)
     (baseView [responseStart 1])).1 = Thrown e →
  let run := execute req initialState in
  run.1 = Ok tt ∧
  List.filter (fun a => bool_decide (status a = Error)) (streamProgress (events run.2))
    = [{| label := "response"; status := Error; order := 2;
          message := "Error generating response" |}] ∧
  writtenChunks (events run.2)
    = [textPart ("An error occurred while processing your request: " +:+
                 failureMessage e)] ∧
  messageAnnotations (events run.2) = [] ∧
  last (events run.2)
    = Some (Write (textPart ("An error occurred while processing your request: " +:+
                             failureMessage e))).
Proof.
  intros Hd Hres. cbv zeta. rewrite execute_direct by done.
  rewrite respond_run. cbv zeta. cbn [events counter cumulativeUsage initialState app].
  destruct (orchestration_progress (agentOptions req None) (baseView [responseStart 1]))
    as (delta & Hrun & Hown & _).
  rewrite Hres, Hrun, drop_app_length.
  cbn [fst snd events]. split; [done|].
  change (responseStart 1 :: ?l) with ([responseStart 1] ++ l).
  rewrite !streamProgress_app, !writtenChunks_app, !messageAnnotations_app.
  rewrite streamProgress_Base, writtenChunks_Base, messageAnnotations_Base.
  rewrite !List.filter_app.
  assert (List.filter (fun a => bool_decide (status a = Error)) (progressEvents delta) = [])
    as ->.
  { clear Hrun. induction Hown as [|a l [_ Ha] _ IH]; [done|]. cbn [List.filter].
    by rewrite bool_decide_eq_false_2. }
  split; [done|]. split; [done|]. split; [done|].
  change [responseFailed ?c; Write ?w] with ([responseFailed c] ++ [Write w]).
  by rewrite !app_assoc, last_snoc.
Qed.

(** *** A request whose summary fails *)

Lemma forEachFinish_summary responses s :
  ∃ added total,
    forEachFinish
      (fun usage =>
         cbind (addResponseUsage usage) (fun _ =>
         writeProgress "summary" Complete "Analysis Complete")) responses s
    = (Ok tt, {| events := events s ++ added;
                 counter := counter s + Z.of_nat (length responses);
                 cumulativeUsage := total |}) ∧
    Forall (fun e => ∃ c, e = summaryDone c) added.
Proof.
  revert s. induction responses as [|r rest IH]; intros s.
  - exists [], (cumulativeUsage s). split; [|constructor].
    cbn. rewrite app_nil_r, Z.add_0_r. by destruct s.
  - cbn [forEachFinish]. unfold cbind at 1.
    set (s1 := (cbind (addResponseUsage r)
                  (fun _ => writeProgress "summary" Complete "Analysis Complete") s).2).
    assert (cbind (addResponseUsage r)
              (fun _ => writeProgress "summary" Complete "Analysis Complete") s
            = (Ok tt, s1) ∧ events s1 = events s ++ [summaryDone (counter s)]
              ∧ counter s1 = counter s + 1) as (-> & He & Hc).
    { subst s1. by destruct r. }
    destruct (IH s1) as (added & total & -> & Hall).
    exists (summaryDone (counter s) :: added), total. split.
    + rewrite He, Hc, <- app_assoc. cbn [app length]. do 2 f_equal. lia.
    + constructor; [by eexists | done].
Qed.

(** X21: a failing summary is not handled like failing agents. On a
    request that takes the summary step, when [createSummary] rejects,
    [execute] throws the rejection (it reaches [onError]); the stream then
    holds 'summary' progress annotations only: no 'response' annotation,
    no text part, no message annotation, and the agents were never
    started, so no model was called by them. *)
Theorem summary_failure_throws (req : ChatRequest) (reason : string) :
  optimised req →
  settles (createSummary [summaryStart 1] (messages req) (cloudflareEnv req) (apiKeys req)
             (providerSettings req) (promptId req) (contextOptimization req))
    = Rejected reason →
  let run := execute req initialState in
  run.1 = Thrown (External reason) ∧
  Forall (fun a => label a = "summary") (streamProgress (events run.2)) ∧
  writtenChunks (events run.2) = [] ∧
  messageAnnotations (events run.2) = [] ∧
  modelCalls (baseView (events run.2)) = [].
Proof.
  intros [Hpaths Hopt] Hrej. cbv zeta.
  assert (∃ cs total c',
            execute req initialState
            = (Thrown (External reason),
               {| events := [summaryStart 1; CreateSummary (messages req)]
                            ++ (summaryDone <$> cs);
                  counter := c'; cumulativeUsage := total |})) as (cs & total & c' & ->).
  { unfold execute, prepareFiles. cbv zeta.
    assert ((0 <? length (getFilePaths (default ∅ (files req))))%nat = true) as ->
      by (by destruct (getFilePaths _)).
    rewrite Hopt in Hrej |- *. cbn [andb].
    unfold cbind at 1 2. unfold writeProgress at 1. cbv beta iota.
    unfold cbind at 1. unfold request at 1. cbv zeta.
    cbn [events counter cumulativeUsage initialState app].
    fold (summaryStart 1). rewrite Hrej.
    unfold cbind at 1. unfold emit at 1. cbn [events counter cumulativeUsage app].
    unfold cbind at 1.
    match goal with
    | |- context [forEachFinish ?f ?l ?s] =>
        destruct (forEachFinish_summary l s) as (added & total & -> & Hall)
    end.
    cbn [settle events].
    assert (∃ cs, added = summaryDone <$> cs) as [cs ->].
    { clear -Hall. induction Hall as [|e l [c ->] _ [cs ->]]; [by exists []|].
      by exists (c :: cs). }
    by eexists cs, total, _. }
  cbn [fst snd events].
  rewrite streamProgress_app, writtenChunks_app, messageAnnotations_app, baseView_app,
    modelCalls_app.
  assert (Forall (fun a => label a = "summary") (streamProgress (summaryDone <$> cs))
          ∧ writtenChunks (summaryDone <$> cs) = []
          ∧ messageAnnotations (summaryDone <$> cs) = []
          ∧ modelCalls (baseView (summaryDone <$> cs)) = []) as (H1 & -> & -> & ->).
  { clear. induction cs as [|c cs (IH1 & IH2 & IH3 & IH4)]; [by repeat split|].
    repeat split; [by constructor | done..]. }
  split; [done|]. split; [|done].
  apply Forall_app. split; [by repeat constructor | done].
Qed.

(** *** Where the agents of the route find their keys *)

Lemma overlay_lookup name env other :
  overlay name env !! other
  = if decide (other = name) then processEnv !! name else env !! other.
Proof.
  unfold overlay. destruct (decide (other = name)) as [->|Hne].
  - destruct (processEnv !! name) eqn:Hp; [by rewrite lookup_insert_eq | by rewrite lookup_delete_eq].
  - destruct (processEnv !! name); [by rewrite lookup_insert_ne | by rewrite lookup_delete_ne].
Qed.

Lemma enrichedEnv_lookup cloudflareEnv name :
  enrichedEnv cloudflareEnv !! name
  = if bool_decide (name ∈ maskedNames) then processEnv !! name
    else default ∅ cloudflareEnv !! name.
Proof.
  unfold enrichedEnv. rewrite !overlay_lookup. unfold maskedNames.
  repeat (destruct (decide (name = _)) as [->|?];
    [rewrite bool_decide_eq_true_2; [done|];
     rewrite !elem_of_cons; repeat (first [left; reflexivity | right])|]).
  rewrite bool_decide_eq_false_2; [done|].
  rewrite !elem_of_cons, elem_of_nil. intros Hin. intuition congruence.
Qed.

Lemma firstNonEmpty_twice a b : Spec.firstNonEmpty [a; b; b] = Spec.firstNonEmpty [a; b].
Proof. by destruct a as [[|c s]|], b as [[|c' s']|]. Qed.

(** No masked name is the key name of a provider named like an inherited
    member. *)
Lemma masked_not_inherited provider :
  Spec.envKeyName provider ∈ maskedNames → provider ∉ Js.inheritedMembers.
Proof.
  intros Hmasked Hin. unfold Js.inheritedMembers in Hin.
  repeat (apply elem_of_cons in Hin as [->|Hin];
          [unfold maskedNames in Hmasked;
           repeat (apply elem_of_cons in Hmasked as [Hmasked|Hmasked];
                   [vm_compute in Hmasked; discriminate Hmasked|]);
           by apply elem_of_nil in Hmasked|]).
  by apply elem_of_nil in Hin.
Qed.

(** X22: for the five names the route copies from the process environment
    (ANTHROPIC_API_KEY, OPENAI_API_KEY, GROQ_API_KEY,
    GOOGLE_GENERATIVE_AI_API_KEY, MISTRAL_API_KEY), the environment of the
    request never supplies a key: for a provider of ASCII name whose key
    name is one of them, the agents of the route find the key in the
    cookie's keys or in the process environment, whatever the request's
    environment holds under that name. For any other key name, and a
    provider that is not named like a member of [Object.prototype], the
    request's environment is still the second source. *)
Theorem route_keys_skip_request_env
    (req : ChatRequest) (filteredFiles : option FileMap) (c : Z) (provider : string) :
  let context := Spec.stageContext (agentOptions req filteredFiles) c in
  Js.isAscii provider = true →
  (Spec.envKeyName provider ∈ maskedNames →
   LangChain.getApiKey context provider
   = Spec.firstNonEmpty [apiKeys req !! Spec.displayName provider;
                         processEnv !! Spec.envKeyName provider]) ∧
  (Spec.envKeyName provider ∉ maskedNames →
   provider ∉ Js.inheritedMembers →
   LangChain.getApiKey context provider
   = Spec.firstNonEmpty [apiKeys req !! Spec.displayName provider;
                         cloudflareEnv req ≫= (.!! Spec.envKeyName provider);
                         processEnv !! Spec.envKeyName provider]).
Proof.
  cbv zeta. intros _.
  assert (provider ∉ Js.inheritedMembers →
          LangChain.getApiKey (Spec.stageContext (agentOptions req filteredFiles) c) provider
          = Js.Text (Spec.firstNonEmpty
                       [apiKeys req !! Spec.displayName provider;
                        enrichedEnv (cloudflareEnv req) !! Spec.envKeyName provider;
                        processEnv !! Spec.envKeyName provider])) as Hsources.
  { intros Hp. by rewrite getApiKey_sources. }
  rewrite enrichedEnv_lookup in Hsources.
  split.
  - intros Hin. rewrite Hsources by (by apply masked_not_inherited).
    rewrite bool_decide_eq_true_2 by done. f_equal. apply firstNonEmpty_twice.
  - intros Hin Hp. rewrite Hsources by done.
    rewrite bool_decide_eq_false_2 by done.
    destruct (cloudflareEnv req) as [cf|]; [done|].
    cbn [default mbind option_bind]. by rewrite lookup_empty.
Qed.

End ChatStream.

(** ** The log viewer *)

Section Logs.
Import LogViewer.

Lemma stripPrefix_app_left p q s r :
  Js.stripPrefix (p +:+ q) s = Some r → ∃ r', Js.stripPrefix p s = Some r'.
Proof.
  revert s. induction p as [|a p IH]; intros s; [by exists s|].
  rewrite append_String. destruct s as [|b s]; [done|]. cbn [Js.stripPrefix].
  destruct (Ascii.eqb a b); [apply IH | done].
Qed.

(** A log that holds a pattern holds every beginning of the pattern. *)
Lemma occursIn_app_left p q s :
  Spec.occursIn (p +:+ q) s = true → Spec.occursIn p s = true.
Proof.
  induction s as [|c s IH].
  - cbn [Spec.occursIn].
    destruct (Js.stripPrefix (p +:+ q) EmptyString) eqn:Hs; [|done].
    apply stripPrefix_app_left in Hs as [r' ->]. done.
  - cbn [Spec.occursIn].
    destruct (Js.stripPrefix (p +:+ q) (String c s)) eqn:Hs.
    + apply stripPrefix_app_left in Hs as [r' ->]. done.
    + intros Hr. destruct (Js.stripPrefix p (String c s)); [done | by apply IH].
Qed.

Lemma filter_filter_implied {A} (f g : A → bool) (l : list A) :
  (∀ x, f x = true → g x = true) → List.filter f (List.filter g l) = List.filter f l.
Proof.
  intros Hfg. induction l as [|x l IH]; [done|]. cbn [List.filter].
  destruct (g x) eqn:Hg.
  - cbn [List.filter]. by rewrite IH.
  - destruct (f x) eqn:Hf; [|done]. apply Hfg in Hf. congruence.
Qed.

(** X23: the three agent filters of the log viewer select among what the
    default filter selects: for the modes 'orchestrator', 'prompt-enhancer'
    and 'code-generator', every log returned is also returned by mode
    'all', and filtering the result of mode 'all' by the mode gives the
    same logs as filtering the captured logs directly; the order of the
    logs is kept. (Mode 'errors' is apart: it looks for 'ERROR'.) *)
Theorem viewAgentLogs_within_all (mode : LogFilterMode) (logs : list string) :
  mode ≠ ERRORS →
  viewAgentLogs mode (viewAgentLogs ALL logs) = viewAgentLogs mode logs ∧
  (∀ log, log ∈ viewAgentLogs mode logs → log ∈ viewAgentLogs ALL logs) ∧
  sublist (viewAgentLogs mode logs) (viewAgentLogs ALL logs).
Proof.
  intros Hmode.
  assert (∀ log, includes log (modePattern mode) = true
                 → includes log (modePattern ALL) = true) as Himp.
  { intros log. unfold includes.
    destruct mode; [done| | | |done]; cbn [modePattern].
    - apply (occursIn_app_left "agent." "orchestrator").
    - apply (occursIn_app_left "agent." "prompt-enhancer").
    - apply (occursIn_app_left "agent." "code-generator"). }
  assert (viewAgentLogs mode (viewAgentLogs ALL logs) = viewAgentLogs mode logs) as Heq.
  { unfold viewAgentLogs. by apply filter_filter_implied. }
  split; [done|]. split.
  - intros log. rewrite <- Heq. unfold viewAgentLogs at 1.
    rewrite list_elem_of_In, List.filter_In, <- list_elem_of_In. tauto.
  - rewrite <- Heq. unfold viewAgentLogs at 1.
    generalize (viewAgentLogs ALL logs). intros l.
    induction l as [|x l IH]; [constructor|]. cbn [List.filter].
    destruct (includes x _); by constructor.
Qed.

End Logs.

(** * The further properties on sample requests *)

Section OnMoreSamples.
Import Samples MoreSamples.

Lemma extract_embed_extract_sample :
  Spec.occursIn "[Provider: " (model (LangChain.extractModelInfo userMsg)) = false ∧
  LangChain.extractModelInfo
    (LangChain.enhancedUserMessage (LangChain.extractModelInfo userMsg)
       "Write a recursive fibonacci function" "msg-2")
  = LangChain.extractModelInfo userMsg.
Proof.
  split; [vm_compute; reflexivity|].
  apply (extract_embed_extract userMsg). vm_compute; reflexivity.
Defined.

Lemma stages_share_the_model_sample :
  Spec.occursIn "[Provider: "
    (model (Spec.newestModelInfo (LangChain.OrchestratorOptions.messages options))) = false ∧
  @LangChain.orchestrateLangChainAgents world options []
    = (Ok orchestratorResult, orchestratorTrace) ∧
  ∃ delta m enhanced systemMessage,
    orchestratorTrace = [] ++ delta ∧
    findLastUser (LangChain.OrchestratorOptions.messages options) = Some m ∧
    modelCalls delta =
      [ Invoke (@Anatomy.stageModel world (Spec.stageContext options 0)
                  (Spec.newestModelInfo (LangChain.OrchestratorOptions.messages options))
                  (2 # 10))
               [HumanMessage (@formatPrompt world PROMPT_ENHANCER (contentText (content m)))];
        Invoke (@Anatomy.stageModel world (Spec.stageContext options 0)
                  (Spec.newestModelInfo (LangChain.OrchestratorOptions.messages options)) 0)
               [SystemMessage systemMessage;
                HumanMessage (@formatPrompt world CODE_GENERATOR
                  (Spec.tagged
                     (model (Spec.newestModelInfo
                               (LangChain.OrchestratorOptions.messages options)))
                     (providerName (Spec.newestModelInfo
                                      (LangChain.OrchestratorOptions.messages options)))
                     enhanced))] ].
Proof.
  split; [vm_compute; reflexivity|]. split; [vm_compute; reflexivity|].
  apply (@stages_share_the_model world options [] orchestratorResult orchestratorTrace);
    vm_compute; reflexivity.
Defined.

Lemma orchestrated_usage_bounds_sample :
  @LangChain.orchestrateLangChainAgents world options []
    = (Ok orchestratorResult, orchestratorTrace) ∧
  0 <= promptTokens (LangChain.OrchestratorResult.usage orchestratorResult) ∧
  0 <= completionTokens (LangChain.OrchestratorResult.usage orchestratorResult) ∧
  0 <= totalTokens (LangChain.OrchestratorResult.usage orchestratorResult) ∧
  promptTokens (LangChain.OrchestratorResult.usage orchestratorResult)
    + completionTokens (LangChain.OrchestratorResult.usage orchestratorResult) - 2
    <= totalTokens (LangChain.OrchestratorResult.usage orchestratorResult) ∧
  totalTokens (LangChain.OrchestratorResult.usage orchestratorResult)
    <= promptTokens (LangChain.OrchestratorResult.usage orchestratorResult)
       + completionTokens (LangChain.OrchestratorResult.usage orchestratorResult).
Proof.
  split; [vm_compute; reflexivity|].
  apply (@orchestrated_usage_bounds world options [] orchestratorResult orchestratorTrace).
  vm_compute; reflexivity.
Defined.

Lemma generator_without_user_message_sample :
  ¬ Spec.hasUserMessage (LangChain.messages silentGenerator) ∧
  ∃ delta,
    @LangChain.CodeGeneratorAgent.execute world silentGenerator []
      = (Thrown NoUserMessageForCodeGeneration, [] ++ delta) ∧
    modelCalls delta = [] ∧
    label <$> progressEvents delta = ["code-gen"; "code-gen"] ∧
    status <$> progressEvents delta = [InProgress; Complete] ∧
    order <$> progressEvents delta
      = [progressCounter (LangChain.context silentGenerator) + 1;
         progressCounter (LangChain.context silentGenerator) + 1] ∧
    length (written delta) = 2%nat.
Proof.
  split; [apply silent_has_no_user|].
  apply (@generator_without_user_message world silentGenerator []).
  apply silent_has_no_user.
Defined.

Lemma recognized_provider_any_case_sample :
  Spec.recognized "openai" ∧
  Js.toLowerCase "OpenAI" = Js.toLowerCase "openai" ∧
  @LangChain.getApiKey world (@contextWith world openAiKeys 0) "OpenAI"
    = @LangChain.getApiKey world (@contextWith world openAiKeys 0) "openai" ∧
  @LangChain.createLangChainModel world "OpenAI" "gpt-4o" "sk-test" 0
  = @LangChain.createLangChainModel world "openai" "gpt-4o" "sk-test" 0.
Proof.
  split; [right; left; reflexivity|]. split; [reflexivity|].
  apply (@recognized_provider_any_case world); [right; left; reflexivity | reflexivity].
Defined.

Lemma connection_test_misses_display_name_key_sample :
  Spec.recognized "openai" ∧
  openAiKeys !! Spec.displayName "openai" = Some "sk-test" ∧
  openAiKeys !! Spec.envKeyName "openai" = None ∧
  @LangChain.getApiKey world (@contextWith world openAiKeys 0) "openai" = "sk-test" ∧
  LlmUtils.success
    (LlmUtils.testLLMApiConnection 100 105 None openAiKeys "openai" (Some "gpt-4o")) = false.
Proof.
  split; [right; left; reflexivity|].
  split; [vm_compute; reflexivity|]. split; [vm_compute; reflexivity|].
  apply (@connection_test_misses_display_name_key world (@contextWith world openAiKeys 0)
           "openai" (Some "gpt-4o") "sk-test" 100 105).
  - right; left; reflexivity.
  - vm_compute; reflexivity.
  - discriminate.
  - vm_compute; reflexivity.
Defined.

Lemma parseCookies_round_trip_sample :
  Forall (fun p => ChatRoute.cookieName p.1 = true ∧ ChatRoute.cookieText p.2 = true) cookies ∧
  Forall (fun p => plainDecode p.1 = Some p.1 ∧ plainDecode p.2 = Some p.2) cookies ∧
  ChatRoute.cookieHeaderOf cookies
    = "theme=dark; token=a=b=c; __proto__=polluted; theme=light" ∧
  ChatRoute.parseCookies plainDecode
    "theme=dark; token=a=b=c; __proto__=polluted; theme=light"
    = Some (list_to_map (reverse (filter (fun p => p.1 ≠ "__proto__") cookies))) ∧
  (list_to_map (reverse (filter (fun p => p.1 ≠ "__proto__") cookies))
     : gmap string string) !! "theme" = Some "light" ∧
  (list_to_map (reverse (filter (fun p => p.1 ≠ "__proto__") cookies))
     : gmap string string) !! "__proto__" = None.
Proof.
  assert (Forall (fun p => ChatRoute.cookieName p.1 = true ∧ ChatRoute.cookieText p.2 = true)
            cookies) as Hwell
    by (repeat constructor; vm_compute; reflexivity).
  assert (Forall (fun p => plainDecode p.1 = Some p.1 ∧ plainDecode p.2 = Some p.2) cookies)
    as Hplain
    by (repeat constructor; vm_compute; reflexivity).
  split; [exact Hwell|]. split; [exact Hplain|]. split; [vm_compute; reflexivity|].
  split; [|split; vm_compute; reflexivity].
  exact (parseCookies_round_trip plainDecode cookies Hwell Hplain).
Defined.

Lemma parseCookies_malformed_sample :
  Forall (fun p => ChatRoute.cookieName p.1 = true ∧ ChatRoute.cookieText p.2 = true)
         spoiledCookies ∧
  ("token", "%") ∈ spoiledCookies ∧
  plainDecode "%" = None ∧
  ChatRoute.parseCookies plainDecode "theme=dark; token=%" = None.
Proof.
  assert (Forall (fun p => ChatRoute.cookieName p.1 = true ∧ ChatRoute.cookieText p.2 = true)
            spoiledCookies) as Hwell
    by (repeat constructor; vm_compute; reflexivity).
  assert (("token", "%") ∈ spoiledCookies) as Hin
    by (apply list_elem_of_further, list_elem_of_here).
  split; [exact Hwell|]. split; [exact Hin|]. split; [vm_compute; reflexivity|].
  exact (parseCookies_malformed plainDecode spoiledCookies ("token", "%") Hwell Hin
           (or_intror eq_refl)).
Defined.


Lemma chat_failure_stream_sample :
  @ChatRoute.direct broken (routeOf broken) brokenRequest ∧
  (@LangChain.orchestrateLangChainAgents broken
     (@ChatRoute.agentOptions broken brokenRequest None)
     (ChatRoute.baseView [ChatRoute.responseStart 1])).1 = Thrown (External "network down") ∧
  (@ChatRoute.execute broken (routeOf broken) brokenRequest ChatRoute.initialState).1 = Ok tt ∧
  ChatRoute.writtenChunks
    (ChatRoute.events
       (@ChatRoute.execute broken (routeOf broken) brokenRequest ChatRoute.initialState).2)
  = [ChatRoute.textPart ("An error occurred while processing your request: " +:+
                         failureMessage (External "network down"))].
Proof.
  assert (@ChatRoute.direct broken (routeOf broken) brokenRequest) as Hd
    by (right; reflexivity).
  split; [exact Hd|]. split; [vm_compute; reflexivity|].
  pose proof (@chat_failure_stream broken (routeOf broken) brokenRequest
                (External "network down") Hd ltac:(vm_compute; reflexivity)) as Hs.
  cbv zeta in Hs. split; [exact (proj1 Hs) | exact (proj1 (proj2 (proj2 Hs)))].
Defined.

Lemma getApiKey_inherited_member_sample :
  findLastUser (LangChain.messages constructorOptions) = Some constructorMsg ∧
  providerName (Spec.newestModelInfo (LangChain.messages constructorOptions))
    = "constructor" ∧
  "constructor" ∈ Js.inheritedMembers ∧
  Spec.firstNonEmpty
    (@Spec.keySources world (LangChain.context constructorOptions) "constructor")
    = EmptyString ∧
  @LangChain.getApiKey world (LangChain.context constructorOptions) "constructor"
    = Js.InheritedMember "constructor" ∧
  (@LangChain.PromptEnhancerAgent.execute world constructorOptions []).1
    ≠ Thrown (NoApiKey "constructor") ∧
  modelCalls (@LangChain.PromptEnhancerAgent.execute world constructorOptions []).2
    = [Invoke {| chatClass := ChatOpenAI; apiKey := Js.InheritedMember "constructor";
                 modelName := "gpt-4"; temperature := 2 # 10; baseURL := None |}
         [HumanMessage
            (@formatPrompt world PROMPT_ENHANCER
               "[Model: gpt-4][Provider: constructor] write a function")]].
Proof.
  assert ("constructor" ∈ Js.inheritedMembers) as Hin by apply list_elem_of_here.
  assert (apiKeys (LangChain.context constructorOptions) !! "constructor" = None)
    as Hown by (vm_compute; reflexivity).
  destruct (@getApiKey_inherited_member world) as [Hkey Hstage].
  split; [reflexivity|]. split; [vm_compute; reflexivity|]. split; [exact Hin|].
  split; [vm_compute; reflexivity|].
  split; [exact (proj1 (Hkey _ "constructor" Hin Hown))|].
  exact (Hstage constructorOptions [] constructorMsg eq_refl Hin Hown).
Defined.


Lemma summary_failure_throws_sample :
  @ChatRoute.optimised world (routeWithoutSummary world) requestWithFile ∧
  (@ChatRoute.execute world (routeWithoutSummary world) requestWithFile
     ChatRoute.initialState).1 = Thrown (External "summary model unavailable") ∧
  ChatRoute.writtenChunks
    (ChatRoute.events
       (@ChatRoute.execute world (routeWithoutSummary world) requestWithFile
          ChatRoute.initialState).2) = [].
Proof.
  assert (@ChatRoute.optimised world (routeWithoutSummary world) requestWithFile) as Ho
    by (split; [vm_compute; discriminate | reflexivity]).
  split; [exact Ho|].
  pose proof (@summary_failure_throws world (routeWithoutSummary world) requestWithFile
                "summary model unavailable" Ho eq_refl) as Hs.
  cbv zeta in Hs. split; [exact (proj1 Hs) | exact (proj1 (proj2 (proj2 Hs)))].
Defined.

Lemma route_keys_skip_request_env_sample :
  ChatRoute.cloudflareEnv cloudflareRequest ≫= (.!! Spec.envKeyName "openai")
    = Some "sk-cloudflare" ∧
  Js.isAscii "openai" = true ∧
  Spec.envKeyName "openai" ∈ ChatRoute.maskedNames ∧
  @LangChain.getApiKey world
    (Spec.stageContext (@ChatRoute.agentOptions world cloudflareRequest None) 0) "openai"
  = EmptyString.
Proof.
  assert (Spec.envKeyName "openai" ∈ ChatRoute.maskedNames) as Hin
    by (apply list_elem_of_further, list_elem_of_here).
  split; [vm_compute; reflexivity|]. split; [reflexivity|]. split; [exact Hin|].
  exact (proj1 (@route_keys_skip_request_env world cloudflareRequest None 0 "openai"
                  eq_refl) Hin).
Defined.

Lemma viewAgentLogs_within_all_sample :
  LogViewer.CODE_GENERATOR ≠ LogViewer.ERRORS ∧
  LogViewer.viewAgentLogs LogViewer.CODE_GENERATOR
    (LogViewer.viewAgentLogs LogViewer.ALL capturedLogs)
  = LogViewer.viewAgentLogs LogViewer.CODE_GENERATOR capturedLogs.
Proof.
  split; [discriminate|].
  exact (proj1 (viewAgentLogs_within_all LogViewer.CODE_GENERATOR capturedLogs
                  ltac:(discriminate))).
Defined.

End OnMoreSamples.
